(** * Verification of [build_graph_from_csv] (Script/visualize_azure_graph.py)

    The graph construction of the script is embedded as Rocq functions.
    The three passes over the rows of the data frame (node creation,
    reference inference, exposure detection) thread the networkx graph [G]
    explicitly, the exposure pass together with its flag
    [has_internet_node]; a Python exception is a value of the error monad
    [result], and the [try]/[except] of the exposure pass is a match on it.

    - The input is the data frame [df] as [read_csv(..., dtype=str)] and
      [fillna("")] leave it: a header and rows of string cells, and the
      columns that pandas gives the dtype [object] (its choice of dtype for
      text depends on the version of pandas).
    - A Python string is a Rocq string holding its UTF-8 text; on
      well-formed UTF-8 the substring test on bytes is the one on characters.
    - The graph keeps what networkx keeps: the dict of nodes with their
      attribute dicts, as a [gmap], and the set of edges, as a [gset].  The
      order in which nodes and edges were inserted is not kept.
    - [id_to_name] and [id_to_row] are iterated, so they are dictionaries
      with their insertion order.
    - [str.lower] and [json.loads] belong to the Python runtime, not to the
      script: they are the fields of the class [PyLib], and every theorem
      holds for any implementation of them.  [Runtime] is an instance (ASCII
      lower-casing and a reader of JSON text) on which the model runs.
    - Of the export, the embedding has what the script computes itself: the
      style of a node type, the colours of the types, the keywords of each
      node, the text written back by the injection, the choice of the input
      file.  pyvis, matplotlib and the file system are outside: the export
      is modelled up to the data handed to pyvis, the order in which
      networkx yields the nodes is an argument, and files are given by their
      contents. *)

From stdpp Require Import gmap strings list fin_maps pretty.
From Stdlib Require Import ZArith Ascii.

(** ** Exceptions *)

(** The exceptions that can leave a statement of [build_graph_from_csv].
    [RecursionError] is what [json.loads] raises on a document nested deeper
    than the interpreter's recursion limit. *)
Inductive exn :=
  | SystemExit
  | JSONDecodeError
  | AttributeError
  | TypeError
  | RecursionError.

Global Instance exn_eq_dec : EqDecision exn.
Proof. solve_decision. Defined.

Inductive result (A : Type) : Type :=
  | Ok (a : A)
  | Raise (e : exn).
Arguments Ok {A} a.
Arguments Raise {A} e.

Global Instance result_eq_dec `{EqDecision A} : EqDecision (result A).
Proof. solve_decision. Defined.

Global Instance result_ret : MRet result := λ A a, Ok a.
Global Instance result_bind : MBind result := λ A B f m,
  match m with
  | Ok a => f a
  | Raise e => Raise e
  end.

(** ** Strings *)

(** [s.startswith(p)] *)
Fixpoint startswith (p s : string) : bool :=
  match p, s with
  | EmptyString, _ => true
  | String a p', String b s' => if decide (a = b) then startswith p' s' else false
  | String _ _, EmptyString => false
  end.

(** [needle in hay]: literal substring test of Python strings. *)
Fixpoint contains (needle hay : string) : bool :=
  startswith needle hay ||
  match hay with
  | EmptyString => false
  | String _ hay' => contains needle hay'
  end.

(** [sep.join(parts)] *)
Fixpoint join (sep : string) (parts : list string) : string :=
  match parts with
  | [] => ""
  | [p] => p
  | p :: ps => p +:+ sep +:+ join sep ps
  end.

(** ** Python dictionaries that are iterated: insertion-ordered items *)

Section dict.
Context {V : Type}.

(** [d.get(k)]; [None] is Python's [None]. *)
Fixpoint dict_get (k : string) (d : list (string * V)) : option V :=
  match d with
  | [] => None
  | (k', v) :: d' => if decide (k = k') then Some v else dict_get k d'
  end.

(** [d[k] = v]: a key already present keeps its position. *)
Fixpoint dict_set (k : string) (v : V) (d : list (string * V)) : list (string * V) :=
  match d with
  | [] => [(k, v)]
  | (k', v') :: d' =>
      if decide (k = k') then (k, v) :: d' else (k', v') :: dict_set k v d'
  end.

(** [list(d.keys())] *)
Definition dict_keys (d : list (string * V)) : list string := d.*1.
End dict.

(** ** Values returned by [json.loads] *)

(** A number keeps its literal: the script never computes with one.  The
    items of a [PDict] are in insertion order, with distinct keys. *)
#[warnings="-register-all"]
Inductive pyval :=
  | PNone
  | PBool (b : bool)
  | PNum (literal : string)
  | PStr (s : string)
  | PList (xs : list pyval)
  | PDict (items : list (string * pyval)).

(** [v.get(key, default)]: only a dict has the method. *)
Definition py_get (v : pyval) (key : string) (dflt : pyval) : result pyval :=
  match v with
  | PDict items => Ok (default dflt (dict_get key items))
  | _ => Raise AttributeError
  end.

(** The characters of a string, each as a string of length one. *)
Fixpoint chars (s : string) : list string :=
  match s with
  | EmptyString => []
  | String a s' => String a EmptyString :: chars s'
  end.

(** [for x in v]: the elements of a list, the keys of a dict, the
    characters of a string; anything else is not iterable. *)
Definition py_iter (v : pyval) : result (list pyval) :=
  match v with
  | PList xs => Ok xs
  | PDict items => Ok (PStr <$> dict_keys items)
  | PStr s => Ok (PStr <$> chars s)
  | _ => Raise TypeError
  end.

(** The Python runtime functions the script calls. *)
Class PyLib := {
  str_lower : string → string;
  json_loads : string → result pyval;
}.

(** ** The data frame *)

(** [df] after [pd.read_csv(csv_path, dtype=str).fillna("")]: every cell is a
    string, and each row (a pandas Series) maps every column of the header
    to its cell.  The dtype that pandas gives a column read with [dtype=str]
    depends on its version ([object] up to pandas 2, the string dtype from
    pandas 3 on): [object_columns] are the columns [c] for which
    [df[c].dtype == object] holds. *)
Record DataFrame := {
  columns : list string;
  rows : list (gmap string string);
  object_columns : list string;
}.

(** [row[c]] for a column [c] of the header; [row.get(c, dflt)] *)
Definition row_item (row : gmap string string) (c : string) : string :=
  default "" (row !! c).
Definition row_get (row : gmap string string) (c dflt : string) : string :=
  default dflt (row !! c).

(** ** The networkx directed graph *)

(** A node attribute: the CSV fields are strings, [size=40] is an int. *)
Inductive attr :=
  | AStr (s : string)
  | AInt (z : Z).

Global Instance attr_eq_dec : EqDecision attr.
Proof. solve_decision. Defined.

(** [G._node] (name to attribute dict) and the set of edges of [G._adj]. *)
Record DiGraph := {
  nodes : gmap string (gmap string attr);
  edges : gset (string * string);
}.

Global Instance DiGraph_eq_dec : EqDecision DiGraph.
Proof. solve_decision. Defined.

(** [nx.DiGraph()] *)
Definition empty_graph : DiGraph := {| nodes := ∅; edges := ∅ |}.

(** [G.add_node(n, **attrs)]: a new node gets [attrs]; the attribute dict of
    an existing node is updated with them ([dict.update]). *)
Definition add_node (n : string) (attrs : gmap string attr) (G : DiGraph) : DiGraph :=
  {| nodes := <[n := attrs ∪ default ∅ (nodes G !! n)]> (nodes G);
     edges := edges G |}.

(** [G.add_edge(u, v)]: both end points become nodes if they are not yet. *)
Definition add_edge (u v : string) (G : DiGraph) : DiGraph :=
  let G' := add_node v ∅ (add_node u ∅ G) in
  {| nodes := nodes G'; edges := {[ (u, v) ]} ∪ edges G' |}.

(** ** Identity index (lines 44-45) *)

Definition id_to_name_of (rws : list (gmap string string)) : list (string * string) :=
  foldl (λ d row, if decide (row_item row "id" = "") then d
                  else dict_set (row_item row "id") (row_item row "name") d) [] rws.

Definition id_to_row_of (rws : list (gmap string string))
  : list (string * gmap string string) :=
  foldl (λ d row, if decide (row_item row "id" = "") then d
                  else dict_set (row_item row "id") row d) [] rws.

Definition id_to_name (df : DataFrame) := id_to_name_of (rows df).
Definition id_to_row (df : DataFrame) := id_to_row_of (rows df).

(** ** Node creation (lines 51-64) *)

(** The dict [attrs] built for one row. *)
Definition row_attrs (cols : list string) (row : gmap string string) : gmap string attr :=
  foldl (λ attrs key,
           match row !! key with
           | Some val => if decide (val = "") then attrs else <[key := AStr val]> attrs
           | None => attrs
           end) ∅ cols.

(** The call [G.add_node(name, **attrs)] binds [self] and [node_for_adding]
    positionally: a keyword of either name is a [TypeError]. *)
Definition add_node_kwargs (name : string) (attrs : gmap string attr) (G : DiGraph)
  : result DiGraph :=
  if decide (is_Some (attrs !! "self") ∨ is_Some (attrs !! "node_for_adding"))
  then Raise TypeError
  else Ok (add_node name attrs G).

Fixpoint node_loop (cols : list string) (rws : list (gmap string string)) (G : DiGraph)
  : result DiGraph :=
  match rws with
  | [] => Ok G
  | row :: rws' =>
      let name := row_item row "name" in
      if decide (name = "") then node_loop cols rws' G
      else G' ← add_node_kwargs name (row_attrs cols row) G; node_loop cols rws' G'
  end.

(** ** Reference inference (lines 68-91) *)

(** [candidate_ids = list(id_to_name.keys())] *)
Definition candidate_ids (df : DataFrame) : list string := dict_keys (id_to_name df).

Definition reference_columns : list string :=
  ["properties"; "tags"; "identity"; "managedBy"; "resourceGroup"; "type"].

(** Lines 71-74: the recognised columns and, when there is none, the
    columns of dtype [object]. *)
Definition search_columns (df : DataFrame) : list string :=
  match filter (λ c, c ∈ reference_columns) (columns df) with
  | [] => filter (λ c, c ∈ object_columns df) (columns df)
  | cs => cs
  end.

(** [hay = " ".join(str(row.get(c, "")) for c in search_columns)] *)
Definition hay (cols : list string) (row : gmap string string) : string :=
  join " " ((λ c, row_get row c "") <$> cols).

(** The body of [for cid in candidate_ids] (lines 84-91). *)
Definition scan_id (i2n : list (string * string)) (row : gmap string string)
    (src_name h : string) (G : DiGraph) (cid : string) : DiGraph :=
  if decide (cid = row_item row "id") then G
  else if contains cid h then
    match dict_get cid i2n with
    | Some tgt_name =>
        if decide (tgt_name = "") then G
        else add_edge src_name tgt_name (add_node tgt_name ∅ G)
    | None => G
    end
  else G.

(** The body of [for _, row in df.iterrows()] (lines 77-91). *)
Definition scan_row (i2n : list (string * string)) (cids cols : list string)
    (G : DiGraph) (row : gmap string string) : DiGraph :=
  let src_name := row_item row "name" in
  if decide (src_name = "") then G
  else foldl (scan_id i2n row src_name (hay cols row)) G cids.

Definition reference_loop (i2n : list (string * string)) (cids cols : list string)
    (rws : list (gmap string string)) (G : DiGraph) : DiGraph :=
  foldl (scan_row i2n cids cols) G rws.

(** ** Exposure detection (lines 94-130) *)

Definition internet_node_name : string := "Internet".
Definition internet_sources : list string := ["*"; "internet"; "0.0.0.0/0"].

(** The keywords of [G.add_node(internet_node_name, type='Internet',
    group='Internet', size=40)]. *)
Definition internet_attrs : gmap string attr :=
  <["type" := AStr "Internet"]> (<["group" := AStr "Internet"]> (<["size" := AInt 40]> ∅)).

Section exposure.
Context `{PyLib}.

(** [v.lower()]: only a string has the method. *)
Definition py_lower (v : pyval) : result string :=
  match v with
  | PStr s => Ok (str_lower s)
  | _ => Raise AttributeError
  end.

(** The condition of lines 110-113 on one element of [rules]; [and]
    evaluates its right operand only when the left one holds. *)
Definition rule_open (rule : pyval) : result bool :=
  rule_props ← py_get rule "properties" (PDict []);
  direction ← py_get rule_props "direction" (PStr "") ≫= py_lower;
  if decide (direction = "inbound") then
    access ← py_get rule_props "access" (PStr "") ≫= py_lower;
    if decide (access = "allow") then
      source ← py_get rule_props "sourceAddressPrefix" (PStr "") ≫= py_lower;
      Ok (bool_decide (source ∈ internet_sources))
    else Ok false
  else Ok false.

(** [for rule in rules: if ...: is_exposed = True; break] *)
Fixpoint any_rule_open (rules : list pyval) : result bool :=
  match rules with
  | [] => Ok false
  | rule :: rules' =>
      b ← rule_open rule;
      if (b : bool) then Ok true else any_rule_open rules'
  end.

(** The body of the [try] (lines 105-121): the value of [is_exposed]
    when it completes, the exception otherwise. *)
Definition is_exposed (node_type properties_str : string) : result bool :=
  properties ← json_loads properties_str;
  if decide (node_type = "microsoft.network/networksecuritygroups") then
    rules ← py_get properties "securityRules" (PList []);
    rules ← py_iter rules;
    any_rule_open rules
  else if decide (node_type = "microsoft.storage/storageaccounts") then
    network_acls ← py_get properties "networkAcls" (PDict []);
    action ← py_get network_acls "defaultAction" (PStr "") ≫= py_lower;
    Ok (bool_decide (action = "allow"))
  else Ok false.

Definition row_exposed (row : gmap string string) : result bool :=
  is_exposed (str_lower (row_get row "type" "")) (row_get row "properties" "{}").

(** Lines 126-130; the state is [G] with the flag [has_internet_node]. *)
Definition expose (node_name : string) (st : DiGraph * bool) : DiGraph * bool :=
  let '(G, has_internet_node) := st in
  let G' := if has_internet_node then G
            else add_node internet_node_name internet_attrs G in
  (add_edge internet_node_name node_name G', true).

(** The body of the exposure loop (lines 99-130): [JSONDecodeError] and
    [AttributeError] are caught and the row is left ([continue]); any
    other exception leaves the function. *)
Definition exposure_step (st : DiGraph * bool) (row : gmap string string)
  : result (DiGraph * bool) :=
  match row_exposed row with
  | Ok true => Ok (expose (row_item row "name") st)
  | Ok false => Ok st
  | Raise JSONDecodeError => Ok st
  | Raise AttributeError => Ok st
  | Raise e => Raise e
  end.

Fixpoint exposure_loop (rws : list (gmap string string)) (st : DiGraph * bool)
  : result (DiGraph * bool) :=
  match rws with
  | [] => Ok st
  | row :: rws' => st' ← exposure_step st row; exposure_loop rws' st'
  end.

(** ** The whole build *)

(** The graph after the node and reference passes (lines 48-91). *)
Definition reference_graph (df : DataFrame) : result DiGraph :=
  G ← node_loop (columns df) (rows df) empty_graph;
  Ok (reference_loop (id_to_name df) (candidate_ids df) (search_columns df) (rows df) G).

Definition build_graph_from_csv (df : DataFrame) : result DiGraph :=
  if decide ("id" ∈ columns df ∧ "name" ∈ columns df) then
    G ← reference_graph df;
    st ← exposure_loop (rows df) (G, false);
    Ok st.1
  else Raise SystemExit.
End exposure.

(** ** A concrete runtime, to run the model on examples *)

Module Runtime.
Local Open Scope char_scope.

Definition quote : ascii := "034".
Definition backslash : ascii := "092".

(** [dq s] is [s] with every apostrophe replaced by a double quote: JSON
    text is written with apostrophes in the examples. *)
Fixpoint dq (s : string) : string :=
  match s with
  | EmptyString => EmptyString
  | String c s' => String (if decide (c = "'") then quote else c) (dq s')
  end.

(** [str.lower] on ASCII text. *)
Definition lower_char (c : ascii) : ascii :=
  let n := nat_of_ascii c in
  if (65 <=? n)%nat && (n <=? 90)%nat then ascii_of_nat (n + 32) else c.

Fixpoint lower (s : string) : string :=
  match s with
  | EmptyString => EmptyString
  | String c s' => String (lower_char c) (lower s')
  end.

(** A reader for JSON text without [\u] escapes, after the grammar that
    [json.loads] accepts: the result on such text is the Python value,
    and text that is not JSON is rejected. *)
Definition is_ws (c : ascii) : bool :=
  bool_decide (c ∈ [" "; "009"; "010"; "013"]).

Fixpoint skip_ws (s : string) : string :=
  match s with
  | String c s' => if is_ws c then skip_ws s' else s
  | EmptyString => s
  end.

Definition is_digit (c : ascii) : bool :=
  let n := nat_of_ascii c in (48 <=? n)%nat && (n <=? 57)%nat.

Fixpoint span_digits (s : string) : string * string :=
  match s with
  | String c s' =>
      if is_digit c then let '(d, r) := span_digits s' in (String c d, r)
      else (EmptyString, s)
  | EmptyString => (EmptyString, s)
  end.

Definition unescape (c : ascii) : option ascii :=
  if decide (c = quote) then Some quote
  else if decide (c = backslash) then Some backslash
  else if decide (c = "/") then Some "/"
  else if decide (c = "b") then Some "008"
  else if decide (c = "f") then Some "012"
  else if decide (c = "n") then Some "010"
  else if decide (c = "r") then Some "013"
  else if decide (c = "t") then Some "009"
  else None.

(** The text after an opening double quote, up to the closing one. *)
Fixpoint read_string (s : string) : option (string * string) :=
  match s with
  | EmptyString => None
  | String c s' =>
      if decide (c = quote) then Some (EmptyString, s')
      else if decide (c = backslash) then
        match s' with
        | String e s'' =>
            match unescape e, read_string s'' with
            | Some c', Some (t, r) => Some (String c' t, r)
            | _, _ => None
            end
        | EmptyString => None
        end
      else if (nat_of_ascii c <? 32)%nat then None
      else match read_string s' with
           | Some (t, r) => Some (String c t, r)
           | None => None
           end
  end.

(** A number literal: an optional minus sign, then 0 or digits not
    starting with 0, then an optional fraction and an optional exponent. *)
Definition read_number (s : string) : option (string * string) :=
  let '(sign, s1) :=
    match s with
    | String "-" r => ("-"%string, r)
    | _ => (EmptyString, s)
    end in
  let '(int, s2) :=
    match s1 with
    | String "0" r => ("0"%string, r)
    | _ => span_digits s1
    end in
  if decide (int = EmptyString) then None
  else
    let '(frac, s3) :=
      match s2 with
      | String "." r =>
          let '(d, r') := span_digits r in
          if decide (d = EmptyString) then (EmptyString, s2)
          else (String "." d, r')
      | _ => (EmptyString, s2)
      end in
    let '(exp, s4) :=
      match s3 with
      | String e r =>
          if decide (e = "e" ∨ e = "E") then
            let '(sg, r1) :=
              match r with
              | String "+" r0 => ("+"%string, r0)
              | String "-" r0 => ("-"%string, r0)
              | _ => (EmptyString, r)
              end in
            let '(d, r2) := span_digits r1 in
            if decide (d = EmptyString) then (EmptyString, s3)
            else (String e (sg +:+ d), r2)
          else (EmptyString, s3)
      | EmptyString => (EmptyString, s3)
      end in
    Some (sign +:+ int +:+ frac +:+ exp, s4).

Definition strip_prefix (p s : string) : option string :=
  if startswith p s then Some (String.substring (String.length p)
                                 (String.length s - String.length p) s)
  else None.

Definition read_constant (s : string) : option (pyval * string) :=
  match strip_prefix "null" s, strip_prefix "true" s, strip_prefix "false" s with
  | Some r, _, _ => Some (PNone, r)
  | _, Some r, _ => Some (PBool true, r)
  | _, _, Some r => Some (PBool false, r)
  | _, _, _ =>
      match strip_prefix "NaN" s, strip_prefix "Infinity" s,
            strip_prefix "-Infinity" s with
      | Some r, _, _ => Some (PNum "NaN", r)
      | _, Some r, _ => Some (PNum "Infinity", r)
      | _, _, Some r => Some (PNum "-Infinity", r)
      | _, _, _ =>
          match read_number s with
          | Some (n, r) => Some (PNum n, r)
          | None => None
          end
      end
  end.

Fixpoint read_value (fuel : nat) (s : string) {struct fuel}
  : option (pyval * string) :=
  match fuel with
  | O => None
  | S n =>
      match s with
      | String c r =>
          if decide (c = "{") then
            match skip_ws r with
            | String "}" r' => Some (PDict [], r')
            | r' => read_members n r' []
            end
          else if decide (c = "[") then
            match skip_ws r with
            | String "]" r' => Some (PList [], r')
            | r' => read_elements n r' []
            end
          else if decide (c = quote) then
            match read_string r with
            | Some (t, r') => Some (PStr t, r')
            | None => None
            end
          else read_constant s
      | EmptyString => None
      end
  end
with read_elements (fuel : nat) (s : string) (acc : list pyval) {struct fuel}
  : option (pyval * string) :=
  match fuel with
  | O => None
  | S n =>
      match read_value n s with
      | Some (v, r) =>
          match skip_ws r with
          | String "," r' => read_elements n (skip_ws r') (acc ++ [v])
          | String "]" r' => Some (PList (acc ++ [v]), r')
          | _ => None
          end
      | None => None
      end
  end
with read_members (fuel : nat) (s : string) (acc : list (string * pyval))
  {struct fuel} : option (pyval * string) :=
  match fuel with
  | O => None
  | S n =>
      match s with
      | String c r =>
          if decide (c = quote) then
            match read_string r with
            | Some (k, r1) =>
                match skip_ws r1 with
                | String ":" r2 =>
                    match read_value n (skip_ws r2) with
                    | Some (v, r3) =>
                        match skip_ws r3 with
                        | String "," r4 =>
                            read_members n (skip_ws r4) (dict_set k v acc)
                        | String "}" r4 => Some (PDict (dict_set k v acc), r4)
                        | _ => None
                        end
                    | None => None
                    end
                | _ => None
                end
            | None => None
            end
          else None
      | EmptyString => None
      end
  end.

Definition loads (s : string) : result pyval :=
  match read_value (2 * String.length s + 2) (skip_ws s) with
  | Some (v, r) =>
      if decide (skip_ws r = EmptyString) then Ok v else Raise JSONDecodeError
  | None => Raise JSONDecodeError
  end.

Definition ascii_json : PyLib := {| str_lower := lower; json_loads := loads |}.
End Runtime.

(** * Vocabulary of the statements *)

(** Both comprehensions of lines 44-45 are instances of this fold. *)
Definition index_of {V : Type} (val : gmap string string → V)
    (rws : list (gmap string string)) (d : list (string * V)) : list (string * V) :=
  foldl (λ d row, if decide (row_item row "id" = "") then d
                  else dict_set (row_item row "id") (val row) d) d rws.

(** An operation keeps the attributes of the nodes that exist. *)
Definition attrs_kept (G G' : DiGraph) : Prop :=
  ∀ n a, nodes G !! n = Some a → nodes G' !! n = Some a.

(** The attributes that the rows named [n] leave on node [n]: each such
    row updates the dict built so far with its own non-empty fields. *)
Definition merged_attrs (cols : list string) (rws : list (gmap string string))
    (n : string) (init : gmap string attr) : gmap string attr :=
  foldl (λ acc row, if decide (row_item row "name" = n)
                    then row_attrs cols row ∪ acc else acc) init rws.

(** The cell of [row] in column [k] is the non-empty text [s]. *)
Definition fills (cols : list string) (row : gmap string string) (k s : string) : Prop :=
  k ∈ cols ∧ row !! k = Some s ∧ s ≠ "".

(** Among the rows named [n], the last one with a non-empty cell in column
    [k] has the text [s] there. *)
Definition last_filled (cols : list string) (rws : list (gmap string string))
    (n k s : string) : Prop :=
  ∃ pre r post,
    rws = pre ++ r :: post ∧ row_item r "name" = n ∧ fills cols r k s ∧
    Forall (λ r', row_item r' "name" = n → ∀ s', ¬ fills cols r' k s') post.

(** Candidate [cid] makes the scan of [row] add the edge to [v]. *)
Definition hit (i2n : list (string * string)) (row : gmap string string)
    (h cid v : string) : Prop :=
  cid ≠ row_item row "id" ∧ contains cid h = true ∧
  dict_get cid i2n = Some v ∧ v ≠ "".

(** The scan of [row] adds the edge from [u] to [v]. *)
Definition refers (i2n : list (string * string)) (cids cols : list string)
    (row : gmap string string) (u v : string) : Prop :=
  row_item row "name" = u ∧ u ≠ "" ∧
  ∃ cid, cid ∈ cids ∧ hit i2n row (hay cols row) cid v.

(** The scans neither change the attributes of a node nor add a node
    with an empty name. *)
Definition scan_safe (G G' : DiGraph) : Prop :=
  attrs_kept G G' ∧
  ((∀ n, is_Some (nodes G !! n) → n ≠ "") → ∀ n, is_Some (nodes G' !! n) → n ≠ "").

(** The rows for which the [try] completes with [is_exposed] set. *)
Definition exposed_rows `{PyLib} (rws : list (gmap string string))
  : list (gmap string string) :=
  filter (λ r, row_exposed r = Ok true) rws.

(** The calls [G.add_edge(internet_node_name, node_name)] of line 130. *)
Definition link_exposed (G : DiGraph) (rws : list (gmap string string)) : DiGraph :=
  foldl (λ G r, add_edge internet_node_name (row_item r "name") G) G rws.

(** The number of nodes of [G] that are keyed by [n]. *)
Definition node_count (G : DiGraph) (n : string) : nat :=
  length (filter (λ kv, kv.1 = n) (map_to_list (nodes G))).

Section rule_vocabulary.
Context `{PyLib}.

(** A rule is open when its [properties] dict allows inbound traffic from
    an Internet source. *)
Definition open_rule (rule : pyval) : Prop :=
  ∃ items rule_props direction access source,
    rule = PDict items ∧
    default (PDict []) (dict_get "properties" items) = PDict rule_props ∧
    default (PStr "") (dict_get "direction" rule_props) = PStr direction ∧
    str_lower direction = "inbound" ∧
    default (PStr "") (dict_get "access" rule_props) = PStr access ∧
    str_lower access = "allow" ∧
    default (PStr "") (dict_get "sourceAddressPrefix" rule_props) = PStr source ∧
    str_lower source ∈ internet_sources.

(** The rule of the specification's text reads the three fields from the
    entry of [securityRules] itself. *)
Definition spec_flat_rule_open (rule : pyval) : bool :=
  match rule with
  | PDict items =>
      match dict_get "direction" items, dict_get "access" items,
            dict_get "sourceAddressPrefix" items with
      | Some (PStr direction), Some (PStr access), Some (PStr source) =>
          bool_decide (str_lower direction = "inbound") &&
          bool_decide (str_lower access = "allow") &&
          bool_decide (str_lower source ∈ internet_sources)
      | _, _, _ => false
      end
  | _ => false
  end.

(** The row's [securityRules] has an open rule, and the loop reaches it:
    every rule before it is evaluated, without error, as not open. *)
Definition nsg_exposed (properties_str : string) : Prop :=
  ∃ properties rules before rule after,
    json_loads properties_str = Ok properties ∧
    py_get properties "securityRules" (PList []) = Ok rules ∧
    py_iter rules = Ok (before ++ rule :: after) ∧
    Forall (λ r, rule_open r = Ok false) before ∧
    open_rule rule.

(** The [networkAcls] of the parsed [properties] allow by default. *)
Definition storage_allows (properties : pyval) : Prop :=
  ∃ items network_acls action,
    properties = PDict items ∧
    default (PDict []) (dict_get "networkAcls" items) = PDict network_acls ∧
    default (PStr "") (dict_get "defaultAction" network_acls) = PStr action ∧
    str_lower action = "allow".
End rule_vocabulary.

(** ** Example data frames *)

Module Examples.
Import Runtime.

Definition run (df : DataFrame) : result DiGraph :=
  @build_graph_from_csv ascii_json df.

(** The graph of a successful build. *)
Definition graph_of (df : DataFrame) : DiGraph :=
  match run df with
  | Ok G => G
  | Raise _ => empty_graph
  end.

Definition series (cells : list (string * string)) : gmap string string :=
  list_to_map cells.

(** Two rows share the name [A]; the second has an empty [type]. *)
Definition shared_first : gmap string string :=
  series [("id", "/a"); ("name", "A"); ("type", "vm")].
Definition shared_last : gmap string string :=
  series [("id", "/b"); ("name", "A"); ("type", "")].
Definition df_shared_name : DataFrame :=
  {| columns := ["id"; "name"; "type"]; rows := [shared_first; shared_last];
     object_columns := ["id"; "name"; "type"] |}.

Definition header : list string := ["id"; "name"; "type"; "properties"].

Definition resource (id name type properties : string) : gmap string string :=
  series [("id", id); ("name", name); ("type", type); ("properties", properties)].

Definition frame (rws : list (gmap string string)) : DataFrame :=
  {| columns := header; rows := rws; object_columns := header |}.

Definition nsg_type : string := "Microsoft.Network/networkSecurityGroups".
Definition storage_type : string := "Microsoft.Storage/storageAccounts".

(** A security group with an open rule, nested as in an ARM export. *)
Definition nsg_open : gmap string string :=
  resource "/nsg/1" "nsg1" nsg_type
    (dq "{'securityRules': [{'name': 'web', 'properties': {'direction': 'Inbound', 'access': 'Allow', 'sourceAddressPrefix': '*'}}]}").

(** The same rule for a private address range. *)
Definition nsg_private : gmap string string :=
  resource "/nsg/2" "nsg2" nsg_type
    (dq "{'securityRules': [{'name': 'web', 'properties': {'direction': 'Inbound', 'access': 'Allow', 'sourceAddressPrefix': '10.0.0.0/8'}}]}").

(** The rule entry of the specification's text: the three fields are in
    the entry itself. *)
Definition flat_rule : pyval :=
  PDict [("direction", PStr "Inbound"); ("access", PStr "Allow");
         ("sourceAddressPrefix", PStr "*")].
Definition nsg_flat : gmap string string :=
  resource "/nsg/3" "nsg3" nsg_type
    (dq "{'securityRules': [{'direction': 'Inbound', 'access': 'Allow', 'sourceAddressPrefix': '*'}]}").

(** [securityRules] is [null]. *)
Definition nsg_null_rules : gmap string string :=
  resource "/nsg/4" "nsg4" nsg_type (dq "{'securityRules': null}").

(** A security group whose [properties] is not JSON. *)
Definition nsg_unparseable : gmap string string :=
  resource "/nsg/5" "nsg5" nsg_type "not json".

Definition storage_allow : gmap string string :=
  resource "/st/1" "store1" storage_type
    (dq "{'networkAcls': {'defaultAction': 'Allow'}}").
Definition storage_deny : gmap string string :=
  resource "/st/2" "store2" storage_type
    (dq "{'networkAcls': {'defaultAction': 'Deny'}}").

(** An exposed storage account whose [name] cell is empty. *)
Definition storage_unnamed : gmap string string :=
  resource "/st/3" "" storage_type
    (dq "{'networkAcls': {'defaultAction': 'Allow'}}").


(** Two rows declare the id [/x]. *)
Definition declared_first : gmap string string := resource "/x" "first" "vm" "".
Definition declared_last : gmap string string := resource "/x" "second" "vm" "".

(** [A] refers to the id [/b], declared by [B] and then by [C]. *)
Definition res_A : gmap string string := resource "/a" "A" "vm" "uses /b".
Definition res_B : gmap string string := resource "/b" "B" "disk" "".
Definition res_C : gmap string string := resource "/b" "C" "disk" "".

(** A security group whose first rule entry is a string, before an open
    rule. *)
Definition nsg_note_first : gmap string string :=
  resource "/nsg/6" "nsg6" nsg_type
    (dq "{'securityRules': ['note', {'properties': {'direction': 'Inbound', 'access': 'Allow', 'sourceAddressPrefix': '*'}}]}").

(** A resource that is itself named "Internet". *)
Definition internet_row : gmap string string := resource "/gw" "Internet" "gateway" "".

(** An exposed storage account [A] that mentions the id of a resource
    named "Internet". *)
Definition exposed_A : gmap string string :=
  resource "/a" "A" storage_type
    (dq "{'networkAcls': {'defaultAction': 'Allow'}, 'peer': '/b'}").
Definition internet_B : gmap string string := resource "/b" "Internet" "gateway" "".

(** The id of [A] has a space and lies across two fields of [B]. *)
Definition spaced_A : gmap string string :=
  series [("id", "/a b"); ("name", "A"); ("tags", ""); ("properties", "uses /b")].
Definition spaced_B : gmap string string :=
  series [("id", "/b"); ("name", "B"); ("tags", "see /a"); ("properties", "b")].
Definition df_spaced : DataFrame :=
  {| columns := ["id"; "name"; "tags"; "properties"]; rows := [spaced_A; spaced_B];
     object_columns := ["id"; "name"; "tags"; "properties"] |}.


(** A header without a recognised column; [A] mentions the id of [B] in
    its notes.  The columns of dtype [object] are all (pandas 2) or none
    (pandas 3). *)
Definition noted_A : gmap string string :=
  series [("id", "/a"); ("name", "A"); ("notes", "see /b")].
Definition noted_B : gmap string string :=
  series [("id", "/b"); ("name", "B"); ("notes", "")].
Definition df_notes (object_cols : list string) : DataFrame :=
  {| columns := ["id"; "name"; "notes"]; rows := [noted_A; noted_B];
     object_columns := object_cols |}.
End Examples.

(** * Further vocabulary: the build as a whole *)

(** A computation that completes. *)
Definition completes {A : Type} (r : result A) : Prop := ∃ a, r = Ok a.

(** The cell of column [key] that the node pass turns into an attribute. *)
Definition filled_cell (cols : list string) (row : gmap string string) (key : string)
  : option attr :=
  if decide (key ∈ cols) then
    match row !! key with
    | Some val => if decide (val = "") then None else Some (AStr val)
    | None => None
    end
  else None.

(** The keywords of [G.add_node(name, **attrs)] clash with its parameters. *)
Definition clashes (cols : list string) (row : gmap string string) : Prop :=
  row_item row "name" ≠ "" ∧
  (is_Some (filled_cell cols row "self") ∨
   is_Some (filled_cell cols row "node_for_adding")).

(** An exception that the [except] clause of the exposure pass catches. *)
Definition caught (e : exn) : Prop := e = JSONDecodeError ∨ e = AttributeError.

(** The exposure check of [row] raises nothing that leaves the [try]. *)
Definition tolerated `{PyLib} (row : gmap string string) : Prop :=
  ∀ e, row_exposed row = Raise e → caught e.

(** Every name that the index resolves to is a node of [G]. *)
Definition targets_present (i2n : list (string * string)) (G : DiGraph) : Prop :=
  ∀ cid tgt, dict_get cid i2n = Some tgt → tgt ≠ "" → is_Some (nodes G !! tgt).

(** The scan of [row] finds, inside one cell of a search column, an id
    that resolves to [v]. *)
Definition cell_refers (df : DataFrame) (row : gmap string string) (u v : string) : Prop :=
  row_item row "name" = u ∧ u ≠ "" ∧
  ∃ cid c, cid ∈ candidate_ids df ∧ cid ≠ row_item row "id" ∧
           c ∈ search_columns df ∧ contains cid (row_get row c "") = true ∧
           dict_get cid (id_to_name df) = Some v ∧ v ≠ "".

(** A value over which [for rule in rules] cannot iterate. *)
Definition not_iterable (v : pyval) : Prop :=
  match v with
  | PNone | PBool _ | PNum _ => True
  | _ => False
  end.

(** * The rest of the script: styles, export, injection, command line *)

(** ** [_get_node_style] (lines 159-214) *)

Definition ip_data_url : string := "https://cdn-icons-png.flaticon.com/512/6726/6726855.png".
Definition nic_data_url : string := "https://cdn-icons-png.flaticon.com/512/969/969430.png".
Definition nsg_data_url : string := "https://cdn-icons-png.flaticon.com/512/9378/9378191.png".
Definition disk_data_url : string := "https://cdn-icons-png.flaticon.com/512/2493/2493389.png".
Definition routetable_data_url : string :=
  "https://cdn-icons-png.flaticon.com/512/2923/2923498.png".
Definition internet_data_url : string :=
  "https://cdn-icons-png.flaticon.com/512/1011/1011373.png".
Definition storage_data_url : string :=
  "https://cdn-icons-png.flaticon.com/512/1975/1975643.png".
Definition default_data_url : string :=
  "https://cdn-icons-png.flaticon.com/512/15549/15549062.png".
Definition vm_data_url : string := "https://cdn-icons-png.flaticon.com/512/8036/8036436.png".
Definition extension_data_url : string :=
  "https://cdn-icons-png.flaticon.com/512/11821/11821370.png".

(** [style = {'size': 30, 'shapeProperties': {'useImageSize': False}}]; an
    int is a [PNum] with its decimal literal. *)
Definition base_style : gmap string pyval :=
  <["shapeProperties" := PDict [("useImageSize", PBool false)]]>
    (<["size" := PNum "30"]> ∅).

(** [style.update({'shape': 'image', 'image': url})] *)
Definition with_image (url : string) (style : gmap string pyval) : gmap string pyval :=
  <["image" := PStr url]> (<["shape" := PStr "image"]> style).

Section styles.
Context `{PyLib}.

(** [net_data_url], that is ['data:image/svg+xml;utf8,' + quote(net_svg)]:
    [quote] is urllib's, so the URL is taken as it is computed. *)
Context (net_data_url : string).

(** The type is a string (the annotation of the source); [node_type or '']
    is then the string itself. *)
Definition _get_node_style (node_type : string) : gmap string pyval :=
  let tlow := str_lower node_type in
  if contains "extensions" tlow then with_image extension_data_url base_style
  else if contains "internet" tlow then
    <["size" := PNum "40"]> (with_image internet_data_url base_style)
  else if contains "virtualmachine" tlow then with_image vm_data_url base_style
  else if contains "disks" tlow then with_image disk_data_url base_style
  else if contains "storageaccounts" tlow then with_image storage_data_url base_style
  else if contains "networkinterface" tlow then with_image nic_data_url base_style
  else if contains "publicipaddress" tlow then with_image ip_data_url base_style
  else if contains "networksecuritygroup" tlow then with_image nsg_data_url base_style
  else if contains "routetable" tlow then with_image routetable_data_url base_style
  else if contains "virtualnetworks" tlow then with_image net_data_url base_style
  else <["size" := PNum "25"]>
         (<["image" := PStr default_data_url]> (<["shape" := PStr "image"]> ∅)).

(** The keywords that [_get_node_style] looks for, in the order of its
    tests, each with its icon. *)
Definition style_icons : list (string * string) :=
  [("extensions", extension_data_url); ("internet", internet_data_url);
   ("virtualmachine", vm_data_url); ("disks", disk_data_url);
   ("storageaccounts", storage_data_url); ("networkinterface", nic_data_url);
   ("publicipaddress", ip_data_url); ("networksecuritygroup", nsg_data_url);
   ("routetable", routetable_data_url); ("virtualnetworks", net_data_url)].

(** The first keyword of [icons] that occurs in [tlow]. *)
Fixpoint first_keyword (tlow : string) (icons : list (string * string))
  : option (string * string) :=
  match icons with
  | [] => None
  | kv :: rest => if contains kv.1 tlow then Some kv else first_keyword tlow rest
  end.

(** ** [export_interactive] (lines 216-304) *)

Definition palette : list string :=
  ["#1f78b4"; "#33a02c"; "#e31a1c"; "#ff7f00"; "#6a3d9a"; "#b15928"].

(** [data.get('type', 'unknown')] *)
Definition node_type_of (data : gmap string attr) : attr :=
  default (AStr "unknown") (data !! "type").

(** [type_to_color.get(ntype)]; the dict is keyed by attribute values. *)
Fixpoint color_get (ntype : attr) (d : list (attr * string)) : option string :=
  match d with
  | [] => None
  | (t, c) :: d' => if decide (ntype = t) then Some c else color_get ntype d'
  end.

(** The body of the first loop (lines 244-248). *)
Definition color_step (type_to_color : list (attr * string))
    (n : string * gmap string attr) : list (attr * string) :=
  let ntype := node_type_of n.2 in
  match color_get ntype type_to_color with
  | Some _ => type_to_color
  | None =>
      type_to_color ++ [(ntype, palette !!! (length type_to_color mod length palette))]
  end.

(** [type_to_color] after the first loop over [G.nodes(data=True)], given
    as the sequence that the iteration yields. *)
Definition type_to_color (nodes_data : list (string * gmap string attr))
  : list (attr * string) :=
  foldl color_step [] nodes_data.

(** [str(v)], and [v] as a Python value, for an attribute value. *)
Definition attr_str (a : attr) : string :=
  match a with
  | AStr s => s
  | AInt z => pretty z
  end.
Definition attr_val (a : attr) : pyval :=
  match a with
  | AStr s => PStr s
  | AInt z => PNum (pretty z)
  end.

(** [if data.get(k):] on an attribute value. *)
Definition attr_truthy (a : attr) : bool :=
  match a with
  | AStr s => bool_decide (s ≠ "")
  | AInt z => bool_decide (z ≠ 0%Z)
  end.

(** [title_lines] (lines 251-256) and [title]. *)
Definition title_line (data : gmap string attr) (k : string) : option string :=
  match data !! k with
  | Some a => if attr_truthy a then Some (k +:+ ": " +:+ attr_str a) else None
  | None => None
  end.
Definition title_lines (name : string) (data : gmap string attr) : list string :=
  ("<b>" +:+ name +:+ "</b>")
    :: omap (title_line data) ["type"; "resourceGroup"; "location"; "id"].
Definition title (name : string) (data : gmap string attr) : string :=
  join "<br>" (title_lines name data).

(** The truth value of a number parsed by [json.loads] is left to the
    runtime (a float literal may underflow to zero). *)
Context (num_truthy : string → bool).

(** [if power_state:] *)
Definition py_truthy (v : pyval) : bool :=
  match v with
  | PNone => false
  | PBool b => b
  | PNum literal => num_truthy literal
  | PStr s => bool_decide (s ≠ "")
  | PList xs => bool_decide (xs ≠ [])
  | PDict items => bool_decide (items ≠ [])
  end.

(** Line 275: the chain of [get] calls down to [displayStatus]. *)
Definition power_state (props : pyval) : result pyval :=
  extended ← py_get props "extended" (PDict []);
  instance_view ← py_get extended "instanceView" (PDict []);
  state ← py_get instance_view "powerState" (PDict []);
  py_get state "displayStatus" PNone.

(** [json.loads(data.get('properties', '{}'))]: the argument must be text. *)
Definition loads_attr (a : attr) : result pyval :=
  match a with
  | AStr s => json_loads s
  | AInt _ => Raise TypeError
  end.

(** [ntype.lower()] *)
Definition attr_lower (a : attr) : result string :=
  match a with
  | AStr s => Ok (str_lower s)
  | AInt _ => Raise AttributeError
  end.

(** Lines 272-279: the dict after the [try]. *)
Definition add_power_state (data : gmap string attr) (lowered : string)
    (node_attrs : gmap string pyval) : result (gmap string pyval) :=
  if decide (lowered = "microsoft.compute/virtualmachines") then
    match loads_attr (default (AStr "{}") (data !! "properties")) ≫= power_state with
    | Ok state =>
        Ok (if py_truthy state then <["powerState" := state]> node_attrs else node_attrs)
    | Raise JSONDecodeError => Ok node_attrs
    | Raise AttributeError => Ok node_attrs
    | Raise e => Raise e
    end
  else Ok node_attrs.

(** The keywords of lines 284-290. *)
Definition ui_fields (name : string) (data : gmap string attr)
    (color : string) : gmap string pyval :=
  <["label" := PStr name]>
    (<["details" := PStr (title name data)]>
       (<["color" := PStr color]>
          (<["group" := attr_val (node_type_of data)]>
             (<["resourceGroup" := from_option attr_val PNone (data !! "resourceGroup")]> ∅)))).

(** The body of the second loop (lines 250-292): the name and the keywords
    that [net.add_node(name, **node_attrs)] receives. *)
Definition export_node (colors : list (attr * string))
    (n : string * gmap string attr) : result (string * gmap string pyval) :=
  let '(name, data) := n in
  let ntype := node_type_of data in
  let color := default "#888" (color_get ntype colors) in
  let node_attrs : gmap string pyval := (λ v, PStr (attr_str v)) <$> data in
  lowered ← attr_lower ntype;
  node_attrs ← add_power_state data lowered node_attrs;
  let node_attrs := ui_fields name data color ∪ node_attrs in
  let node_attrs := _get_node_style (attr_str ntype) ∪ node_attrs in
  Ok (name, node_attrs).

Fixpoint export_nodes (colors : list (attr * string))
    (nodes_data : list (string * gmap string attr))
  : result (list (string * gmap string pyval)) :=
  match nodes_data with
  | [] => Ok []
  | n :: rest =>
      node ← export_node colors n;
      nodes ← export_nodes colors rest;
      Ok (node :: nodes)
  end.

(** What [export_interactive] hands to pyvis: nothing without pyvis, else
    the nodes with their keywords and the edges. *)
Definition export_interactive (has_pyvis : bool)
    (nodes_data : list (string * gmap string attr)) (edges_data : list (string * string))
  : result (option (list (string * gmap string pyval) * list (string * string))) :=
  if has_pyvis then
    nodes ← export_nodes (type_to_color nodes_data) nodes_data;
    Ok (Some (nodes, edges_data))
  else Ok None.
End styles.

(** The keys that the export sets itself. *)
Definition export_keys : list string :=
  ["label"; "details"; "color"; "group"; "resourceGroup";
   "shape"; "image"; "size"; "shapeProperties"; "powerState"].

(** [v] is the entry [extended.instanceView.powerState.displayStatus] of the
    parsed properties [props]: each level is an object that has the next
    key. *)
Definition display_status (props v : pyval) : Prop :=
  ∃ top extended instance_view state,
    props = PDict top ∧
    dict_get "extended" top = Some (PDict extended) ∧
    dict_get "instanceView" extended = Some (PDict instance_view) ∧
    dict_get "powerState" instance_view = Some (PDict state) ∧
    dict_get "displayStatus" state = Some v.

(** The node is a virtual machine whose properties (the text "{}" when it
    has none) parse to a value with the display status [v]. *)
Definition vm_display_status `{PyLib} (data : gmap string attr) (v : pyval) : Prop :=
  ∃ t s props,
    default (AStr "unknown") (data !! "type") = AStr t ∧
    str_lower t = "microsoft.compute/virtualmachines" ∧
    default (AStr "{}") (data !! "properties") = AStr s ∧
    json_loads s = Ok props ∧
    display_status props v.

(** ** [_inject_interactive_controls] (lines 307-319) *)

(** [s.replace(old, new)] for a non-empty [old]: from left to right, without
    overlap; [skip] counts the characters of a match still to be passed. *)
Fixpoint replace_go (old new : string) (skip : nat) (s : string) : string :=
  match s with
  | EmptyString => EmptyString
  | String c s' =>
      match skip with
      | S k => replace_go old new k s'
      | O =>
          if startswith old s then new +:+ replace_go old new (String.length old - 1) s'
          else String c (replace_go old new 0 s')
      end
  end.

Definition py_replace (old new s : string) : string := replace_go old new 0 s.

Definition newline : string := String "010"%char EmptyString.

(** The text written back to [out_path], if any; a file that cannot be
    read is [None]. *)
Definition _inject_interactive_controls (html inject_html : option string)
  : option string :=
  match html, inject_html with
  | Some html, Some inject_html =>
      if contains "</body>" html
      then Some (py_replace "</body>" (inject_html +:+ newline +:+ "</body>") html)
      else None
  | _, _ => None
  end.

(** ** [main] (lines 322-345): the choice of the input file *)

(** [csvs] is what [azure_data_dir.glob('*.csv')] yields, [file_exists] is
    [Path.exists]; the result is the path that is loaded. *)
Definition main_csv_path (csvs : list string) (file_exists : string → bool)
    (argv : list string) : result string :=
  match csvs with
  | [] => Raise SystemExit
  | default_csv :: _ =>
      let csv_path := match argv with
                      | _ :: arg :: _ => arg
                      | _ => default_csv
                      end in
      if file_exists csv_path then Ok csv_path else Raise SystemExit
  end.

(** ** Sample data for the further properties *)

Module Samples.
Import Runtime Examples.

(** The value of a computation that completes. *)
Definition is_ok {A : Type} (r : result A) : bool :=
  match r with
  | Ok _ => true
  | Raise _ => false
  end.
Definition value_of {A : Type} (dflt : A) (r : result A) : A :=
  match r with
  | Ok a => a
  | Raise _ => dflt
  end.

(** A security group with an open rule, a closed and an open storage
    account. *)
Definition exposed_frame : DataFrame := frame [nsg_open; storage_deny; storage_allow].

(** [A] mentions the id of [B]; neither is of a type that can be exposed. *)
Definition plain_frame : DataFrame := frame [res_A; res_B].

(** The graph after the node pass. *)
Definition node_pass (df : DataFrame) : DiGraph :=
  value_of empty_graph (node_loop (columns df) (rows df) empty_graph).

(** The state after the exposure pass over two exposed rows. *)
Definition exposure_of (rws : list (gmap string string)) : DiGraph * bool :=
  value_of (empty_graph, false) (@exposure_loop ascii_json rws (empty_graph, false)).

(** A running virtual machine, as an ARM export with the instance view. *)
Definition vm_type : string := "Microsoft.Compute/virtualMachines".
Definition vm_running : gmap string string :=
  resource "/vm/9" "vm9" vm_type
    (dq "{'extended': {'instanceView': {'powerState': {'displayStatus': 'VM running'}}}}").
Definition vm_frame : DataFrame := frame [vm_running; storage_allow].

(** What the export iterates over: [G.nodes(data=True)] and [G.edges()]. *)
Definition nodes_of (G : DiGraph) : list (string * gmap string attr) :=
  map_to_list (nodes G).
Definition edges_of (G : DiGraph) : list (string * string) := elements (edges G).

Definition sample_url : string := "data:image/svg+xml;utf8,%3Csvg%3E".
Definition any_number (literal : string) : bool := true.

Definition vm_node : string * gmap string attr := ("vm9", row_attrs header vm_running).
Definition exported_vm : string * gmap string pyval :=
  value_of ("", ∅) (@export_node ascii_json sample_url any_number
                      (type_to_color [vm_node]) vm_node).
Definition exported_graph
  : list (string * gmap string pyval) * list (string * string) :=
  default ([], [])
    (value_of None (@export_interactive ascii_json sample_url any_number true
                      (nodes_of (graph_of vm_frame)) (edges_of (graph_of vm_frame)))).

(** Nodes of seven types. *)
Definition typed (t : string) : string * gmap string attr :=
  ("node " +:+ t, {[ "type" := AStr t ]}).
Definition seven_types : list (string * gmap string attr) :=
  typed <$> ["a"; "b"; "c"; "d"; "e"; "f"; "g"].
End Samples.

(** * Properties *)

(** ** Ordered dictionaries *)

Section dict_facts.
Context {V : Type}.
Implicit Types (d : list (string * V)) (k : string) (v : V).

Lemma dict_get_set_eq k v d : dict_get k (dict_set k v d) = Some v.
Proof.
  induction d as [|[k' v'] d IH]; simpl.
  - by rewrite decide_True.
  - destruct (decide (k = k')) as [->|Hne]; simpl.
    + by rewrite decide_True.
    + by rewrite decide_False.
Qed.

Lemma dict_get_set_ne k k' v d :
  k ≠ k' → dict_get k' (dict_set k v d) = dict_get k' d.
Proof.
  intros Hne. induction d as [|[k0 v0] d IH]; simpl.
  - rewrite decide_False; [done | congruence].
  - destruct (decide (k = k0)) as [->|Hk]; simpl.
    + rewrite !decide_False; [done | congruence | congruence].
    + by rewrite IH.
Qed.

Lemma dict_keys_get k d : k ∈ dict_keys d ↔ is_Some (dict_get k d).
Proof.
  unfold dict_keys. induction d as [|[k' v'] d IH]; simpl.
  - split; [by intros ?%elem_of_nil | by intros [? ?]].
  - rewrite elem_of_cons, IH. destruct (decide (k = k')) as [->|Hne].
    + split; [by eexists | by left].
    + split; [by intros [?|?] | by right].
Qed.
End dict_facts.

(** ** Identity index *)

Section index_facts.
Context {V : Type} (val : gmap string string → V).

Lemma index_of_app rws1 rws2 d :
  index_of val (rws1 ++ rws2) d = index_of val rws2 (index_of val rws1 d).
Proof. apply foldl_app. Qed.

Lemma index_of_cons r rws d :
  index_of val (r :: rws) d =
  index_of val rws (if decide (row_item r "id" = "") then d
                else dict_set (row_item r "id") (val r) d).
Proof. done. Qed.

Lemma index_of_other k rws d :
  Forall (λ r, row_item r "id" ≠ k) rws →
  dict_get k (index_of val rws d) = dict_get k d.
Proof.
  unfold index_of. revert d.
  induction rws as [|r rws IH]; intros d Hall; [done|].
  apply Forall_cons in Hall as [Hr Hall]. simpl. rewrite IH by done.
  case_decide; [done|]. by apply dict_get_set_ne.
Qed.

Lemma index_of_last pre r post d :
  row_item r "id" ≠ "" →
  Forall (λ r', row_item r' "id" ≠ row_item r "id") post →
  dict_get (row_item r "id") (index_of val (pre ++ r :: post) d) = Some (val r).
Proof.
  intros Hid Hpost. rewrite index_of_app, index_of_cons.
  rewrite decide_False by done.
  rewrite index_of_other by done. apply dict_get_set_eq.
Qed.

End index_facts.

Lemma id_to_name_of_index rws : id_to_name_of rws = index_of (λ r, row_item r "name") rws [].
Proof. done. Qed.

Lemma id_to_row_of_index rws : id_to_row_of rws = index_of (λ r, r) rws [].
Proof. done. Qed.

(** C9: when several rows declare the same non-empty id, the identity index
    maps that id to the name, and to the full row, of the row that occurs
    last in input order; building the index is a total function, so no
    error is raised. *)
Theorem C9_identity_index_last_write_wins
    (df : DataFrame) (pre post : list (gmap string string)) (r : gmap string string) :
  rows df = pre ++ r :: post →
  row_item r "id" ≠ "" →
  Forall (λ r', row_item r' "id" ≠ row_item r "id") post →
  dict_get (row_item r "id") (id_to_name df) = Some (row_item r "name") ∧
  dict_get (row_item r "id") (id_to_row df) = Some r.
Proof.
  intros Hrows Hid Hpost. unfold id_to_name, id_to_row.
  rewrite Hrows, id_to_name_of_index, id_to_row_of_index.
  split.
  - by apply (index_of_last (λ r, row_item r "name")).
  - by apply (index_of_last (λ r, r)).
Qed.

(** ** Graph operations *)

Lemma add_node_edges n a G : edges (add_node n a G) = edges G.
Proof. done. Qed.

Lemma add_node_lookup n a G n' :
  nodes (add_node n a G) !! n' =
  if decide (n = n') then Some (a ∪ default ∅ (nodes G !! n)) else nodes G !! n'.
Proof.
  unfold add_node; simpl. case_decide as Hn.
  - subst. apply lookup_insert_eq.
  - by apply lookup_insert_ne.
Qed.

Lemma add_edge_edges u v G : edges (add_edge u v G) = {[ (u, v) ]} ∪ edges G.
Proof. done. Qed.

Lemma add_edge_lookup u v G n :
  nodes (add_edge u v G) !! n =
  if decide (n = u ∨ n = v) then Some (default ∅ (nodes G !! n)) else nodes G !! n.
Proof.
  change (nodes (add_edge u v G)) with (nodes (add_node v ∅ (add_node u ∅ G))).
  rewrite !add_node_lookup.
  destruct (decide (v = n)) as [->|Hv].
  - rewrite (decide_True (P := _ ∨ _)) by auto. rewrite (left_id_L ∅ (∪)).
    case_decide; [subst; simpl; by rewrite (left_id_L ∅ (∪))|done].
  - destruct (decide (u = n)) as [->|Hu].
    + rewrite decide_True by auto. by rewrite (left_id_L ∅ (∪)).
    + rewrite decide_False; [done|]. intros [?|?]; congruence.
Qed.

Global Instance attrs_kept_refl : Reflexive attrs_kept.
Proof. by intros G n a. Qed.

Global Instance attrs_kept_trans : Transitive attrs_kept.
Proof. intros G1 G2 G3 H12 H23 n a Hn. by apply H23, H12. Qed.

Lemma add_node_empty_kept n G : attrs_kept G (add_node n ∅ G).
Proof.
  intros n' a Hn'. rewrite add_node_lookup. case_decide; [subst|done].
  by rewrite Hn', (left_id_L ∅ (∪)).
Qed.

Lemma add_edge_kept u v G : attrs_kept G (add_edge u v G).
Proof.
  intros n a Hn. rewrite add_edge_lookup, Hn. by case_decide.
Qed.

(** ** Node creation *)

Lemma node_loop_edges cols rws G G' :
  node_loop cols rws G = Ok G' → edges G' = edges G.
Proof.
  revert G. induction rws as [|row rws IH]; intros G Hloop; simpl in Hloop.
  - by inversion Hloop.
  - case_decide; [by apply IH|].
    unfold add_node_kwargs in Hloop. case_decide; [done|].
    simpl in Hloop. by rewrite (IH _ Hloop).
Qed.

Lemma merged_attrs_cons cols row rws n init :
  merged_attrs cols (row :: rws) n init =
  merged_attrs cols rws n
    (if decide (row_item row "name" = n) then row_attrs cols row ∪ init else init).
Proof. done. Qed.

Lemma merged_attrs_none cols rws n init :
  Forall (λ r, row_item r "name" ≠ n) rws → merged_attrs cols rws n init = init.
Proof.
  intros Hall. revert init.
  induction Hall as [|r rws Hr _ IH]; intros init; [done|].
  rewrite merged_attrs_cons, decide_False by done. apply IH.
Qed.

Lemma not_Exists_name (rws : list (gmap string string)) (n : string) :
  ¬ Exists (λ r, row_item r "name" = n) rws →
  Forall (λ r, row_item r "name" ≠ n) rws.
Proof.
  intros Hex. apply Forall_forall. intros r Hr Heq. apply Hex.
  apply Exists_exists. eauto.
Qed.

Lemma node_loop_lookup cols rws G G' n :
  node_loop cols rws G = Ok G' →
  nodes G' !! n =
  if decide (n ≠ "" ∧ Exists (λ r, row_item r "name" = n) rws)
  then Some (merged_attrs cols rws n (default ∅ (nodes G !! n)))
  else nodes G !! n.
Proof.
  revert G. induction rws as [|row rws IH]; intros G Hloop; simpl in Hloop.
  - inversion Hloop; subst. rewrite decide_False; [done|].
    intros [_ Hex]. by apply Exists_nil in Hex.
  - destruct (decide (row_item row "name" = "")) as [Hempty|Hname].
    + rewrite (IH _ Hloop), merged_attrs_cons.
      destruct (decide (row_item row "name" = n)) as [Hn|Hn].
      * rewrite !decide_False; [done| |]; intros [? _]; congruence.
      * apply decide_ext. rewrite Exists_cons. intuition congruence.
    + unfold add_node_kwargs in Hloop. case_decide; [done|].
      change (node_loop cols rws (add_node (row_item row "name") (row_attrs cols row) G)
              = Ok G') in Hloop.
      rewrite (IH _ Hloop), merged_attrs_cons, add_node_lookup.
      destruct (decide (row_item row "name" = n)) as [Hn|Hn].
      * subst n. rewrite (decide_True (P := _ ∧ Exists _ (_ :: _))).
        2:{ split; [done|]. by apply Exists_cons_hd. }
        case_decide as Hex; [done|]. rewrite merged_attrs_none; [done|].
        apply not_Exists_name. intros Hex'. by apply Hex.
      * apply decide_ext. rewrite Exists_cons. intuition congruence.
Qed.

Lemma node_loop_named cols rws G G' :
  node_loop cols rws G = Ok G' →
  (∀ n, is_Some (nodes G !! n) → n ≠ "") →
  ∀ n, is_Some (nodes G' !! n) → n ≠ "".
Proof.
  intros Hloop HG n. rewrite (node_loop_lookup _ _ _ _ n Hloop).
  case_decide as Hn; [by destruct Hn|]. apply HG.
Qed.

(** ** Reference inference *)

Arguments add_node : simpl never.
Arguments add_edge : simpl never.

Section reference_facts.
Context (i2n : list (string * string)) (cids cols : list string).
Implicit Types (row : gmap string string) (G : DiGraph) (u v cid : string).

Lemma scan_id_edges row src h G cid u v :
  (u, v) ∈ edges (scan_id i2n row src h G cid) ↔
  (u, v) ∈ edges G ∨ (u = src ∧ hit i2n row h cid v).
Proof.
  unfold scan_id, hit. destruct (decide (cid = row_item row "id")) as [Hown|Hown].
  { split; [by left | by intros [?|(_ & ? & _)]]. }
  destruct (contains cid h) eqn:Hin.
  2:{ split; [by left | by intros [?|(_ & _ & ? & _)]]. }
  destruct (dict_get cid i2n) as [tgt|] eqn:Hget.
  2:{ split; [by left | by intros [?|(_ & _ & _ & ? & _)]]. }
  destruct (decide (tgt = "")) as [->|Htgt].
  { split; [by left|]. intros [?|(_ & _ & _ & Heq & Hne)]; [done|].
    by inversion Heq; subst. }
  rewrite add_edge_edges, add_node_edges, elem_of_union, elem_of_singleton.
  split.
  - intros [Heq|?]; [|by left]. inversion Heq; subst. by right.
  - intros [?|(-> & _ & _ & Heq & _)]; [by right|]. left. congruence.
Qed.

Lemma scan_ids_edges row src h ids G u v :
  (u, v) ∈ edges (foldl (scan_id i2n row src h) G ids) ↔
  (u, v) ∈ edges G ∨ (u = src ∧ ∃ cid, cid ∈ ids ∧ hit i2n row h cid v).
Proof.
  revert G. induction ids as [|cid ids IH]; intros G; simpl.
  - split; [by left|]. intros [?|(_ & ? & []%elem_of_nil & _)]; done.
  - rewrite IH, scan_id_edges. split.
    + intros [[?|[-> Hhit]]|(-> & cid' & Hin & Hhit)].
      * by left.
      * right. split; [done|]. exists cid. split; [by left|done].
      * right. split; [done|]. exists cid'. split; [by right|done].
    + intros [?|(-> & cid' & [->|Hin]%elem_of_cons & Hhit)].
      * by left; left.
      * by left; right.
      * right. split; [done|]. by exists cid'.
Qed.

Lemma scan_row_edges G row u v :
  (u, v) ∈ edges (scan_row i2n cids cols G row) ↔
  (u, v) ∈ edges G ∨ refers i2n cids cols row u v.
Proof.
  unfold scan_row, refers. case_decide as Hname.
  - split; [by left|]. intros [?|(<- & ? & _)]; done.
  - rewrite scan_ids_edges. split.
    + intros [?|(-> & ?)]; [by left|by right].
    + intros [?|(<- & _ & ?)]; [by left|by right].
Qed.

Lemma reference_loop_edges rws G u v :
  (u, v) ∈ edges (reference_loop i2n cids cols rws G) ↔
  (u, v) ∈ edges G ∨ ∃ row, row ∈ rws ∧ refers i2n cids cols row u v.
Proof.
  unfold reference_loop. revert G.
  induction rws as [|row rws IH]; intros G; simpl.
  - split; [by left|]. intros [?|(? & []%elem_of_nil & _)]; done.
  - rewrite IH, scan_row_edges. split.
    + intros [[?|?]|(row' & ? & ?)].
      * by left.
      * right. exists row. split; [by left|done].
      * right. exists row'. split; [by right|done].
    + intros [?|(row' & [->|?]%elem_of_cons & ?)].
      * by left; left.
      * by left; right.
      * right. by exists row'.
Qed.

Lemma scan_safe_refl G : scan_safe G G.
Proof. by split. Qed.

Lemma scan_safe_trans G1 G2 G3 : scan_safe G1 G2 → scan_safe G2 G3 → scan_safe G1 G3.
Proof. intros [? ?] [? ?]. split; [by etrans | auto]. Qed.

Lemma scan_id_safe row src h G cid : src ≠ "" → scan_safe G (scan_id i2n row src h G cid).
Proof.
  intros Hsrc. unfold scan_id.
  repeat (case_decide || case_match); try apply scan_safe_refl.
  split.
  - etrans; [apply add_node_empty_kept | apply add_edge_kept].
  - intros HG n. rewrite add_edge_lookup, add_node_lookup.
    destruct (decide (n = src ∨ n = _)) as [[->| ->]|Hn]; [done..|].
    rewrite decide_False by (intros ->; apply Hn; by right). apply HG.
Qed.

Lemma scan_row_safe G row : scan_safe G (scan_row i2n cids cols G row).
Proof.
  unfold scan_row. case_decide as Hname; [apply scan_safe_refl|].
  generalize (hay cols row). intros h. revert G.
  induction cids as [|cid ids IH]; intros G; simpl; [apply scan_safe_refl|].
  eapply scan_safe_trans; [by apply scan_id_safe | apply IH].
Qed.

Lemma reference_loop_safe rws G : scan_safe G (reference_loop i2n cids cols rws G).
Proof.
  unfold reference_loop. revert G.
  induction rws as [|row rws IH]; intros G; simpl; [apply scan_safe_refl|].
  eapply scan_safe_trans; [apply scan_row_safe | apply IH].
Qed.
End reference_facts.

(** ** Exposure detection *)

Section exposure_facts.
Context `{PyLib}.
Implicit Types (row : gmap string string) (G : DiGraph) (st : DiGraph * bool).

Lemma exposure_step_exposed st row :
  row_exposed row = Ok true →
  exposure_step st row = Ok (expose (row_item row "name") st).
Proof. intros Hex. unfold exposure_step. by rewrite Hex. Qed.

Lemma exposure_step_skip st row st' :
  row_exposed row ≠ Ok true → exposure_step st row = Ok st' → st' = st.
Proof.
  intros Hex. unfold exposure_step.
  destruct (row_exposed row) as [[]|[]]; try done; by intros [= ->].
Qed.

Lemma exposure_loop_cons row rws st :
  exposure_loop (row :: rws) st = exposure_step st row ≫= exposure_loop rws.
Proof. done. Qed.

Lemma exposure_loop_closed rws G has G' has' :
  exposure_loop rws (G, has) = Ok (G', has') →
  if decide (exposed_rows rws = []) then G' = G ∧ has' = has
  else has' = true ∧
       G' = link_exposed
              (if has then G else add_node internet_node_name internet_attrs G)
              (exposed_rows rws).
Proof.
  revert G has. induction rws as [|row rws IH]; intros G has Hloop.
  - inversion Hloop; subst. by rewrite decide_True.
  - rewrite exposure_loop_cons in Hloop. unfold exposed_rows in *.
    destruct (decide (row_exposed row = Ok true)) as [Hex|Hex].
    + rewrite exposure_step_exposed in Hloop by done.
      rewrite filter_cons_True by done. rewrite decide_False by done.
      apply IH in Hloop. case_decide as Hnil.
      * destruct Hloop as [-> ->]. by rewrite Hnil.
      * destruct Hloop as [-> ->]. done.
    + rewrite filter_cons_False by done.
      destruct (exposure_step (G, has) row) as [st'|e] eqn:Hstep; [|done].
      apply exposure_step_skip in Hstep as ->; [|done]. by apply IH.
Qed.

Lemma link_exposed_edges G rws u v :
  (u, v) ∈ edges (link_exposed G rws) ↔
  (u, v) ∈ edges G ∨
  (u = internet_node_name ∧ ∃ r, r ∈ rws ∧ row_item r "name" = v).
Proof.
  unfold link_exposed. revert G.
  induction rws as [|row rws IH]; intros G; simpl.
  - split; [by left|]. intros [?|(_ & ? & []%elem_of_nil & _)]; done.
  - rewrite IH, add_edge_edges, elem_of_union, elem_of_singleton. split.
    + intros [[[= -> ->]|?]|(-> & r & ? & ?)].
      * right. split; [done|]. exists row. split; [by left|done].
      * by left.
      * right. split; [done|]. exists r. split; [by right|done].
    + intros [?|(-> & r & [->|?]%elem_of_cons & <-)].
      * by left; right.
      * by left; left.
      * right. split; [done|]. by exists r.
Qed.

Lemma link_exposed_kept G rws : attrs_kept G (link_exposed G rws).
Proof.
  unfold link_exposed. revert G.
  induction rws as [|row rws IH]; intros G; simpl; [done|].
  etrans; [apply add_edge_kept | apply IH].
Qed.
End exposure_facts.

(** ** The whole build *)

Lemma filter_key_absent {V} (l : list (string * V)) (n : string) :
  n ∉ l.*1 → filter (λ kv, kv.1 = n) l = [].
Proof.
  induction l as [|[k a] l IH]; intros Hn; [done|].
  rewrite fmap_cons, not_elem_of_cons in Hn. destruct Hn as [Hk Hn].
  rewrite filter_cons_False by (simpl in *; congruence). by apply IH.
Qed.

Lemma filter_key_count {V} (l : list (string * V)) (n : string) :
  NoDup l.*1 →
  length (filter (λ kv, kv.1 = n) l) = if decide (n ∈ l.*1) then 1 else 0.
Proof.
  induction l as [|[k a] l IH]; intros Hnd.
  - rewrite decide_False; [done|]. by intros ?%elem_of_nil.
  - rewrite fmap_cons in Hnd. apply NoDup_cons in Hnd as [Hk Hnd].
    destruct (decide (k = n)) as [->|Hne].
    + rewrite filter_cons_True by done. rewrite filter_key_absent by done.
      rewrite decide_True; [done|]. by left.
    + rewrite filter_cons_False by done. rewrite IH by done.
      apply decide_ext. rewrite fmap_cons, elem_of_cons. simpl. intuition congruence.
Qed.

Lemma node_count_lookup G n :
  node_count G n = if nodes G !! n is Some _ then 1 else 0.
Proof.
  unfold node_count. rewrite filter_key_count by apply NoDup_fst_map_to_list.
  destruct (nodes G !! n) as [a|] eqn:Hn.
  - rewrite decide_True; [done|]. apply list_elem_of_fmap.
    exists (n, a). split; [done|]. by apply elem_of_map_to_list.
  - rewrite decide_False; [done|]. intros ([k a] & -> & Hin)%list_elem_of_fmap.
    apply elem_of_map_to_list in Hin. simpl in *. congruence.
Qed.

Section build_facts.
Context `{PyLib}.

Lemma reference_graph_inv df Gr :
  reference_graph df = Ok Gr →
  (∀ u v, (u, v) ∈ edges Gr ↔
          ∃ row, row ∈ rows df ∧
                 refers (id_to_name df) (candidate_ids df) (search_columns df) row u v) ∧
  (∀ n, n ≠ "" → Exists (λ r, row_item r "name" = n) (rows df) →
        nodes Gr !! n = Some (merged_attrs (columns df) (rows df) n ∅)) ∧
  (∀ n, is_Some (nodes Gr !! n) → n ≠ "").
Proof.
  unfold reference_graph. intros Href.
  destruct (node_loop (columns df) (rows df) empty_graph) as [Gn|] eqn:Hloop; [|done].
  injection Href as <-.
  destruct (reference_loop_safe (id_to_name df) (candidate_ids df)
              (search_columns df) (rows df) Gn) as [Hkept Hnamed].
  split_and!.
  - intros u v. rewrite reference_loop_edges, (node_loop_edges _ _ _ _ Hloop).
    split; [intros [[]%elem_of_empty|?]; done | by right].
  - intros n Hn Hex. apply Hkept.
    by rewrite (node_loop_lookup _ _ _ _ n Hloop), decide_True by done.
  - apply Hnamed. apply (node_loop_named _ _ _ _ Hloop).
    by intros n [a Ha].
Qed.

Lemma build_columns df G :
  build_graph_from_csv df = Ok G → "id" ∈ columns df ∧ "name" ∈ columns df.
Proof. unfold build_graph_from_csv. by case_decide. Qed.

(** The final graph is the reference graph when no row is exposed;
    otherwise the Internet node is added to the reference graph, once, and
    then one edge per exposed row. *)
Lemma build_closed df G :
  build_graph_from_csv df = Ok G →
  ∃ Gr, reference_graph df = Ok Gr ∧
        exposure_loop (rows df) (Gr, false)
          = Ok (G, bool_decide (exposed_rows (rows df) ≠ [])) ∧
        G = if decide (exposed_rows (rows df) = []) then Gr
            else link_exposed (add_node internet_node_name internet_attrs Gr)
                   (exposed_rows (rows df)).
Proof.
  unfold build_graph_from_csv. case_decide; [|done].
  destruct (reference_graph df) as [Gr|] eqn:Href; [|done]. simpl.
  destruct (exposure_loop (rows df) (Gr, false)) as [[G' has]|] eqn:Hloop; [|done].
  simpl. intros [= ->]. exists Gr. split; [done|].
  pose proof (exposure_loop_closed _ _ _ _ _ Hloop) as Hclosed.
  case_decide as Hnil.
  - destruct Hclosed as [-> ->]. split; [|done].
    by rewrite bool_decide_eq_false_2 by (by intros ?).
  - destruct Hclosed as [-> Hclosed]. split; [|done].
    by rewrite bool_decide_eq_true_2.
Qed.
(** The edges of the result: the reference edges, and one edge from the
    Internet node per exposed row. *)
Lemma build_edges df G u v :
  build_graph_from_csv df = Ok G →
  (u, v) ∈ edges G ↔
  (∃ row, row ∈ rows df ∧
          refers (id_to_name df) (candidate_ids df) (search_columns df) row u v) ∨
  (u = internet_node_name ∧
   ∃ r, r ∈ rows df ∧ row_exposed r = Ok true ∧ row_item r "name" = v).
Proof.
  intros Hbuild.
  destruct (build_closed _ _ Hbuild) as (Gr & Href & _ & ->).
  destruct (reference_graph_inv _ _ Href) as (Hedges & _ & _).
  assert (∀ r, r ∈ exposed_rows (rows df) ↔ r ∈ rows df ∧ row_exposed r = Ok true)
    as Hfilter.
  { intros r. unfold exposed_rows. rewrite list_elem_of_filter. tauto. }
  case_decide as Hnil.
  - rewrite Hedges. split; [by left|]. intros [?|(_ & r & Hr & Hex & _)]; [done|].
    assert (r ∈ exposed_rows (rows df)) as Hin by (by apply Hfilter).
    rewrite Hnil in Hin. by apply elem_of_nil in Hin.
  - rewrite link_exposed_edges, add_node_edges, Hedges. split.
    + intros [?|(-> & r & [Hr Hex]%Hfilter & Hname)]; [by left|].
      right. split; [done|]. by exists r.
    + intros [?|(-> & r & Hr & Hex & Hname)]; [by left|].
      right. split; [done|]. exists r. split; [by apply Hfilter|done].
Qed.

(** When no row is named "Internet" and [row] alone bears its name, the
    edge from the Internet node to that name is there exactly when [row] is
    exposed. *)
Lemma internet_edge_alone df G row :
  build_graph_from_csv df = Ok G →
  row ∈ rows df →
  (∀ r, r ∈ rows df → row_item r "name" = row_item row "name" → r = row) →
  (∀ r, r ∈ rows df → row_item r "name" ≠ internet_node_name) →
  (internet_node_name, row_item row "name") ∈ edges G ↔ row_exposed row = Ok true.
Proof.
  intros Hbuild Hrow Halone Hinternet. rewrite (build_edges _ _ _ _ Hbuild). split.
  - intros [(r & Hr & Hname & _)|(_ & r & Hr & Hex & Hname)].
    + by destruct (Hinternet r Hr).
    + by rewrite <-(Halone r Hr Hname).
  - intros Hex. right. split; [done|]. by exists row.
Qed.
End build_facts.

(** ** C2: node attributes *)

Lemma merged_attrs_same cols rws n a init :
  (∀ r, r ∈ rws → row_item r "name" = n → row_attrs cols r = a) →
  merged_attrs cols rws n init =
  if decide (Exists (λ r, row_item r "name" = n) rws) then a ∪ init else init.
Proof.
  revert init. induction rws as [|r rws IH]; intros init Hsame.
  - rewrite decide_False; [done|]. by intros ?%Exists_nil.
  - rewrite merged_attrs_cons, IH.
    2:{ intros r' Hr'. apply Hsame. by right. }
    destruct (decide (row_item r "name" = n)) as [Hn|Hn].
    + rewrite (Hsame r) by (done || by left).
      rewrite (decide_True (P := Exists _ (_ :: _))) by (by apply Exists_cons_hd).
      case_decide; [|done]. by rewrite (assoc_L (∪)), (idemp_L (∪)).
    + apply decide_ext. rewrite Exists_cons. intuition congruence.
Qed.

Section node_attributes.
Context `{PyLib}.

(** The node of a row's name: its attribute dict is the merge of the rows
    bearing the name, updated with the attributes of the Internet node when
    the name is "Internet" and some row is exposed. *)
Lemma node_attributes_lookup (df : DataFrame) (G : DiGraph) (row : gmap string string) :
  build_graph_from_csv df = Ok G →
  row ∈ rows df →
  row_item row "name" ≠ "" →
  nodes G !! row_item row "name" =
    Some (if decide (row_item row "name" = internet_node_name ∧
                     exposed_rows (rows df) ≠ [])
          then internet_attrs ∪ merged_attrs (columns df) (rows df) (row_item row "name") ∅
          else merged_attrs (columns df) (rows df) (row_item row "name") ∅).
Proof.
  intros Hbuild Hrow Hname.
  assert (Exists (λ r, row_item r "name" = row_item row "name") (rows df)) as Hex.
  { apply Exists_exists. by exists row. }
  destruct (build_closed _ _ Hbuild) as (Gr & Href & _ & HG).
  destruct (reference_graph_inv _ _ Href) as (_ & Hnodes & _).
  specialize (Hnodes _ Hname Hex).
  case_decide as Hnil.
  - subst G. rewrite decide_False; [done|]. by intros [_ ?].
  - subst G. apply link_exposed_kept. rewrite add_node_lookup.
    destruct (decide (internet_node_name = row_item row "name")) as [Heq|Hne].
    + rewrite decide_True by done. by rewrite Heq, Hnodes.
    + rewrite decide_False; [done|]. intros [? _]. congruence.
Qed.

End node_attributes.

(** ** C1: exposure of network security groups *)

Section nsg_rules.
Context `{PyLib}.

Lemma rule_open_true (rule : pyval) : rule_open rule = Ok true ↔ open_rule rule.
Proof.
  unfold rule_open, open_rule. split.
  - destruct rule as [| | | | |items]; try done. simpl.
    destruct (default (PDict []) (dict_get "properties" items))
      as [| | | | |rule_props] eqn:Hprops; try done. simpl.
    destruct (default (PStr "") (dict_get "direction" rule_props))
      as [| | |d| |] eqn:Hd; try done. simpl.
    case_decide as Hinbound; [|done].
    destruct (default (PStr "") (dict_get "access" rule_props))
      as [| | |a| |] eqn:Ha; try done. simpl.
    case_decide as Hallow; [|done].
    destruct (default (PStr "") (dict_get "sourceAddressPrefix" rule_props))
      as [| | |s| |] eqn:Hs; try done. simpl.
    intros [= Hsrc%bool_decide_eq_true_1].
    by exists items, rule_props, d, a, s.
  - intros (items & rule_props & d & a & s & -> & Hprops & Hd & Hdl & Ha & Hal & Hs & Hsl).
    simpl. rewrite Hprops. simpl. rewrite Hd. simpl.
    rewrite decide_True by done. rewrite Ha. simpl.
    rewrite decide_True by done. rewrite Hs. simpl.
    by rewrite bool_decide_eq_true_2.
Qed.

Lemma any_rule_open_true (rules : list pyval) :
  any_rule_open rules = Ok true ↔
  ∃ before rule after, rules = before ++ rule :: after ∧
    Forall (λ r, rule_open r = Ok false) before ∧ rule_open rule = Ok true.
Proof.
  induction rules as [|r rules IH]; simpl.
  - split; [done|]. intros (before & ? & ? & Heq & _). by destruct before.
  - destruct (rule_open r) as [[]|e] eqn:Hr; simpl.
    + split; [|done]. intros _. by exists [], r, rules.
    + rewrite IH. split.
      * intros (before & rule & after & -> & Hbefore & Hrule).
        exists (r :: before), rule, after. split_and!; [done| |done].
        by apply Forall_cons.
      * intros (before & rule & after & Heq & Hbefore & Hrule).
        destruct before as [|r' before]; simplify_eq/=; [congruence|].
        apply Forall_cons in Hbefore as [_ Hbefore].
        by exists before, rule, after.
    + split; [done|]. intros (before & rule & after & Heq & Hbefore & Hrule).
      destruct before as [|r' before]; simplify_eq/=; [congruence|].
      apply Forall_cons in Hbefore as [Hr' _]. congruence.
Qed.

Lemma nsg_is_exposed (properties_str : string) :
  is_exposed "microsoft.network/networksecuritygroups" properties_str = Ok true ↔
  nsg_exposed properties_str.
Proof.
  unfold is_exposed, nsg_exposed. split.
  - destruct (json_loads properties_str) as [properties|] eqn:Hload; [|done]. simpl.
    destruct (py_get properties "securityRules" (PList [])) as [rules|] eqn:Hget; [|done].
    simpl. destruct (py_iter rules) as [rs|] eqn:Hiter; [|done]. simpl.
    intros (before & rule & after & -> & Hbefore & Hrule%rule_open_true)%any_rule_open_true.
    by exists properties, rules, before, rule, after.
  - intros (properties & rules & before & rule & after & -> & Hget & Hiter & Hbefore & Hrule).
    simpl. rewrite Hget. simpl. rewrite Hiter. simpl.
    apply any_rule_open_true. exists before, rule, after.
    split_and!; [done..|]. by apply rule_open_true.
Qed.
End nsg_rules.

Section exposure_rules.
Context `{PyLib}.
Implicit Types (row : gmap string string) (st : DiGraph * bool).

Lemma expose_edge (node_name : string) st :
  (internet_node_name, node_name) ∈ edges (expose node_name st).1.
Proof.
  destruct st as [G has]. unfold expose. simpl.
  apply elem_of_union_l. by apply elem_of_singleton.
Qed.

(** C1 (amended): for a row whose [type] lower-cases to the type of network
    security groups, the exposure pass adds the edge from the Internet node
    to the row's name if and only if the parsed [properties] is a dict
    whose [securityRules] has an entry whose own [properties] dict has
    [direction] "inbound", [access] "allow" and [sourceAddressPrefix] one
    of "*", "internet", "0.0.0.0/0" (all lower-cased), every entry before
    it being evaluated without error as not open.  Otherwise the pass
    leaves the graph as it is, or the build is aborted.  In the graph of a
    successful build the edge is there if the row is so exposed, and only
    if it is when the row alone bears its name and no row is named
    "Internet". *)
Theorem C1_nsg_exposure_nested_rule row st :
  str_lower (row_get row "type" "") = "microsoft.network/networksecuritygroups" →
  (nsg_exposed (row_get row "properties" "{}") →
     exposure_step st row = Ok (expose (row_item row "name") st) ∧
     (internet_node_name, row_item row "name")
       ∈ edges (expose (row_item row "name") st).1) ∧
  (¬ nsg_exposed (row_get row "properties" "{}") →
     exposure_step st row = Ok st ∨ ∃ e, exposure_step st row = Raise e) ∧
  (∀ df G,
     build_graph_from_csv df = Ok G → row ∈ rows df →
     (nsg_exposed (row_get row "properties" "{}") →
        (internet_node_name, row_item row "name") ∈ edges G) ∧
     ((∀ r, r ∈ rows df → row_item r "name" = row_item row "name" → r = row) →
      (∀ r, r ∈ rows df → row_item r "name" ≠ internet_node_name) →
      (internet_node_name, row_item row "name") ∈ edges G →
      nsg_exposed (row_get row "properties" "{}"))).
Proof.
  intros Htype.
  assert (row_exposed row = Ok true ↔ nsg_exposed (row_get row "properties" "{}"))
    as Hiff.
  { unfold row_exposed. rewrite Htype. apply nsg_is_exposed. }
  split_and!.
  - intros Hex%Hiff. split; [by apply exposure_step_exposed | apply expose_edge].
  - intros Hnot. unfold exposure_step.
    destruct (row_exposed row) as [[]|e] eqn:Hrow.
    + destruct Hnot. by apply Hiff.
    + by left.
    + destruct e; (by left) || (right; by eexists).
  - intros df G Hbuild Hrow. split.
    + intros Hex%Hiff. apply (build_edges _ _ _ _ Hbuild). right.
      split; [done|]. by exists row.
    + intros Halone Hinternet Hedge. apply Hiff.
      by apply (internet_edge_alone df G).
Qed.

Lemma storage_is_exposed (properties_str : string) (properties : pyval) :
  json_loads properties_str = Ok properties →
  (storage_allows properties →
     is_exposed "microsoft.storage/storageaccounts" properties_str = Ok true) ∧
  (¬ storage_allows properties →
     is_exposed "microsoft.storage/storageaccounts" properties_str = Ok false ∨
     is_exposed "microsoft.storage/storageaccounts" properties_str = Raise AttributeError).
Proof.
  intros Hload. unfold is_exposed, storage_allows. rewrite Hload. simpl. split.
  - intros (items & acls & action & -> & Hacls & Haction & Hallow).
    simpl. rewrite Hacls. simpl. rewrite Haction. simpl.
    by rewrite bool_decide_eq_true_2.
  - intros Hnot. destruct properties as [| | | | |items]; try by right. simpl.
    destruct (default (PDict []) (dict_get "networkAcls" items))
      as [| | | | |acls] eqn:Hacls; try by right. simpl.
    destruct (default (PStr "") (dict_get "defaultAction" acls))
      as [| | |action| |] eqn:Haction; try by right. simpl.
    left. rewrite bool_decide_eq_false_2; [done|].
    intros Hallow. apply Hnot. by exists items, acls, action.
Qed.

Lemma storage_exposed_allows (properties_str : string) (properties : pyval) :
  json_loads properties_str = Ok properties →
  is_exposed "microsoft.storage/storageaccounts" properties_str = Ok true →
  storage_allows properties.
Proof.
  intros Hload. unfold is_exposed, storage_allows. rewrite Hload. simpl.
  destruct properties as [| | | | |items]; try done. simpl.
  destruct (default (PDict []) (dict_get "networkAcls" items))
    as [| | | | |acls] eqn:Hacls; try done. simpl.
  destruct (default (PStr "") (dict_get "defaultAction" acls))
    as [| | |action| |] eqn:Haction; try done. simpl.
  intros [= Hallow%bool_decide_eq_true_1]. by exists items, acls, action.
Qed.

(** C4: for a row whose [type] lower-cases to the type of storage accounts
    and whose [properties] parses, the exposure pass adds the edge from the
    Internet node to the row's name if and only if
    [properties.networkAcls.defaultAction], lower-cased, is "allow"; in
    every other case the pass leaves the graph as it is.  In the graph of a
    successful build the edge is there if the action allows, and only if it
    does when the row alone bears its name and no row is named "Internet". *)
Theorem C4_storage_exposure row (properties : pyval) st :
  str_lower (row_get row "type" "") = "microsoft.storage/storageaccounts" →
  json_loads (row_get row "properties" "{}") = Ok properties →
  (storage_allows properties →
     exposure_step st row = Ok (expose (row_item row "name") st) ∧
     (internet_node_name, row_item row "name")
       ∈ edges (expose (row_item row "name") st).1) ∧
  (¬ storage_allows properties → exposure_step st row = Ok st) ∧
  (∀ df G,
     build_graph_from_csv df = Ok G → row ∈ rows df →
     (storage_allows properties →
        (internet_node_name, row_item row "name") ∈ edges G) ∧
     ((∀ r, r ∈ rows df → row_item r "name" = row_item row "name" → r = row) →
      (∀ r, r ∈ rows df → row_item r "name" ≠ internet_node_name) →
      (internet_node_name, row_item row "name") ∈ edges G →
      storage_allows properties)).
Proof.
  intros Htype Hload.
  destruct (storage_is_exposed _ _ Hload) as [Hyes Hno].
  assert (row_exposed row = Ok true ↔ storage_allows properties) as Hiff.
  { unfold row_exposed. rewrite Htype. split; [|done].
    by apply storage_exposed_allows. }
  split_and!.
  - intros Hex%Hiff. split; [by apply exposure_step_exposed | apply expose_edge].
  - intros [Hex|Hex]%Hno; unfold exposure_step, row_exposed; by rewrite Htype, Hex.
  - intros df G Hbuild Hrow. split.
    + intros Hex%Hiff. apply (build_edges _ _ _ _ Hbuild). right.
      split; [done|]. by exists row.
    + intros Halone Hinternet Hedge. apply Hiff.
      by apply (internet_edge_alone df G).
Qed.

Lemma exposure_loop_skipped (rws : list (gmap string string)) st :
  Forall (λ r, ∀ st, exposure_step st r = Ok st) rws → exposure_loop rws st = Ok st.
Proof.
  induction 1 as [|r rws Hr _ IH]; [done|]. simpl. by rewrite Hr.
Qed.

(** C5: a row whose [properties] is not parseable is passed over by the
    exposure pass: its step completes and leaves the graph and the flag as
    they are, so the pass over the rows gives what it gives without that
    row; a data frame with the two columns whose rows are all such rows
    builds its reference graph. *)
Theorem C5_unparseable_properties_skipped row :
  json_loads (row_get row "properties" "{}") = Raise JSONDecodeError →
  (∀ st, exposure_step st row = Ok st) ∧
  (∀ before after st,
     exposure_loop (before ++ row :: after) st = exposure_loop (before ++ after) st) ∧
  (∀ df Gr,
     "id" ∈ columns df → "name" ∈ columns df →
     reference_graph df = Ok Gr →
     Forall (λ r, json_loads (row_get r "properties" "{}") = Raise JSONDecodeError)
       (rows df) →
     build_graph_from_csv df = Ok Gr).
Proof.
  assert (∀ r, json_loads (row_get r "properties" "{}") = Raise JSONDecodeError →
               ∀ st, exposure_step st r = Ok st) as Hskip.
  { intros r Hload st. unfold exposure_step, row_exposed, is_exposed. by rewrite Hload. }
  intros Hload. pose proof (Hskip row Hload) as Hstep.
  split_and!.
  - done.
  - intros before after. induction before as [|r before IH]; intros st.
    + simpl. by rewrite Hstep.
    + simpl. destruct (exposure_step st r) as [st'|e]; [|done]. simpl. apply IH.
  - intros df Gr Hid Hname Href Hall. unfold build_graph_from_csv.
    rewrite decide_True by done. rewrite Href. simpl.
    rewrite exposure_loop_skipped; [done|].
    eapply Forall_impl; [exact Hall|]. intros r Hr. by apply Hskip.
Qed.
End exposure_rules.

(** ** Substrings and the haystack *)

Lemma startswith_app (x s t : string) :
  startswith x s = true → startswith x (s +:+ t) = true.
Proof.
  revert s. induction x as [|a x IH]; intros s; [done|].
  destruct s as [|b s]; [done|]. simpl. case_decide; [apply IH|done].
Qed.

Lemma contains_app_l (x s t : string) :
  contains x s = true → contains x (s +:+ t) = true.
Proof.
  induction s as [|b s IH]; simpl.
  - rewrite orb_false_r. intros Hx. destruct x; [|done]. by destruct t.
  - intros [Hx|Hx]%orb_true_iff; apply orb_true_iff.
    + left. by apply (startswith_app x (String b s) t).
    + right. by apply IH.
Qed.

Lemma contains_app_r (x s t : string) :
  contains x t = true → contains x (s +:+ t) = true.
Proof.
  intros Hx. induction s as [|b s IH]; [done|].
  simpl. apply orb_true_iff. by right.
Qed.

Lemma contains_join (x sep : string) (parts : list string) (p : string) :
  p ∈ parts → contains x p = true → contains x (join sep parts) = true.
Proof.
  intros Hin Hx. induction parts as [|q parts IH]; [by apply elem_of_nil in Hin|].
  apply elem_of_cons in Hin as [->|Hin].
  - destruct parts; [done|]. by apply contains_app_l.
  - destruct parts as [|q' parts]; [by apply elem_of_nil in Hin|].
    change (contains x (q +:+ sep +:+ join sep (q' :: parts)) = true).
    apply contains_app_r, contains_app_r. by apply IH.
Qed.

Lemma contains_hay (x c : string) (cols : list string) (row : gmap string string) :
  c ∈ cols → contains x (row_get row c "") = true → contains x (hay cols row) = true.
Proof.
  intros Hc Hx. unfold hay. apply (contains_join _ _ _ (row_get row c "")); [|done].
  apply list_elem_of_fmap. by exists c.
Qed.

Lemma search_columns_reference (df : DataFrame) (c : string) :
  c ∈ reference_columns → c ∈ columns df → c ∈ search_columns df.
Proof.
  intros Href Hcol. unfold search_columns.
  assert (c ∈ filter (λ c, c ∈ reference_columns) (columns df)) as Hin.
  { by apply list_elem_of_filter. }
  destruct (filter _ (columns df)); [by apply elem_of_nil in Hin|done].
Qed.

(** ** C8 and C10: reference edges *)

Section reference_edges.
Context `{PyLib}.


(** C10 (amended): let A and B be rows with distinct non-empty ids and
    names such that the identity index resolves B's id to B's name (B is
    the last row that declares it), in a successful build.  If A's
    [properties] field contains B's id, the graph has the edge from A to B.
    If moreover B is the only row with its name, A's id is the only id
    that resolves to A's name, and B is not named "Internet", the graph has
    the edge from B to A only if B's haystack contains A's id. *)
Theorem C10_reference_edge_direction (df : DataFrame) (G : DiGraph)
    (A B : gmap string string) :
  build_graph_from_csv df = Ok G →
  A ∈ rows df → B ∈ rows df →
  row_item A "id" ≠ "" → row_item B "id" ≠ "" →
  row_item A "name" ≠ "" → row_item B "name" ≠ "" →
  row_item A "id" ≠ row_item B "id" →
  row_item A "name" ≠ row_item B "name" →
  dict_get (row_item B "id") (id_to_name df) = Some (row_item B "name") →
  "properties" ∈ columns df →
  contains (row_item B "id") (row_get A "properties" "") = true →
  (row_item A "name", row_item B "name") ∈ edges G ∧
  ((∀ r, r ∈ rows df → row_item r "name" = row_item B "name" → r = B) →
   (∀ cid, dict_get cid (id_to_name df) = Some (row_item A "name") →
           cid = row_item A "id") →
   row_item B "name" ≠ internet_node_name →
   (row_item B "name", row_item A "name") ∈ edges G →
   contains (row_item A "id") (hay (search_columns df) B) = true).
Proof.
  intros Hbuild HA HB HidA HidB HnA HnB Hids Hnames Hindex Hcol Hin.
  split.
  - apply (build_edges _ _ _ _ Hbuild). left. exists A. split; [done|].
    split_and!; [done..|]. exists (row_item B "id"). split.
    + apply dict_keys_get. unfold candidate_ids. by rewrite Hindex.
    + split_and!; [congruence| |done..].
      apply (contains_hay _ "properties"); [|done].
      apply search_columns_reference; [|done].
      unfold reference_columns. apply elem_of_cons. by left.
  - intros HonlyB HonlyA Hinternet Hedge.
    apply (build_edges _ _ _ _ Hbuild) in Hedge as [Hedge|[? _]]; [|done].
    destruct Hedge as (r & Hr & Hname & _ & cid & _ & _ & Hhay & Hget & _).
    rewrite (HonlyB r Hr Hname) in Hhay. by rewrite <-(HonlyA cid Hget).
Qed.
End reference_edges.

(** ** C7: the Internet node *)

Section internet_node.
Context `{PyLib}.

Lemma exposure_loop_app rws1 rws2 st :
  exposure_loop (rws1 ++ rws2) st = exposure_loop rws1 st ≫= exposure_loop rws2.
Proof.
  revert st. induction rws1 as [|row rws1 IH]; intros st; [done|].
  simpl. destruct (exposure_step st row) as [st'|e]; [|done]. simpl. apply IH.
Qed.

(** C7: a built graph has at most one node named "Internet".  The pass
    over the rows turns the reference graph into the result by adding the
    Internet node with [type], [group] and [size] once, at the first
    exposed row (the flag is unset up to that row and set from it on),
    and then only edges, one per exposed row; with no exposed row the
    result is the reference graph. *)
Theorem C7_single_internet_node (df : DataFrame) (G : DiGraph) :
  build_graph_from_csv df = Ok G →
  node_count G internet_node_name ≤ 1 ∧
  ∃ Gr, reference_graph df = Ok Gr ∧
    exposure_loop (rows df) (Gr, false)
      = Ok (G, bool_decide (exposed_rows (rows df) ≠ [])) ∧
    (exposed_rows (rows df) = [] → G = Gr) ∧
    (exposed_rows (rows df) ≠ [] →
       G = link_exposed (add_node internet_node_name internet_attrs Gr)
             (exposed_rows (rows df)) ∧
       ∃ attrs, nodes G !! internet_node_name = Some attrs ∧
                attrs !! "type" = Some (AStr "Internet") ∧
                attrs !! "group" = Some (AStr "Internet") ∧
                attrs !! "size" = Some (AInt 40)) ∧
    (∀ before row after,
       rows df = before ++ row :: after →
       exposed_rows before = [] →
       row_exposed row = Ok true →
       exposure_loop before (Gr, false) = Ok (Gr, false) ∧
       exposure_step (Gr, false) row
         = Ok (add_edge internet_node_name (row_item row "name")
                 (add_node internet_node_name internet_attrs Gr), true)) ∧
    (∀ G' row st',
       exposure_step (G', true) row = Ok st' →
       st' = (G', true) ∨
       st' = (add_edge internet_node_name (row_item row "name") G', true)).
Proof.
  intros Hbuild. split.
  { rewrite node_count_lookup. destruct (nodes G !! internet_node_name); lia. }
  destruct (build_closed _ _ Hbuild) as (Gr & Href & Hloop & HG).
  exists Gr. split_and!; [done..| | | |].
  - intros Hnil. by rewrite decide_True in HG.
  - intros Hnil. rewrite decide_False in HG by done. split; [done|].
    exists (internet_attrs ∪ default ∅ (nodes Gr !! internet_node_name)). split.
    + subst G. apply link_exposed_kept. by rewrite add_node_lookup, decide_True.
    + split_and!; by apply lookup_union_Some_l.
  - intros before row after Hrows Hnil Hex. split; [|by apply exposure_step_exposed].
    rewrite Hrows, exposure_loop_app in Hloop.
    destruct (exposure_loop before (Gr, false)) as [[G1 has1]|] eqn:Hbefore; [|done].
    pose proof (exposure_loop_closed _ _ _ _ _ Hbefore) as Hclosed.
    rewrite decide_True in Hclosed by done. by destruct Hclosed as [-> ->].
  - intros G' row st'. unfold exposure_step.
    destruct (row_exposed row) as [[]|[]]; try done; intros [= <-]; auto.
Qed.
End internet_node.

(** ** The theorems on the example data *)

Import Runtime Examples.

(** A closed decidable statement, by running its decision procedure. *)
Ltac evaluate := apply (bool_decide_unpack _); vm_compute; exact I.

(** C1 as stated fails: the rule entry of the specification's text
    satisfies the stated condition, and the build adds no edge for it. *)
Lemma C1_flat_rule_counterexample :
  lower (row_get nsg_flat "type" "") = "microsoft.network/networksecuritygroups" ∧
  loads (row_get nsg_flat "properties" "{}")
    = Ok (PDict [("securityRules", PList [flat_rule])]) ∧
  @spec_flat_rule_open ascii_json flat_rule = true ∧
  run (frame [nsg_flat]) = Ok (graph_of (frame [nsg_flat])) ∧
  (internet_node_name, row_item nsg_flat "name") ∉ edges (graph_of (frame [nsg_flat])).
Proof. split_and!; [evaluate | vm_compute; reflexivity | evaluate..]. Qed.

Lemma C1_nsg_exposure_nested_rule_witness :
  lower (row_get nsg_open "type" "") = "microsoft.network/networksecuritygroups" ∧
  @exposure_step ascii_json (empty_graph, false) nsg_open
    = Ok (@expose "nsg1" (empty_graph, false)) ∧
  (internet_node_name, "nsg1") ∈ edges (graph_of (frame [nsg_private; nsg_open])).
Proof.
  assert (lower (row_get nsg_open "type" "") = "microsoft.network/networksecuritygroups")
    as Htype by evaluate.
  assert (@nsg_exposed ascii_json (row_get nsg_open "properties" "{}")) as Hopen.
  { apply (nsg_is_exposed (H := ascii_json)). evaluate. }
  destruct (C1_nsg_exposure_nested_rule (H := ascii_json) nsg_open (empty_graph, false) Htype)
    as (Hyes & _ & Hbuild).
  split_and!; [exact Htype | exact (proj1 (Hyes Hopen)) |].
  apply (Hbuild (frame [nsg_private; nsg_open])); [evaluate..|exact Hopen].
Defined.

(** The two cases of the specification's example, with the rule nested
    under [properties]: the open rule gives the edge, the rule for
    10.0.0.0/8 gives none. *)
Lemma nsg_examples :
  run (frame [nsg_open]) = Ok (graph_of (frame [nsg_open])) ∧
  edges (graph_of (frame [nsg_open])) = {[ ("Internet", "nsg1") ]} ∧
  run (frame [nsg_private]) = Ok (graph_of (frame [nsg_private])) ∧
  edges (graph_of (frame [nsg_private])) = ∅.
Proof. split_and!; evaluate. Qed.

(** A rule entry that is not a dict, before an open rule: the
    [AttributeError] is caught and the row is passed over. *)
Lemma nsg_malformed_entry_example :
  run (frame [nsg_note_first]) = Ok (graph_of (frame [nsg_note_first])) ∧
  edges (graph_of (frame [nsg_note_first])) = ∅.
Proof. split_and!; evaluate. Qed.

(** C2 as stated fails when two rows share a name: the node keeps the
    [type] of the first row, which the last row leaves empty. *)
Lemma C2_last_row_fields_counterexample :
  run df_shared_name = Ok (graph_of df_shared_name) ∧
  last (rows df_shared_name) = Some shared_last ∧
  shared_last !! "type" = Some "" ∧
  row_attrs (columns df_shared_name) shared_last
    = {[ "id" := AStr "/b"; "name" := AStr "A" ]} ∧
  nodes (graph_of df_shared_name) !! "A"
    = Some {[ "id" := AStr "/b"; "name" := AStr "A"; "type" := AStr "vm" ]} ∧
  nodes (graph_of df_shared_name) !! "A"
    ≠ Some (row_attrs (columns df_shared_name) shared_last).
Proof. split_and!; evaluate. Qed.

(** A resource named "Internet" shares its node with the Internet node. *)
Lemma internet_row_example :
  run (frame [internet_row; storage_allow])
    = Ok (graph_of (frame [internet_row; storage_allow])) ∧
  nodes (graph_of (frame [internet_row; storage_allow])) !! "Internet"
    = Some {[ "id" := AStr "/gw"; "name" := AStr "Internet"; "type" := AStr "Internet";
              "group" := AStr "Internet"; "size" := AInt 40 ]}.
Proof. split_and!; evaluate. Qed.

(** C3 fails on the code: the exposure pass does not test the name, and
    [add_edge] makes the empty name of an exposed row a node. *)
Lemma C3_empty_name_node :
  row_item storage_unnamed "name" = "" ∧
  run (frame [storage_unnamed]) = Ok (graph_of (frame [storage_unnamed])) ∧
  nodes (graph_of (frame [storage_unnamed])) !! "" = Some ∅ ∧
  edges (graph_of (frame [storage_unnamed])) = {[ ("Internet", "") ]}.
Proof. split_and!; evaluate. Qed.

Lemma C4_storage_exposure_witness :
  lower (row_get storage_allow "type" "") = "microsoft.storage/storageaccounts" ∧
  @exposure_step ascii_json (empty_graph, false) storage_allow
    = Ok (@expose "store1" (empty_graph, false)) ∧
  @exposure_step ascii_json (empty_graph, false) storage_deny = Ok (empty_graph, false).
Proof.
  assert (lower (row_get storage_allow "type" "") = "microsoft.storage/storageaccounts")
    as Htype by evaluate.
  destruct (C4_storage_exposure (H := ascii_json) storage_allow
              (PDict [("networkAcls", PDict [("defaultAction", PStr "Allow")])])
              (empty_graph, false) Htype) as (Hyes & _ & _); [vm_compute; reflexivity|].
  destruct (C4_storage_exposure (H := ascii_json) storage_deny
              (PDict [("networkAcls", PDict [("defaultAction", PStr "Deny")])])
              (empty_graph, false)) as (_ & Hno & _); [vm_compute; reflexivity..|].
  split_and!; [exact Htype| |].
  - apply Hyes. eexists _, _, _. split_and!; vm_compute; reflexivity.
  - apply Hno. intros (items & acls & action & [= <-] & [= <-] & [= <-] & Hallow).
    vm_compute in Hallow. discriminate Hallow.
Defined.

(** The two cases of the specification's example for storage accounts. *)
Lemma storage_examples :
  run (frame [storage_allow; storage_deny])
    = Ok (graph_of (frame [storage_allow; storage_deny])) ∧
  edges (graph_of (frame [storage_allow; storage_deny])) = {[ ("Internet", "store1") ]}.
Proof. split_and!; evaluate. Qed.

Lemma C5_unparseable_properties_skipped_witness :
  loads (row_get nsg_unparseable "properties" "{}") = Raise JSONDecodeError ∧
  @exposure_step ascii_json (empty_graph, false) nsg_unparseable = Ok (empty_graph, false) ∧
  @exposure_loop ascii_json [nsg_open; nsg_unparseable; storage_allow] (empty_graph, false)
    = @exposure_loop ascii_json [nsg_open; storage_allow] (empty_graph, false).
Proof.
  assert (loads (row_get nsg_unparseable "properties" "{}") = Raise JSONDecodeError)
    as Hload by (vm_compute; reflexivity).
  destruct (C5_unparseable_properties_skipped (H := ascii_json) nsg_unparseable Hload)
    as (Hstep & Hloop & _).
  split_and!; [exact Hload | apply Hstep | apply (Hloop [nsg_open] [storage_allow])].
Defined.

(** Without the [id] or the [name] column the build exits. *)
Lemma missing_column_exits `{PyLib} (df : DataFrame) :
  "id" ∉ columns df ∨ "name" ∉ columns df →
  build_graph_from_csv df = Raise SystemExit.
Proof.
  intros Hmissing. unfold build_graph_from_csv.
  rewrite decide_False; [done|]. intros [? ?]. by destruct Hmissing.
Qed.

(** C6 fails on the code: with both columns present the build is aborted
    by a [TypeError], which the [except] clause does not catch, when
    [securityRules] is not iterable. *)
Lemma C6_null_rules_abort :
  "id" ∈ columns (frame [nsg_null_rules]) ∧
  "name" ∈ columns (frame [nsg_null_rules]) ∧
  loads (row_get nsg_null_rules "properties" "{}")
    = Ok (PDict [("securityRules", PNone)]) ∧
  run (frame [nsg_null_rules]) = Raise TypeError.
Proof. split_and!; [evaluate | evaluate | vm_compute; reflexivity | evaluate]. Qed.

Lemma C7_single_internet_node_witness :
  run (frame [nsg_open; storage_deny; storage_allow])
    = Ok (graph_of (frame [nsg_open; storage_deny; storage_allow])) ∧
  node_count (graph_of (frame [nsg_open; storage_deny; storage_allow])) "Internet" ≤ 1.
Proof.
  assert (run (frame [nsg_open; storage_deny; storage_allow])
    = Ok (graph_of (frame [nsg_open; storage_deny; storage_allow]))) as Hrun by evaluate.
  split; [exact Hrun|].
  exact (proj1 (C7_single_internet_node (H := ascii_json) _ _ Hrun)).
Defined.



Lemma C9_identity_index_last_write_wins_witness :
  dict_get "/x" (id_to_name (frame [declared_first; declared_last])) = Some "second" ∧
  dict_get "/x" (id_to_row (frame [declared_first; declared_last])) = Some declared_last.
Proof.
  apply (C9_identity_index_last_write_wins
           (frame [declared_first; declared_last]) [declared_first] [] declared_last).
  - reflexivity.
  - evaluate.
  - constructor.
Defined.

(** C10 as stated fails: [A] contains the id of [B], but a later row
    declares that id again, and the edge goes to the later row. *)
Lemma C10_redeclared_id_counterexample :
  row_item res_A "id" = "/a" ∧ row_item res_A "name" = "A" ∧
  row_item res_B "id" = "/b" ∧ row_item res_B "name" = "B" ∧
  contains (row_item res_B "id") (row_get res_A "properties" "") = true ∧
  run (frame [res_A; res_B; res_C]) = Ok (graph_of (frame [res_A; res_B; res_C])) ∧
  edges (graph_of (frame [res_A; res_B; res_C])) = {[ ("A", "C") ]} ∧
  ("A", "B") ∉ edges (graph_of (frame [res_A; res_B; res_C])).
Proof. split_and!; evaluate. Qed.

(** The edge from [B] to [A] without a field of [B] that contains the id
    of [A]: as the exposure edge when [B] is named "Internet", and as a
    reference edge when the id lies across two joined fields. *)
Lemma C10_reverse_edge_examples :
  run (frame [exposed_A; internet_B]) = Ok (graph_of (frame [exposed_A; internet_B])) ∧
  edges (graph_of (frame [exposed_A; internet_B]))
    = {[ ("A", "Internet"); ("Internet", "A") ]} ∧
  Forall (λ c, contains "/a" (row_get internet_B c "") = false) header ∧
  run df_spaced = Ok (graph_of df_spaced) ∧
  edges (graph_of df_spaced) = {[ ("A", "B"); ("B", "A") ]} ∧
  hay (search_columns df_spaced) spaced_B = "see /a b" ∧
  Forall (λ c, contains "/a b" (row_get spaced_B c "") = false) (columns df_spaced).
Proof. split_and!; evaluate. Qed.

Lemma C10_reference_edge_direction_witness :
  run (frame [res_A; res_B]) = Ok (graph_of (frame [res_A; res_B])) ∧
  contains (row_item res_B "id") (row_get res_A "properties" "") = true ∧
  ("A", "B") ∈ edges (graph_of (frame [res_A; res_B])).
Proof.
  split_and!; [evaluate..|].
  apply (C10_reference_edge_direction (H := ascii_json)
           (frame [res_A; res_B]) (graph_of (frame [res_A; res_B])) res_A res_B);
    evaluate.
Defined.

(** * Further properties of the build *)

(** ** Nodes and attributes of the passes *)

Lemma DiGraph_eq (G1 G2 : DiGraph) :
  nodes G1 = nodes G2 → edges G1 = edges G2 → G1 = G2.
Proof. destruct G1, G2; simpl; by intros -> ->. Qed.

Lemma index_of_source {V} (val : gmap string string → V) k v rws d :
  dict_get k (index_of val rws d) = Some v →
  dict_get k d = Some v ∨
  ∃ r, r ∈ rws ∧ row_item r "id" = k ∧ k ≠ "" ∧ val r = v.
Proof.
  revert d. induction rws as [|r rws IH]; intros d Hget; [by left|].
  rewrite index_of_cons in Hget. apply IH in Hget as [Hget|(r' & Hin & ? & ? & ?)].
  - case_decide as Hid; [by left|].
    destruct (decide (row_item r "id" = k)) as [<-|Hne].
    + rewrite dict_get_set_eq in Hget. right. exists r.
      split_and!; [by left | done | done | congruence].
    + rewrite dict_get_set_ne in Hget by done. by left.
  - right. exists r'. split_and!; [by right | done..].
Qed.

Lemma row_attrs_fold (cols : list string) (row : gmap string string)
    (acc : gmap string attr) (key : string) :
  foldl (λ attrs key,
           match row !! key with
           | Some val => if decide (val = "") then attrs else <[key := AStr val]> attrs
           | None => attrs
           end) acc cols !! key
  = match filled_cell cols row key with
    | Some a => Some a
    | None => acc !! key
    end.
Proof.
  revert acc. induction cols as [|c cols IH]; intros acc; [done|].
  simpl. rewrite IH. unfold filled_cell.
  destruct (decide (key ∈ cols)) as [Hin|Hin].
  - rewrite (decide_True (P := key ∈ c :: cols)) by (by right).
    destruct (row !! key) as [val|] eqn:Hkey; [|].
    + destruct (decide (val = "")); [|done].
      destruct (row !! c) as [cv|] eqn:Hc; [|done].
      destruct (decide (cv = "")); [done|].
      destruct (decide (c = key)) as [->|Hne]; [congruence|].
      by rewrite lookup_insert_ne.
    + destruct (row !! c) as [cv|] eqn:Hc; [|done].
      destruct (decide (cv = "")); [done|].
      destruct (decide (c = key)) as [->|Hne]; [congruence|].
      by rewrite lookup_insert_ne.
  - destruct (decide (c = key)) as [->|Hne].
    + rewrite (decide_True (P := key ∈ key :: cols)) by (by left).
      destruct (row !! key) as [val|]; [|done].
      destruct (decide (val = "")); [done|]. by rewrite lookup_insert_eq.
    + rewrite (decide_False (P := key ∈ c :: cols)).
      2:{ intros [?|?]%elem_of_cons; congruence. }
      destruct (row !! c) as [cv|]; [|done].
      destruct (decide (cv = "")); [done|]. by rewrite lookup_insert_ne.
Qed.

Lemma row_attrs_lookup (cols : list string) (row : gmap string string) (key : string) :
  row_attrs cols row !! key = filled_cell cols row key.
Proof.
  unfold row_attrs. rewrite row_attrs_fold, lookup_empty. by destruct (filled_cell _ _ _).
Qed.

Lemma add_node_empty_present n G :
  is_Some (nodes G !! n) → add_node n ∅ G = G.
Proof.
  intros [a Ha]. apply DiGraph_eq; [|done].
  unfold add_node; simpl. rewrite Ha. simpl. rewrite (left_id_L ∅ (∪)).
  by apply insert_id.
Qed.

Lemma add_edge_present u v G :
  is_Some (nodes G !! u) → is_Some (nodes G !! v) →
  nodes (add_edge u v G) = nodes G.
Proof.
  intros Hu Hv. change (nodes (add_edge u v G)) with (nodes (add_node v ∅ (add_node u ∅ G))).
  rewrite (add_node_empty_present u) by done. by rewrite add_node_empty_present.
Qed.

Section reference_nodes.
Context (i2n : list (string * string)) (cids cols : list string).

Lemma scan_id_nodes row src h G cid :
  is_Some (nodes G !! src) → targets_present i2n G →
  nodes (scan_id i2n row src h G cid) = nodes G.
Proof.
  intros Hsrc Htgt. unfold scan_id.
  case_decide; [done|]. destruct (contains cid h); [|done].
  destruct (dict_get cid i2n) as [tgt|] eqn:Hget; [|done].
  case_decide as Hne; [done|].
  pose proof (Htgt cid tgt Hget Hne) as Hpresent.
  rewrite add_node_empty_present by done. by apply add_edge_present.
Qed.

Lemma scan_ids_nodes row src h ids G :
  is_Some (nodes G !! src) → targets_present i2n G →
  nodes (foldl (scan_id i2n row src h) G ids) = nodes G.
Proof.
  revert G. induction ids as [|cid ids IH]; intros G Hsrc Htgt; [done|].
  simpl. pose proof (scan_id_nodes row src h G cid Hsrc Htgt) as Heq.
  rewrite IH; [done| |]; unfold targets_present; by rewrite Heq.
Qed.

Lemma reference_loop_nodes rws G :
  (∀ r, r ∈ rws → row_item r "name" ≠ "" → is_Some (nodes G !! row_item r "name")) →
  targets_present i2n G →
  nodes (reference_loop i2n cids cols rws G) = nodes G.
Proof.
  unfold reference_loop. revert G.
  induction rws as [|row rws IH]; intros G Hsrc Htgt; [done|].
  simpl.
  assert (nodes (scan_row i2n cids cols G row) = nodes G) as Heq.
  { unfold scan_row. case_decide as Hname; [done|].
    apply scan_ids_nodes; [|done]. apply Hsrc; [by left|done]. }
  rewrite IH; [done| |].
  - intros r Hr Hname. rewrite Heq. apply Hsrc; [by right|done].
  - unfold targets_present. by rewrite Heq.
Qed.
End reference_nodes.

Lemma link_exposed_lookup G (ers : list (gmap string string)) (n : string) :
  nodes (link_exposed G ers) !! n =
  if decide (n = internet_node_name ∧ ers ≠ [] ∨
             Exists (λ r, row_item r "name" = n) ers)
  then Some (default ∅ (nodes G !! n)) else nodes G !! n.
Proof.
  unfold link_exposed. revert G. induction ers as [|r ers IH]; intros G.
  - simpl. rewrite decide_False; [done|].
    intros [[_ ?]|?%Exists_nil]; done.
  - simpl. rewrite IH, add_edge_lookup.
    destruct (decide (n = internet_node_name ∨ n = row_item r "name")) as [Hhead|Hhead].
    + rewrite (decide_True (P := _ ∨ Exists _ (r :: ers))).
      2:{ destruct Hhead as [->| ->]; [by left|]. right. by apply Exists_cons_hd. }
      by case_decide.
    + apply decide_ext. rewrite Exists_cons. split.
      * intros [[-> _]|?]; [destruct Hhead; by left|]. right. by right.
      * intros [[-> _]|[?|?]]; [destruct Hhead; by left|destruct Hhead; by right|].
        by right.
Qed.

Lemma node_loop_sources cols rws G Gn :
  node_loop cols rws G = Ok Gn →
  ∀ r, r ∈ rws → row_item r "name" ≠ "" → is_Some (nodes Gn !! row_item r "name").
Proof.
  intros Hloop r Hr Hname. rewrite (node_loop_lookup _ _ _ _ _ Hloop).
  rewrite decide_True; [by eexists|]. split; [done|]. apply Exists_exists. by exists r.
Qed.

Lemma index_targets_present (df : DataFrame) Gn :
  node_loop (columns df) (rows df) empty_graph = Ok Gn →
  targets_present (id_to_name df) Gn.
Proof.
  intros Hloop cid tgt Hget Hne. unfold id_to_name in Hget.
  rewrite id_to_name_of_index in Hget.
  apply index_of_source in Hget as [?|(r & Hr & _ & _ & <-)]; [done|].
  by apply (node_loop_sources _ _ _ _ Hloop).
Qed.

Lemma reference_pass_nodes (df : DataFrame) (Gn : DiGraph) :
  node_loop (columns df) (rows df) empty_graph = Ok Gn →
  nodes (reference_loop (id_to_name df) (candidate_ids df) (search_columns df)
           (rows df) Gn) = nodes Gn ∧
  reference_graph df
    = Ok (reference_loop (id_to_name df) (candidate_ids df) (search_columns df)
            (rows df) Gn).
Proof.
  intros Hloop. split.
  - apply reference_loop_nodes.
    + by apply (node_loop_sources _ _ _ _ Hloop).
    + by apply index_targets_present.
  - unfold reference_graph. by rewrite Hloop.
Qed.

(** X1: the reference pass changes no node.  The calls
    [G.add_node(tgt_name)] and [G.add_edge(src_name, tgt_name)] of lines
    89-91 always find both names among the nodes that the node pass made,
    with their attributes: the pass only adds edges. *)
Theorem reference_pass_adds_no_node (df : DataFrame) (Gn : DiGraph) :
  node_loop (columns df) (rows df) empty_graph = Ok Gn →
  nodes (reference_loop (id_to_name df) (candidate_ids df) (search_columns df)
           (rows df) Gn) = nodes Gn ∧
  reference_graph df
    = Ok (reference_loop (id_to_name df) (candidate_ids df) (search_columns df)
            (rows df) Gn).
Proof.
  intros Hloop. split.
  - apply reference_loop_nodes.
    + by apply (node_loop_sources _ _ _ _ Hloop).
    + by apply index_targets_present.
  - unfold reference_graph. by rewrite Hloop.
Qed.

Lemma reference_graph_nodes (df : DataFrame) (Gr : DiGraph) (n : string) :
  reference_graph df = Ok Gr →
  nodes Gr !! n =
  if decide (n ≠ "" ∧ Exists (λ r, row_item r "name" = n) (rows df))
  then Some (merged_attrs (columns df) (rows df) n ∅) else None.
Proof.
  intros Href. unfold reference_graph in Href.
  destruct (node_loop (columns df) (rows df) empty_graph) as [Gn|] eqn:Hloop; [|done].
  injection Href as <-.
  destruct (reference_pass_nodes df Gn Hloop) as [-> _].
  by rewrite (node_loop_lookup _ _ _ _ n Hloop).
Qed.

Section built_nodes.
Context `{PyLib}.

Lemma exposed_rows_elem (rws : list (gmap string string)) (r : gmap string string) :
  r ∈ exposed_rows rws ↔ r ∈ rws ∧ row_exposed r = Ok true.
Proof. unfold exposed_rows. rewrite list_elem_of_filter. tauto. Qed.

(** The attribute dict of every name in a built graph. *)
Lemma built_graph_lookup (df : DataFrame) (G : DiGraph) (n : string) :
  build_graph_from_csv df = Ok G →
  nodes G !! n =
  let base := if decide (n ≠ "" ∧ Exists (λ r, row_item r "name" = n) (rows df))
              then Some (merged_attrs (columns df) (rows df) n ∅) else None in
  if decide (exposed_rows (rows df) = []) then base
  else if decide (n = internet_node_name)
       then Some (internet_attrs ∪ default ∅ base)
       else if decide (Exists (λ r, row_item r "name" = n) (exposed_rows (rows df)))
            then Some (default ∅ base) else base.
Proof.
  intros Hbuild. destruct (build_closed _ _ Hbuild) as (Gr & Href & _ & ->).
  simpl. rewrite <-(reference_graph_nodes df Gr n Href).
  case_decide as Hnil; [done|].
  rewrite link_exposed_lookup, add_node_lookup.
  destruct (decide (n = internet_node_name)) as [->|Hn].
  - rewrite decide_True by (by left). by rewrite decide_True.
  - rewrite (decide_False (P := internet_node_name = n)) by done.
    apply decide_ext. split; [by intros [[? _]|?]|by right].
Qed.

Lemma built_nodes_iff (df : DataFrame) (G : DiGraph) (n : string) :
  build_graph_from_csv df = Ok G →
  is_Some (nodes G !! n) ↔
  (n ≠ "" ∧ ∃ r, r ∈ rows df ∧ row_item r "name" = n) ∨
  (∃ r, r ∈ rows df ∧ row_exposed r = Ok true ∧
        (n = internet_node_name ∨ row_item r "name" = n)).
Proof.
  intros Hbuild. rewrite (built_graph_lookup df G n Hbuild). simpl.
  assert (∀ r, r ∈ exposed_rows (rows df) ↔ r ∈ rows df ∧ row_exposed r = Ok true)
    as Hfilter by (intros r; apply exposed_rows_elem).
  assert (is_Some (if decide (n ≠ "" ∧ Exists (λ r, row_item r "name" = n) (rows df))
                   then Some (merged_attrs (columns df) (rows df) n ∅) else None)
          ↔ n ≠ "" ∧ ∃ r, r ∈ rows df ∧ row_item r "name" = n) as Hbase.
  { rewrite <-Exists_exists. case_decide; [by split|]. split; [by intros [? ?]|done]. }
  revert Hbase.
  generalize (if decide (n ≠ "" ∧ Exists (λ r, row_item r "name" = n) (rows df))
              then Some (merged_attrs (columns df) (rows df) n ∅) else None).
  intros base Hbase. case_decide as Hnil.
  - rewrite Hbase. split; [by left|]. intros [?|(r & Hr & Hex & _)]; [done|].
    assert (r ∈ exposed_rows (rows df)) as Hin by (by apply Hfilter).
    rewrite Hnil in Hin. by apply elem_of_nil in Hin.
  - destruct (exposed_rows (rows df)) as [|r0 ers] eqn:Hers; [done|].
    assert (r0 ∈ rows df ∧ row_exposed r0 = Ok true) as [Hr0 Hex0].
    { apply Hfilter. by left. }
    destruct (decide (n = internet_node_name)) as [->|Hn].
    + split; [|by eexists]. intros _. right. exists r0. split_and!; [done..|by left].
    + case_decide as Hexp.
      * split; [|by eexists]. intros _. right.
        apply Exists_exists in Hexp as (r & [Hr Hex]%Hfilter & Hname).
        exists r. split_and!; [done..|by right].
      * rewrite Hbase. split; [by left|]. intros [?|(r & Hr & Hex & [?|Hname])]; [done..|].
        destruct Hexp. apply Exists_exists. exists r. split; [by apply Hfilter|done].
Qed.

(** X2: the nodes of a built graph are the non-empty names of the rows
    and, when some row is exposed, "Internet" and the names of the exposed
    rows (also an empty one); there is no other node. *)
Theorem built_graph_nodes (df : DataFrame) (G : DiGraph) (n : string) :
  build_graph_from_csv df = Ok G →
  is_Some (nodes G !! n) ↔
  (n ≠ "" ∧ ∃ r, r ∈ rows df ∧ row_item r "name" = n) ∨
  (∃ r, r ∈ rows df ∧ row_exposed r = Ok true ∧
        (n = internet_node_name ∨ row_item r "name" = n)).
Proof.
  intros Hbuild. rewrite (built_graph_lookup df G n Hbuild). simpl.
  assert (∀ r, r ∈ exposed_rows (rows df) ↔ r ∈ rows df ∧ row_exposed r = Ok true)
    as Hfilter by (intros r; apply exposed_rows_elem).
  assert (is_Some (if decide (n ≠ "" ∧ Exists (λ r, row_item r "name" = n) (rows df))
                   then Some (merged_attrs (columns df) (rows df) n ∅) else None)
          ↔ n ≠ "" ∧ ∃ r, r ∈ rows df ∧ row_item r "name" = n) as Hbase.
  { rewrite <-Exists_exists. case_decide; [by split|]. split; [by intros [? ?]|done]. }
  revert Hbase.
  generalize (if decide (n ≠ "" ∧ Exists (λ r, row_item r "name" = n) (rows df))
              then Some (merged_attrs (columns df) (rows df) n ∅) else None).
  intros base Hbase. case_decide as Hnil.
  - rewrite Hbase. split; [by left|]. intros [?|(r & Hr & Hex & _)]; [done|].
    assert (r ∈ exposed_rows (rows df)) as Hin by (by apply Hfilter).
    rewrite Hnil in Hin. by apply elem_of_nil in Hin.
  - destruct (exposed_rows (rows df)) as [|r0 ers] eqn:Hers; [done|].
    assert (r0 ∈ rows df ∧ row_exposed r0 = Ok true) as [Hr0 Hex0].
    { apply Hfilter. by left. }
    destruct (decide (n = internet_node_name)) as [->|Hn].
    + split; [|by eexists]. intros _. right. exists r0. split_and!; [done..|by left].
    + case_decide as Hexp.
      * split; [|by eexists]. intros _. right.
        apply Exists_exists in Hexp as (r & [Hr Hex]%Hfilter & Hname).
        exists r. split_and!; [done..|by right].
      * rewrite Hbase. split; [by left|]. intros [?|(r & Hr & Hex & [?|Hname])]; [done..|].
        destruct Hexp. apply Exists_exists. exists r. split; [by apply Hfilter|done].
Qed.

(** X3: in a built graph every edge joins two nodes of the graph. *)
Theorem built_graph_edges_join_nodes (df : DataFrame) (G : DiGraph) (u v : string) :
  build_graph_from_csv df = Ok G →
  (u, v) ∈ edges G →
  is_Some (nodes G !! u) ∧ is_Some (nodes G !! v).
Proof.
  intros Hbuild Hedge. rewrite !(built_nodes_iff df G _ Hbuild).
  apply (build_edges _ _ _ _ Hbuild) in Hedge
    as [(r & Hr & Hname & Hu & cid & _ & _ & _ & Hget & Hv)|(-> & r & Hr & Hex & Hname)].
  - split; [left; split; [done|]; by exists r|].
    left. split; [done|]. unfold id_to_name in Hget. rewrite id_to_name_of_index in Hget.
    apply index_of_source in Hget as [?|(r' & Hr' & _ & _ & Hval)]; [done|]. by exists r'.
  - split; right; exists r; split_and!; try done; [by left|by right].
Qed.
End built_nodes.

Lemma filled_cell_Some cols (row : gmap string string) (key : string) (a : attr) :
  filled_cell cols row key = Some a ↔
  key ∈ cols ∧ ∃ s, row !! key = Some s ∧ s ≠ "" ∧ a = AStr s.
Proof.
  unfold filled_cell. case_decide as Hin; [|split; [done|by intros [? _]]].
  destruct (row !! key) as [val|].
  - case_decide as Hval.
    + split; [done|]. intros (_ & s & [= <-] & ? & _). done.
    + split.
      * intros [= <-]. split; [done|]. by exists val.
      * intros (_ & s & [= <-] & _ & ->). done.
  - split; [done|]. by intros (_ & s & ? & _).
Qed.

Lemma merged_attrs_source cols rws n init (k : string) (v : attr) :
  merged_attrs cols rws n init !! k = Some v →
  init !! k = Some v ∨
  ∃ r, r ∈ rws ∧ row_item r "name" = n ∧ filled_cell cols r k = Some v.
Proof.
  revert init. induction rws as [|r rws IH]; intros init Hk; [by left|].
  rewrite merged_attrs_cons in Hk. apply IH in Hk as [Hk|(r' & Hr' & ? & ?)].
  - case_decide as Hn; [|by left].
    apply lookup_union_Some_raw in Hk as [Hk|[_ Hk]]; [|by left].
    right. exists r. split_and!; [by left|done|]. by rewrite <-row_attrs_lookup.
  - right. exists r'. split_and!; [by right|done..].
Qed.

Lemma merged_attrs_snoc cols rws row n init :
  merged_attrs cols (rws ++ [row]) n init =
  if decide (row_item row "name" = n)
  then row_attrs cols row ∪ merged_attrs cols rws n init
  else merged_attrs cols rws n init.
Proof. unfold merged_attrs. by rewrite foldl_app. Qed.

Lemma filled_cell_fills cols (row : gmap string string) (k : string) :
  match filled_cell cols row k with
  | Some v => ∃ s, v = AStr s ∧ fills cols row k s
  | None => ∀ s, ¬ fills cols row k s
  end.
Proof.
  destruct (filled_cell cols row k) as [v|] eqn:Hcell.
  - apply filled_cell_Some in Hcell as (Hin & s & Hs & Hne & ->). by exists s.
  - intros s (Hin & Hs & Hne).
    assert (filled_cell cols row k = Some (AStr s)) as Hsome; [|congruence].
    apply filled_cell_Some. split; [done|]. by exists s.
Qed.

Lemma fills_inj cols (row : gmap string string) (k s s' : string) :
  fills cols row k s → fills cols row k s' → s = s'.
Proof. intros (_ & Hs & _) (_ & Hs' & _). congruence. Qed.

Lemma last_filled_snoc cols rws r n k s :
  last_filled cols (rws ++ [r]) n k s ↔
  (row_item r "name" = n ∧ fills cols r k s) ∨
  (last_filled cols rws n k s ∧ (row_item r "name" = n → ∀ s', ¬ fills cols r k s')).
Proof.
  split.
  - intros (pre & r' & post & Heq & Hname & Hfill & Hpost).
    destruct post as [|x post _] using rev_ind.
    + apply app_inj_tail in Heq as [-> ->]. by left.
    + rewrite app_comm_cons, app_assoc in Heq. apply app_inj_tail in Heq as [-> ->].
      apply Forall_app in Hpost as [Hpost Hx]. rewrite Forall_singleton in Hx.
      right. split; [by exists pre, r', post|done].
  - intros [[Hname Hfill]|[(pre & r' & post & -> & Hname & Hfill & Hpost) Hr]].
    + exists rws, r, []. split_and!; [done|done|done|constructor].
    + exists pre, r', (post ++ [r]). split_and!; [by rewrite <-app_assoc|done|done|].
      apply Forall_app. split; [done|]. by apply Forall_singleton.
Qed.

(** The merge of the rows named [n], key by key: the cell of the last row
    that fills the column. *)
Lemma merged_attrs_last_filled cols rws n (k : string) (v : attr) :
  merged_attrs cols rws n ∅ !! k = Some v ↔
  ∃ s, v = AStr s ∧ last_filled cols rws n k s.
Proof.
  revert v. induction rws as [|r rws IH] using rev_ind; intros v.
  - split; [done|]. intros (s & _ & pre & r & post & Heq & _). by destruct pre.
  - rewrite merged_attrs_snoc. setoid_rewrite last_filled_snoc.
    pose proof (filled_cell_fills cols r k) as Hcell.
    destruct (decide (row_item r "name" = n)) as [Hn|Hn].
    + rewrite lookup_union_Some_raw, row_attrs_lookup.
      destruct (filled_cell cols r k) as [v'|].
      * destruct Hcell as (s' & -> & Hfill). split.
        -- intros [[= <-]|[? _]]; [|done]. exists s'. split; [done|]. by left.
        -- intros (s & -> & [[_ Hs]|[_ Hnone]]).
           ++ left. by rewrite (fills_inj _ _ _ _ _ Hs Hfill).
           ++ by destruct (Hnone Hn s').
      * rewrite IH. split.
        -- intros [?|[_ (s & -> & Hlast)]]; [done|].
           exists s. split; [done|]. right. split; [done|]. by intros _.
        -- intros (s & -> & [[_ Hs]|[Hlast _]]); [by destruct (Hcell s)|].
           right. split; [done|]. by exists s.
    + rewrite IH. split.
      * intros (s & -> & Hlast). exists s. split; [done|]. by right.
      * intros (s & -> & [[? _]|[Hlast _]]); [done|]. by exists s.
Qed.

Lemma last_filled_only cols rws (row : gmap string string) (k s : string) :
  row ∈ rws →
  (∀ r, r ∈ rws → row_item r "name" = row_item row "name" → r = row) →
  last_filled cols rws (row_item row "name") k s ↔ fills cols row k s.
Proof.
  intros Hrow Honly. split.
  - intros (pre & r & post & -> & Hname & Hfill & _).
    rewrite <-(Honly r); [done| |done]. apply elem_of_app. right. by left.
  - intros Hfill. apply list_elem_of_split_r in Hrow as (pre & post & -> & Hnotin).
    exists pre, row, post. split_and!; [done..|].
    apply Forall_forall. intros r Hr Hname. destruct Hnotin.
    rewrite <-(Honly r); [done| |done]. apply elem_of_app. right. by right.
Qed.

Section node_attributes_merge.
Context `{PyLib}.

(** C2 (amended): for a row with a non-empty name, a successful build has
    exactly one node keyed by that name.  Its attribute dict has, under a
    column [k], the cell (a string) of the last row bearing the name whose
    cell in column [k] is not empty, and no other key: a later row
    overwrites an earlier one only on the fields it fills.  When one row
    alone bears the name, these are exactly the non-empty fields of that
    row.  The one exception is the name "Internet" when some row is
    exposed: the keys [type], [group] and [size] then hold what the exposure
    pass writes, and the other keys are as said. *)
Theorem C2_node_attributes_merge (df : DataFrame) (G : DiGraph) (row : gmap string string) :
  build_graph_from_csv df = Ok G →
  row ∈ rows df →
  row_item row "name" ≠ "" →
  node_count G (row_item row "name") = 1 ∧
  ∃ attrs,
    nodes G !! row_item row "name" = Some attrs ∧
    (row_item row "name" ≠ internet_node_name ∨ exposed_rows (rows df) = [] →
     (∀ k v, attrs !! k = Some v ↔
             ∃ s, v = AStr s ∧
                  last_filled (columns df) (rows df) (row_item row "name") k s) ∧
     ((∀ r, r ∈ rows df → row_item r "name" = row_item row "name" → r = row) →
      ∀ k v, attrs !! k = Some v ↔ ∃ s, v = AStr s ∧ fills (columns df) row k s)) ∧
    (row_item row "name" = internet_node_name → exposed_rows (rows df) ≠ [] →
     ∀ k v, attrs !! k = Some v ↔
            (k = "type" ∧ v = AStr "Internet") ∨
            (k = "group" ∧ v = AStr "Internet") ∨
            (k = "size" ∧ v = AInt 40) ∨
            (k ≠ "type" ∧ k ≠ "group" ∧ k ≠ "size" ∧
             ∃ s, v = AStr s ∧
                  last_filled (columns df) (rows df) (row_item row "name") k s)).
Proof.
  intros Hbuild Hrow Hname.
  pose proof (node_attributes_lookup df G row Hbuild Hrow Hname) as Hlookup.
  split; [by rewrite node_count_lookup, Hlookup|].
  eexists. split; [exact Hlookup|]. split.
  - intros Hplain. rewrite decide_False by (intros [? ?]; by destruct Hplain).
    split; [intros k v; apply merged_attrs_last_filled|].
    intros Honly k v. rewrite merged_attrs_last_filled.
    by setoid_rewrite (last_filled_only _ _ _ _ _ Hrow Honly).
  - intros Hinternet Hexposed. rewrite decide_True by done.
    intros k v. rewrite lookup_union_Some_raw, merged_attrs_last_filled.
    unfold internet_attrs.
    destruct (decide (k = "type")) as [->|Htype].
    { rewrite lookup_insert_eq. split.
      - intros [[= <-]|[? _]]; [by left|done].
      - intros [[_ ->]|[[? _]|[[? _]|[? _]]]]; by try left. }
    rewrite lookup_insert_ne by done.
    destruct (decide (k = "group")) as [->|Hgroup].
    { rewrite lookup_insert_eq. split.
      - intros [[= <-]|[? _]]; [by right; left|done].
      - intros [[? _]|[[_ ->]|[[? _]|(_ & ? & _)]]]; by try left. }
    rewrite lookup_insert_ne by done.
    destruct (decide (k = "size")) as [->|Hsize].
    { rewrite lookup_insert_eq. split.
      - intros [[= <-]|[? _]]; [by right; right; left|done].
      - intros [[? _]|[[? _]|[[_ ->]|(_ & _ & ? & _)]]]; by try left. }
    rewrite lookup_insert_ne, lookup_empty by done. split.
    + intros [?|[_ Hlast]]; [done|]. by right; right; right.
    + intros [[? _]|[[? _]|[[? _]|(_ & _ & _ & Hlast)]]]; try done. by right.
Qed.
End node_attributes_merge.

Section built_attributes.
Context `{PyLib}.

Lemma built_attribute_source (df : DataFrame) (G : DiGraph)
    (n : string) (a : gmap string attr) (k : string) (v : attr) :
  build_graph_from_csv df = Ok G →
  nodes G !! n = Some a →
  a !! k = Some v →
  (∃ r s, r ∈ rows df ∧ row_item r "name" = n ∧ k ∈ columns df ∧
          r !! k = Some s ∧ s ≠ "" ∧ v = AStr s) ∨
  (n = internet_node_name ∧ internet_attrs !! k = Some v).
Proof.
  intros Hbuild Hnode Hk.
  assert (merged_attrs (columns df) (rows df) n ∅ !! k = Some v →
          ∃ r s, r ∈ rows df ∧ row_item r "name" = n ∧ k ∈ columns df ∧
                 r !! k = Some s ∧ s ≠ "" ∧ v = AStr s) as Hmerged.
  { intros [?|(r & Hr & Hname & (Hcol & s & Hs & Hne & ->)%filled_cell_Some)]%merged_attrs_source;
      [done|]. by exists r, s. }
  rewrite (built_graph_lookup df G n Hbuild) in Hnode. simpl in Hnode.
  destruct (decide (n ≠ "" ∧ Exists (λ r, row_item r "name" = n) (rows df)));
    repeat case_decide; simplify_eq/=;
    try (apply lookup_union_Some_raw in Hk as [Hk|[_ Hk]]);
    try (by rewrite lookup_empty in Hk); auto.
Qed.

(** X4: every attribute of a node of a built graph is a non-empty cell, as
    a string under its column name, of some row that bears the node's name,
    or one of the three attributes that the exposure pass writes into the
    node "Internet". *)
Theorem built_attribute_provenance (df : DataFrame) (G : DiGraph)
    (n : string) (a : gmap string attr) (k : string) (v : attr) :
  build_graph_from_csv df = Ok G →
  nodes G !! n = Some a →
  a !! k = Some v →
  (∃ r s, r ∈ rows df ∧ row_item r "name" = n ∧ k ∈ columns df ∧
          r !! k = Some s ∧ s ≠ "" ∧ v = AStr s) ∨
  (n = internet_node_name ∧ internet_attrs !! k = Some v).
Proof.
  intros Hbuild Hnode Hk.
  assert (merged_attrs (columns df) (rows df) n ∅ !! k = Some v →
          ∃ r s, r ∈ rows df ∧ row_item r "name" = n ∧ k ∈ columns df ∧
                 r !! k = Some s ∧ s ≠ "" ∧ v = AStr s) as Hmerged.
  { intros [?|(r & Hr & Hname & (Hcol & s & Hs & Hne & ->)%filled_cell_Some)]%merged_attrs_source;
      [done|]. by exists r, s. }
  rewrite (built_graph_lookup df G n Hbuild) in Hnode. simpl in Hnode.
  destruct (decide (n ≠ "" ∧ Exists (λ r, row_item r "name" = n) (rows df)));
    repeat case_decide; simplify_eq/=;
    try (apply lookup_union_Some_raw in Hk as [Hk|[_ Hk]]);
    try (by rewrite lookup_empty in Hk); auto.
Qed.
End built_attributes.

(** ** When the build completes *)

Lemma add_node_kwargs_clash cols (row : gmap string string) G :
  row_item row "name" ≠ "" →
  (clashes cols row ∧
   add_node_kwargs (row_item row "name") (row_attrs cols row) G = Raise TypeError) ∨
  (¬ clashes cols row ∧
   add_node_kwargs (row_item row "name") (row_attrs cols row) G
     = Ok (add_node (row_item row "name") (row_attrs cols row) G)).
Proof.
  intros Hname. unfold add_node_kwargs, clashes. rewrite !row_attrs_lookup.
  case_decide as Hclash; [by left|]. right. split; [|done]. by intros [_ ?].
Qed.

Lemma node_loop_completes cols rws G :
  completes (node_loop cols rws G) ↔ Forall (λ r, ¬ clashes cols r) rws.
Proof.
  revert G. induction rws as [|row rws IH]; intros G; simpl.
  - split; [done|]. intros _. by exists G.
  - rewrite Forall_cons. case_decide as Hname.
    + rewrite IH. split; [|by intros [_ ?]]. intros ?. split; [|done].
      by intros [? _].
    + destruct (add_node_kwargs_clash cols row G Hname) as [[Hc ->]|[Hc ->]]; simpl.
      * split; [by intros [? ?]|by intros [? _]].
      * rewrite IH. tauto.
Qed.

Lemma node_loop_raises cols rws G e :
  node_loop cols rws G = Raise e → e = TypeError.
Proof.
  revert G. induction rws as [|row rws IH]; intros G; simpl; [done|].
  case_decide as Hname; [apply IH|].
  destruct (add_node_kwargs_clash cols row G Hname) as [[_ ->]|[_ ->]]; simpl.
  - by intros [= <-].
  - apply IH.
Qed.

Section completion.
Context `{PyLib}.

Lemma exposure_step_completes st (row : gmap string string) :
  completes (exposure_step st row) ↔ tolerated row.
Proof.
  unfold exposure_step, tolerated, caught, completes.
  destruct (row_exposed row) as [[]|e] eqn:Hrow.
  - split; [by intros _ e' [=]|intros _; by eexists].
  - split; [by intros _ e' [=]|intros _; by eexists].
  - destruct e.
    + split; [by intros [? ?]|]. intros Hc. by destruct (Hc _ eq_refl).
    + split; [intros _ e' [= <-]; by left|intros _; by eexists].
    + split; [intros _ e' [= <-]; by right|intros _; by eexists].
    + split; [by intros [? ?]|]. intros Hc. by destruct (Hc _ eq_refl).
    + split; [by intros [? ?]|]. intros Hc. by destruct (Hc _ eq_refl).
Qed.

Lemma exposure_step_raises st (row : gmap string string) e :
  exposure_step st row = Raise e → row_exposed row = Raise e ∧ ¬ caught e.
Proof.
  unfold exposure_step, caught.
  destruct (row_exposed row) as [[]|[]]; try done; intros [= <-];
    (split; [done|]); by intros [?|?].
Qed.

Lemma exposure_loop_completes rws st :
  completes (exposure_loop rws st) ↔ Forall tolerated rws.
Proof.
  revert st. induction rws as [|row rws IH]; intros st; simpl.
  - split; [done|]. intros _. by exists st.
  - rewrite Forall_cons, <-(exposure_step_completes st row).
    destruct (exposure_step st row) as [st'|e]; simpl.
    + rewrite IH. split; [|by intros [_ ?]]. intros ?. split; [by eexists|done].
    + split; [by intros [? ?]|by intros [[? ?] _]].
Qed.

Lemma exposure_loop_raises rws st e :
  exposure_loop rws st = Raise e →
  ∃ r, r ∈ rws ∧ row_exposed r = Raise e ∧ ¬ caught e.
Proof.
  revert st. induction rws as [|row rws IH]; intros st; simpl; [done|].
  destruct (exposure_step st row) as [st'|e'] eqn:Hstep; simpl.
  - intros (r & Hr & ?)%IH. exists r. split; [by right|done].
  - intros [= ->]. apply exposure_step_raises in Hstep. exists row. split; [by left|done].
Qed.

(** X5: the build returns a graph exactly when the header has the columns
    [id] and [name], no named row fills a column called [self] or
    [node_for_adding], and no row's exposure check raises an exception
    other than the two that are caught.  When it fails, the exception is
    [SystemExit], the [TypeError] of the node pass, or the uncaught
    exception of some row's exposure check. *)
Theorem build_completes_iff (df : DataFrame) :
  (completes (build_graph_from_csv df) ↔
   "id" ∈ columns df ∧ "name" ∈ columns df ∧
   Forall (λ r, ¬ clashes (columns df) r) (rows df) ∧
   Forall tolerated (rows df)) ∧
  (∀ e, build_graph_from_csv df = Raise e →
        e = SystemExit ∨ e = TypeError ∨
        ∃ r, r ∈ rows df ∧ row_exposed r = Raise e ∧ ¬ caught e).
Proof.
  unfold build_graph_from_csv, reference_graph. split.
  - case_decide as Hcols; [|split; [by intros [? ?]|tauto]].
    rewrite <-(node_loop_completes (columns df) (rows df) empty_graph).
    destruct (node_loop (columns df) (rows df) empty_graph) as [Gn|e]; simpl.
    + rewrite <-(exposure_loop_completes (rows df)
                  (reference_loop (id_to_name df) (candidate_ids df)
                     (search_columns df) (rows df) Gn, false)).
      destruct (exposure_loop _ _) as [st|e]; simpl.
      * split; [|intros _; by eexists]. intros _. destruct Hcols.
        split_and!; [done|done|by eexists|by eexists].
      * split; [by intros [? ?]|by intros (_ & _ & _ & [? ?])].
    + split; [by intros [? ?]|by intros (_ & _ & [? ?] & _)].
  - intros e. case_decide as Hcols; [|intros [= <-]; by left].
    destruct (node_loop (columns df) (rows df) empty_graph) as [Gn|e'] eqn:Hloop; simpl.
    + destruct (exposure_loop _ _) as [st|e'] eqn:Hexp; simpl; [done|].
      intros [= ->]. right; right. by apply exposure_loop_raises in Hexp.
    + intros [= ->]. right; left. by apply node_loop_raises in Hloop.
Qed.

(** ** Security groups that abort the build *)

Lemma rule_open_raises (rule : pyval) e :
  rule_open rule = Raise e → e = AttributeError.
Proof.
  unfold rule_open. destruct rule as [| | | | |items]; simpl; try by intros [= <-].
  destruct (default (PDict []) (dict_get "properties" items))
    as [| | | | |rule_props]; simpl; try by intros [= <-].
  destruct (default (PStr "") (dict_get "direction" rule_props))
    as [| | |d| |]; simpl; try by intros [= <-].
  case_decide; [|done].
  destruct (default (PStr "") (dict_get "access" rule_props))
    as [| | |a| |]; simpl; try by intros [= <-].
  case_decide; [|done].
  destruct (default (PStr "") (dict_get "sourceAddressPrefix" rule_props))
    as [| | |s| |]; simpl; by intros [= <-].
Qed.

Lemma any_rule_open_raises (rules : list pyval) e :
  any_rule_open rules = Raise e → e = AttributeError.
Proof.
  induction rules as [|r rules IH]; simpl; [done|].
  destruct (rule_open r) as [[]|e'] eqn:Hr; simpl; [done|apply IH|].
  intros [= <-]. by apply rule_open_raises in Hr.
Qed.

Lemma iterate_rules_raises (v : pyval) e :
  py_iter v ≫= any_rule_open = Raise e →
  (e = TypeError ∧ not_iterable v) ∨ e = AttributeError.
Proof.
  destruct v; simpl; try (intros [= <-]; by left);
    intros ?%any_rule_open_raises; by right.
Qed.

Lemma iterate_rules_not_iterable (v : pyval) :
  not_iterable v → py_iter v ≫= any_rule_open = Raise TypeError.
Proof. by destruct v. Qed.

(** X6: a security-group row whose [properties] parses aborts the build
    exactly when the parsed value is a dict whose [securityRules] is
    [null], a boolean or a number; the exception is then a [TypeError].
    Every other malformed value is passed over. *)
Theorem nsg_row_aborts_iff (row : gmap string string) (properties : pyval)
    (st : DiGraph * bool) :
  str_lower (row_get row "type" "") = "microsoft.network/networksecuritygroups" →
  json_loads (row_get row "properties" "{}") = Ok properties →
  ((∃ e, exposure_step st row = Raise e) ↔
   ∃ items v, properties = PDict items ∧
              dict_get "securityRules" items = Some v ∧ not_iterable v) ∧
  (∀ e, exposure_step st row = Raise e → e = TypeError).
Proof.
  intros Htype Hload.
  assert (row_exposed row =
          rules ← py_get properties "securityRules" (PList []);
          py_iter rules ≫= any_rule_open) as Hrow.
  { unfold row_exposed, is_exposed. rewrite Htype, Hload. simpl. done. }
  unfold exposure_step. rewrite Hrow. clear Hrow.
  destruct properties as [| | | | |items]; simpl;
    try (split; [split; [by intros [? ?]|by intros (? & ? & ? & _)]|done]).
  assert ((∃ items0 v, PDict items = PDict items0 ∧
                       dict_get "securityRules" items0 = Some v ∧ not_iterable v)
          ↔ not_iterable (default (PList []) (dict_get "securityRules" items))) as ->.
  { split.
    - intros (? & v & [= <-] & -> & ?). done.
    - destruct (dict_get "securityRules" items) as [v|] eqn:Hv; [|done].
      intros ?. by exists items, v. }
  generalize (default (PList []) (dict_get "securityRules" items)). intros v.
  destruct (py_iter v ≫= any_rule_open) as [[]|e] eqn:Hout.
  - split; [split; [by intros [? ?]|]|done].
    intros Hv%iterate_rules_not_iterable. congruence.
  - split; [split; [by intros [? ?]|]|done].
    intros Hv%iterate_rules_not_iterable. congruence.
  - apply iterate_rules_raises in Hout as Hcase. destruct Hcase as [[-> Hv]| ->].
    + split; [split; [done|by eexists]|by intros e [= <-]].
    + split; [split; [by intros [? ?]|]|done].
      intros Hv%iterate_rules_not_iterable. congruence.
Qed.
End completion.

(** ** Rows of other types, and the order of the rows *)

Section exposure_more.
Context `{PyLib}.

Lemma other_type_not_exposed (row : gmap string string) :
  str_lower (row_get row "type" "") ≠ "microsoft.network/networksecuritygroups" →
  str_lower (row_get row "type" "") ≠ "microsoft.storage/storageaccounts" →
  row_exposed row ≠ Ok true.
Proof.
  intros Hnsg Hst. unfold row_exposed, is_exposed.
  destruct (json_loads _); simpl; [|done]. by rewrite !decide_False.
Qed.

(** X7: when no row has the type of a security group or of a storage
    account, a build that returns a graph returns the reference graph: the
    exposure pass creates no Internet node and adds no edge, whatever the
    [properties] of the rows hold. *)
Theorem only_two_types_are_exposed (df : DataFrame) (G : DiGraph) :
  Forall (λ r, str_lower (row_get r "type" "") ≠ "microsoft.network/networksecuritygroups" ∧
               str_lower (row_get r "type" "") ≠ "microsoft.storage/storageaccounts")
    (rows df) →
  build_graph_from_csv df = Ok G →
  reference_graph df = Ok G ∧
  (is_Some (nodes G !! internet_node_name) →
   ∃ r, r ∈ rows df ∧ row_item r "name" = internet_node_name).
Proof.
  intros Htypes Hbuild.
  assert (exposed_rows (rows df) = []) as Hnil.
  { destruct (exposed_rows (rows df)) as [|r ers] eqn:Hers; [done|].
    assert (r ∈ exposed_rows (rows df)) as [Hr Hex]%exposed_rows_elem
      by (rewrite Hers; by left).
    rewrite Forall_forall in Htypes. destruct (Htypes r Hr) as [Hnsg Hst].
    by destruct (other_type_not_exposed r Hnsg Hst). }
  destruct (build_closed _ _ Hbuild) as (Gr & Href & _ & HG).
  rewrite decide_True in HG by done. subst Gr. split; [done|].
  intros [?|(r & Hr & Hex & _)]%(built_nodes_iff df G _ Hbuild).
  - tauto.
  - assert (r ∈ exposed_rows (rows df)) as Hin by (by apply exposed_rows_elem).
    rewrite Hnil in Hin. by apply elem_of_nil in Hin.
Qed.

Lemma link_exposed_Permutation G (ers ers' : list (gmap string string)) :
  ers ≡ₚ ers' → link_exposed G ers = link_exposed G ers'.
Proof.
  intros Hperm. apply DiGraph_eq.
  - apply map_eq. intros n. rewrite !link_exposed_lookup. apply decide_ext.
    rewrite !Exists_exists.
    assert (ers ≠ [] ↔ ers' ≠ []) as ->.
    { split; intros Hne ->; apply Hne.
      - by apply Permutation_nil_r in Hperm.
      - symmetry. by apply Permutation_nil_l in Hperm. }
    by setoid_rewrite Hperm.
  - apply set_eq. intros [u v]. rewrite !link_exposed_edges. by setoid_rewrite Hperm.
Qed.

(** X8: the exposure pass does not depend on the order of the rows: when
    it completes on a sequence of rows, it completes with the same graph
    and flag on every rearrangement of the sequence. *)
Theorem exposure_pass_order_independent (rws rws' : list (gmap string string))
    (G : DiGraph) (has_internet_node : bool) (st : DiGraph * bool) :
  rws ≡ₚ rws' →
  exposure_loop rws (G, has_internet_node) = Ok st →
  exposure_loop rws' (G, has_internet_node) = Ok st.
Proof.
  intros Hperm Hloop.
  assert (completes (exposure_loop rws' (G, has_internet_node))) as [[G' has'] Hloop'].
  { apply exposure_loop_completes. rewrite <-Hperm.
    apply (exposure_loop_completes rws (G, has_internet_node)). by eexists. }
  rewrite Hloop'. f_equal. destruct st as [G0 has0].
  apply exposure_loop_closed in Hloop. apply exposure_loop_closed in Hloop'.
  assert (exposed_rows rws ≡ₚ exposed_rows rws') as Hers.
  { unfold exposed_rows. by rewrite Hperm. }
  destruct (decide (exposed_rows rws = [])) as [Hnil|Hnil].
  - assert (exposed_rows rws' = []) as Hnil'.
    { rewrite Hnil in Hers. symmetry. by apply Permutation_nil_l in Hers. }
    rewrite decide_True in Hloop' by done.
    destruct Hloop as [-> ->], Hloop' as [-> ->]. done.
  - assert (exposed_rows rws' ≠ []) as Hnil'.
    { intros Hnil'. rewrite Hnil' in Hers. by apply Permutation_nil_r in Hers. }
    rewrite decide_False in Hloop' by done.
    destruct Hloop as [-> ->], Hloop' as [-> ->].
    by rewrite (link_exposed_Permutation _ _ _ Hers).
Qed.
End exposure_more.

(** ** References are found cell by cell *)

Lemma contains_space_cons (a : ascii) (x : string) :
  contains " " (String a x) = false → String a EmptyString ≠ " " ∧ contains " " x = false.
Proof.
  simpl. intros [Hhead Htail]%orb_false_iff. split; [|done].
  intros [= ->]. by rewrite decide_True in Hhead.
Qed.

Lemma startswith_before_space (x p rest : string) :
  contains " " x = false →
  startswith x (p +:+ " " +:+ rest) = true → startswith x p = true.
Proof.
  revert p. induction x as [|a x IH]; intros p Hx Hstart; [done|].
  apply contains_space_cons in Hx as [Ha Hx].
  destruct p as [|b p]; simpl in *.
  - case_decide as Heq; [|done]. by subst.
  - case_decide; [|done]. by apply IH.
Qed.

Lemma contains_around_space (x p rest : string) :
  contains " " x = false →
  contains x (p +:+ " " +:+ rest) = true →
  contains x p = true ∨ contains x rest = true.
Proof.
  intros Hx. induction p as [|b p IH]; intros Hin.
  - change (contains x (String " " rest) = true) in Hin. simpl in Hin.
    apply orb_true_iff in Hin as [Hin|Hin]; [|by right].
    left. destruct x as [|a x]; [done|].
    apply contains_space_cons in Hx as [Ha _]. simpl in Hin.
    case_decide as Heq; [|done]. by subst.
  - change (contains x (String b (p +:+ " " +:+ rest)) = true) in Hin.
    simpl in Hin. apply orb_true_iff in Hin as [Hin|Hin].
    + left. change (contains x (String b p)) with
        (startswith x (String b p) || contains x p).
      apply orb_true_iff. left.
      by apply (startswith_before_space x (String b p) rest).
    + destruct (IH Hin) as [Hp|Hrest]; [|by right].
      left. simpl. apply orb_true_iff. by right.
Qed.

Lemma contains_join_space (x : string) (parts : list string) :
  contains " " x = false → x ≠ "" →
  contains x (join " " parts) = true → ∃ p, p ∈ parts ∧ contains x p = true.
Proof.
  intros Hx Hne. induction parts as [|q parts IH]; intros Hin.
  - simpl in Hin. by destruct x.
  - destruct parts as [|q' parts].
    + exists q. split; [by left|done].
    + change (contains x (q +:+ " " +:+ join " " (q' :: parts)) = true) in Hin.
      destruct (contains_around_space _ _ _ Hx Hin) as [Hq|Hrest].
      * exists q. split; [by left|done].
      * destruct (IH Hrest) as (p & Hp & Hin'). exists p. split; [by right|done].
Qed.

(** X9: an id without a space is found in the joined text of a row only
    where it is found inside one cell of a search column, so that the edges
    of the reference graph are those that single cells justify.  The search
    columns are the recognised columns of the header or, when it has none,
    its columns of dtype [object]. *)
Theorem reference_edge_from_one_cell (df : DataFrame) (Gr : DiGraph) (u v : string) :
  reference_graph df = Ok Gr →
  Forall (λ cid, contains " " cid = false) (candidate_ids df) →
  (u, v) ∈ edges Gr ↔ ∃ row, row ∈ rows df ∧ cell_refers df row u v.
Proof.
  intros Href Hspace.
  destruct (reference_graph_inv _ _ Href) as (Hedges & _ & _). rewrite Hedges.
  split; intros (row & Hrow & Hname & Hu & Hrest); exists row; (split; [done|]);
    (split; [done|]); (split; [done|]).
  - destruct Hrest as (cid & Hcid & Hown & Hin & Hget & Hv).
    assert (cid ≠ "") as Hne.
    { unfold id_to_name in Hget. rewrite id_to_name_of_index in Hget.
      by apply index_of_source in Hget as [?|(_ & _ & _ & ? & _)]. }
    rewrite Forall_forall in Hspace.
    destruct (contains_join_space _ _ (Hspace cid Hcid) Hne Hin) as (p & Hp & Hin').
    apply list_elem_of_fmap in Hp as (c & -> & Hc).
    by exists cid, c.
  - destruct Hrest as (cid & c & Hcid & Hown & Hc & Hin & Hget & Hv).
    exists cid. split; [done|]. split_and!; [done| |done|done].
    by apply (contains_hay _ c).
Qed.

(** * Properties of the export *)

(** ** Node styles *)

Section style_facts.
Context `{PyLib} (net_data_url : string).

Lemma node_style_spec (node_type : string) :
  let style := _get_node_style net_data_url node_type in
  let found := first_keyword (str_lower node_type) (style_icons net_data_url) in
  style !! "shape" = Some (PStr "image") ∧
  style !! "image" = Some (PStr (from_option snd default_data_url found)) ∧
  style !! "size" = Some (PNum (match found with
                                | None => "25"
                                | Some (k, _) => if decide (k = "internet") then "40" else "30"
                                end)) ∧
  dom style = (match found with
               | Some _ => {[ "shape"; "image"; "size"; "shapeProperties" ]}
               | None => {[ "shape"; "image"; "size" ]}
               end : gset string).
Proof.
  unfold _get_node_style, style_icons, first_keyword. cbn [fst snd].
  repeat match goal with
         | |- context [if contains ?k ?t then _ else _] => destruct (contains k t)
         end;
    (split_and!; [done..|]);
    unfold with_image, base_style; rewrite !dom_insert_L, dom_empty_L; set_solver.
Qed.

(** X10: the style of a node is decided by the first keyword, in the order
    extensions, internet, virtualmachine, ..., virtualnetworks, that occurs
    in the lower-cased type: the shape is always an image, the image is the
    icon of that keyword (the default icon when there is none), the size is
    40 for internet, 25 without a keyword and 30 otherwise, and
    [shapeProperties] is set exactly when a keyword occurs. *)
Theorem node_style_by_first_keyword (node_type : string) :
  let style := _get_node_style net_data_url node_type in
  let found := first_keyword (str_lower node_type) (style_icons net_data_url) in
  style !! "shape" = Some (PStr "image") ∧
  style !! "image" = Some (PStr (from_option snd default_data_url found)) ∧
  style !! "size" = Some (PNum (match found with
                                | None => "25"
                                | Some (k, _) => if decide (k = "internet") then "40" else "30"
                                end)) ∧
  dom style = (match found with
               | Some _ => {[ "shape"; "image"; "size"; "shapeProperties" ]}
               | None => {[ "shape"; "image"; "size" ]}
               end : gset string).
Proof.
  unfold _get_node_style, style_icons, first_keyword. cbn [fst snd].
  repeat match goal with
         | |- context [if contains ?k ?t then _ else _] => destruct (contains k t)
         end;
    (split_and!; [done..|]);
    unfold with_image, base_style; rewrite !dom_insert_L, dom_empty_L; set_solver.
Qed.
End style_facts.

(** ** Colours of the node types *)

Lemma color_get_elem (t : attr) (d : list (attr * string)) :
  is_Some (color_get t d) ↔ t ∈ d.*1.
Proof.
  induction d as [|[t' c'] d IH]; simpl.
  - split; [by intros [? ?] | by intros ?%elem_of_nil].
  - rewrite elem_of_cons. case_decide as Heq.
    + split; [by left | by eexists].
    + rewrite IH. split; [by right | by intros [?|?]].
Qed.

Lemma color_get_lookup (t : attr) (c : string) (d : list (attr * string)) :
  color_get t d = Some c → ∃ k, d !! k = Some (t, c).
Proof.
  induction d as [|[t' c'] d IH]; simpl; [done|].
  case_decide as Heq.
  - intros [= ->]. subst. by exists 0.
  - intros (k & Hk)%IH. by exists (S k).
Qed.

Lemma lookup_color_get (k : nat) (t : attr) (c : string) (d : list (attr * string)) :
  NoDup d.*1 → d !! k = Some (t, c) → color_get t d = Some c.
Proof.
  revert k. induction d as [|[t' c'] d IH]; intros k Hnd Hk; [done|].
  apply NoDup_cons in Hnd as [Hnotin Hnd]. simpl.
  destruct k as [|k]; simpl in Hk.
  - injection Hk as -> ->. by rewrite decide_True.
  - rewrite decide_False; [by apply (IH k)|].
    intros ->. apply Hnotin. apply list_elem_of_fmap. exists (t', c).
    split; [done|]. by apply list_elem_of_lookup_2 in Hk.
Qed.

(** The invariant of the first loop of [export_interactive]. *)
Lemma color_step_colored (d : list (attr * string)) (n : string * gmap string attr) :
  NoDup d.*1 →
  (∀ k t c, d !! k = Some (t, c) → c = palette !!! (k mod length palette)) →
  NoDup (color_step d n).*1 ∧
  (∀ k t c, color_step d n !! k = Some (t, c) → c = palette !!! (k mod length palette)) ∧
  d `prefix_of` color_step d n ∧
  (∀ t, t ∈ (color_step d n).*1 ↔ t ∈ d.*1 ∨ t = node_type_of n.2).
Proof.
  intros Hnd Hcol. unfold color_step.
  destruct (color_get (node_type_of n.2) d) as [c|] eqn:Hget.
  - split_and!; [done..|].
    intros t. split; [by left|]. intros [?| ->]; [done|].
    apply color_get_elem. by eexists.
  - assert (node_type_of n.2 ∉ d.*1) as Hnotin.
    { intros Hin%color_get_elem. rewrite Hget in Hin. by destruct Hin. }
    split_and!.
    + rewrite fmap_app. apply NoDup_app. split_and!; [done | |apply NoDup_singleton].
      intros t Ht ->%list_elem_of_singleton. done.
    + intros k t c Hk. apply lookup_app_Some in Hk as [Hk|[Hge Hk]]; [by eapply Hcol|].
      apply list_lookup_singleton_Some in Hk as [Hk [= <- <-]].
      by replace k with (length d) by lia.
    + by apply prefix_app_r.
    + intros t. rewrite fmap_app, elem_of_app. simpl.
      by rewrite list_elem_of_singleton.
Qed.

Lemma color_loop_colored (d : list (attr * string))
    (nodes_data : list (string * gmap string attr)) :
  NoDup d.*1 →
  (∀ k t c, d !! k = Some (t, c) → c = palette !!! (k mod length palette)) →
  let d' := foldl color_step d nodes_data in
  NoDup d'.*1 ∧
  (∀ k t c, d' !! k = Some (t, c) → c = palette !!! (k mod length palette)) ∧
  d `prefix_of` d' ∧
  (∀ t, t ∈ d'.*1 ↔ t ∈ d.*1 ∨ ∃ n, n ∈ nodes_data ∧ node_type_of n.2 = t).
Proof.
  revert d. induction nodes_data as [|n nodes_data IH]; intros d Hnd Hcol; simpl.
  - split_and!; [done..|]. intros t. split; [by left|].
    by intros [?|(? & ?%elem_of_nil & _)].
  - destruct (color_step_colored d n Hnd Hcol) as (Hnd' & Hcol' & Hpre & Helem).
    destruct (IH _ Hnd' Hcol') as (Hnd'' & Hcol'' & Hpre' & Helem').
    split_and!; [done|done|by etrans|].
    intros t. rewrite Helem', Helem. split.
    + intros [[?| ->]|(n' & ? & ?)]; [by left| |].
      * right. exists n. split; [by left|done].
      * right. exists n'. split; [by right|done].
    + intros [?|(n' & [->|?]%elem_of_cons & ?)]; [by left; left|by left; right|].
      right. by exists n'.
Qed.

Lemma type_to_color_colored
    (nodes_data more : list (string * gmap string attr)) :
  let d := type_to_color nodes_data in
  NoDup d.*1 ∧
  (∀ t, t ∈ d.*1 ↔ ∃ n, n ∈ nodes_data ∧ node_type_of n.2 = t) ∧
  (∀ k t c, d !! k = Some (t, c) →
            c = palette !!! (k mod length palette) ∧ color_get t d = Some c) ∧
  d `prefix_of` type_to_color (nodes_data ++ more).
Proof.
  unfold type_to_color.
  destruct (color_loop_colored [] nodes_data) as (Hnd & Hcol & _ & Helem);
    [apply NoDup_nil_2 | done |].
  split_and!.
  - done.
  - intros t. rewrite Helem. split; [|by right]. by intros [?%elem_of_nil|?].
  - intros k t c Hk. split; [by eapply Hcol | by eapply lookup_color_get].
  - rewrite foldl_app.
    by destruct (color_loop_colored (foldl color_step [] nodes_data) more Hnd Hcol)
      as (_ & _ & Hpre & _).
Qed.

(** X11: the first loop of the export gives every node type one colour, in
    the order in which the types first appear among the nodes: the type at
    position [k] has the colour [palette[k % 6]], every type of a node has a
    colour, and nodes that follow never change a colour already given. *)
Theorem type_colors_by_first_appearance
    (nodes_data more : list (string * gmap string attr)) :
  let d := type_to_color nodes_data in
  NoDup d.*1 ∧
  (∀ t, t ∈ d.*1 ↔ ∃ n, n ∈ nodes_data ∧ node_type_of n.2 = t) ∧
  (∀ k t c, d !! k = Some (t, c) →
            c = palette !!! (k mod length palette) ∧ color_get t d = Some c) ∧
  d `prefix_of` type_to_color (nodes_data ++ more).
Proof.
  unfold type_to_color.
  destruct (color_loop_colored [] nodes_data) as (Hnd & Hcol & _ & Helem);
    [apply NoDup_nil_2 | done |].
  split_and!.
  - done.
  - intros t. rewrite Helem. split; [|by right]. by intros [?%elem_of_nil|?].
  - intros k t c Hk. split; [by eapply Hcol | by eapply lookup_color_get].
  - rewrite foldl_app.
    by destruct (color_loop_colored (foldl color_step [] nodes_data) more Hnd Hcol)
      as (_ & _ & Hpre & _).
Qed.

Lemma palette_NoDup : NoDup palette.
Proof. apply (bool_decide_unpack _). by vm_compute. Qed.

(** X12: with at most six node types the colours tell the types apart;
    from the seventh type on they no longer do, the seventh type getting the
    colour of the first. *)
Theorem colors_distinct_up_to_six_types (nodes_data : list (string * gmap string attr)) :
  let d := type_to_color nodes_data in
  (length d ≤ length palette →
   ∀ t1 t2 c, color_get t1 d = Some c → color_get t2 d = Some c → t1 = t2) ∧
  (length palette < length d →
   ∃ t1 t7 c, d.*1 !! 0 = Some t1 ∧ d.*1 !! 6 = Some t7 ∧ t1 ≠ t7 ∧
              color_get t1 d = Some c ∧ color_get t7 d = Some c).
Proof.
  destruct (type_to_color_colored nodes_data []) as (Hnd & _ & Hcol & _).
  cbv zeta. change (length palette) with 6. split.
  - intros Hlen t1 t2 c (k1 & Hk1)%color_get_lookup (k2 & Hk2)%color_get_lookup.
    pose proof (lookup_lt_Some _ _ _ Hk1) as Hlt1.
    pose proof (lookup_lt_Some _ _ _ Hk2) as Hlt2.
    destruct (Hcol _ _ _ Hk1) as [Hc1 _]. destruct (Hcol _ _ _ Hk2) as [Hc2 _].
    change (length palette) with 6 in Hc1, Hc2.
    rewrite Nat.mod_small in Hc1, Hc2 by lia.
    assert (k1 = k2) as ->.
    { apply (NoDup_lookup palette k1 k2 c palette_NoDup).
      - rewrite Hc1. apply list_lookup_lookup_total_lt. simpl. lia.
      - rewrite Hc2. apply list_lookup_lookup_total_lt. simpl. lia. }
    congruence.
  - intros Hlen.
    destruct (lookup_lt_is_Some_2 (type_to_color nodes_data) 0) as [[t1 c1] H1]; [lia|].
    destruct (lookup_lt_is_Some_2 (type_to_color nodes_data) 6) as [[t7 c7] H7]; [lia|].
    destruct (Hcol _ _ _ H1) as [Hc1 Hg1]. destruct (Hcol _ _ _ H7) as [Hc7 Hg7].
    exists t1, t7, c1. rewrite !list_lookup_fmap, H1, H7. split_and!; [done|done| |done|].
    + intros ->.
      assert (0 = 6) as Heq; [|done].
      apply (NoDup_lookup _ 0 6 t7 Hnd); by rewrite list_lookup_fmap, ?H1, ?H7.
    + by rewrite Hg7, Hc7, Hc1.
Qed.

(** ** The keywords of an exported node *)

Section export_facts.
Context `{PyLib} (net_data_url : string) (num_truthy : string → bool).

Lemma style_lookup_None (node_type k : string) :
  k ≠ "shape" → k ≠ "image" → k ≠ "size" → k ≠ "shapeProperties" →
  _get_node_style net_data_url node_type !! k = None.
Proof.
  intros ? ? ? ?. apply not_elem_of_dom.
  destruct (node_style_spec net_data_url node_type) as (_ & _ & _ & ->).
  destruct (first_keyword _ _);
    by rewrite !not_elem_of_union, !not_elem_of_singleton.
Qed.

Lemma ui_fields_lookup_None (name : string) (data : gmap string attr) (color k : string) :
  k ≠ "label" → k ≠ "details" → k ≠ "color" → k ≠ "group" → k ≠ "resourceGroup" →
  ui_fields name data color !! k = None.
Proof.
  intros ? ? ? ? ?. unfold ui_fields. by rewrite !lookup_insert_ne, lookup_empty.
Qed.

(** A key that is none of the listed ones. *)
Ltac other_key :=
  first [ discriminate
        | match goal with
          | H : ?k ∉ _ |- ?k ≠ _ =>
              intros ->; apply H; apply (bool_decide_unpack _); vm_compute; exact I
          end ].

Lemma add_power_state_lookup (data : gmap string attr) (lowered : string)
    (node_attrs node_attrs' : gmap string pyval) (k : string) :
  add_power_state num_truthy data lowered node_attrs = Ok node_attrs' →
  k ≠ "powerState" → node_attrs' !! k = node_attrs !! k.
Proof.
  unfold add_power_state. intros Hadd Hk. case_decide; [|by simplify_eq].
  destruct (_ ≫= power_state) as [state|[]]; simplify_eq; [|done..].
  destruct (py_truthy num_truthy state); [|done]. by rewrite lookup_insert_ne.
Qed.

Lemma export_node_lookup (colors : list (attr * string)) (name name' : string)
    (data : gmap string attr) (attrs : gmap string pyval) :
  export_node net_data_url num_truthy colors (name, data) = Ok (name', attrs) →
  ∃ lowered node_attrs,
    attr_lower (node_type_of data) = Ok lowered ∧
    add_power_state num_truthy data lowered ((λ v, PStr (attr_str v)) <$> data)
      = Ok node_attrs ∧
    name' = name ∧
    attrs = _get_node_style net_data_url (attr_str (node_type_of data))
            ∪ (ui_fields name data (default "#888" (color_get (node_type_of data) colors))
               ∪ node_attrs).
Proof.
  unfold export_node. intros Hexp.
  destruct (attr_lower (node_type_of data)) as [lowered|] eqn:Hlow; [|done].
  simpl in Hexp.
  destruct (add_power_state num_truthy data lowered _) as [node_attrs|] eqn:Hadd; [|done].
  simpl in Hexp. injection Hexp as <- <-. by exists lowered, node_attrs.
Qed.

(** X13: what the export passes to pyvis for a node.  The fields label,
    details, color, group and resourceGroup and the style of the node type
    override attributes of the same name that come from the CSV; group and
    resourceGroup carry the attribute itself (resourceGroup is None when the
    node has none), every other attribute is passed as its string. *)
Theorem exported_node_fields (colors : list (attr * string)) (name name' : string)
    (data : gmap string attr) (attrs : gmap string pyval) :
  export_node net_data_url num_truthy colors (name, data) = Ok (name', attrs) →
  name' = name ∧
  attrs !! "label" = Some (PStr name) ∧
  attrs !! "details" = Some (PStr (title name data)) ∧
  attrs !! "color" = Some (PStr (default "#888" (color_get (node_type_of data) colors))) ∧
  attrs !! "group" = Some (attr_val (node_type_of data)) ∧
  attrs !! "resourceGroup" = Some (from_option attr_val PNone (data !! "resourceGroup")) ∧
  (∀ k v, _get_node_style net_data_url (attr_str (node_type_of data)) !! k = Some v →
          attrs !! k = Some v) ∧
  (∀ k, k ∉ export_keys → attrs !! k = (λ v, PStr (attr_str v)) <$> data !! k).
Proof.
  intros (lowered & node_attrs & _ & Hadd & -> & ->)%export_node_lookup.
  assert (∀ k v, k ≠ "shape" ∧ k ≠ "image" ∧ k ≠ "size" ∧ k ≠ "shapeProperties" →
            ui_fields name data (default "#888" (color_get (node_type_of data) colors))
              !! k = Some v →
            (_get_node_style net_data_url (attr_str (node_type_of data))
             ∪ (ui_fields name data (default "#888" (color_get (node_type_of data) colors))
                ∪ node_attrs)) !! k = Some v) as Hui.
  { intros k v (? & ? & ? & ?) Hv. rewrite lookup_union_r by (by apply style_lookup_None).
    by apply lookup_union_Some_l. }
  split_and!; [done|try (by apply Hui)..| |].
  - intros k v Hk. by apply lookup_union_Some_l.
  - intros k Hk.
    rewrite lookup_union_r by (apply style_lookup_None; other_key).
    rewrite lookup_union_r by (apply ui_fields_lookup_None; other_key).
    rewrite (add_power_state_lookup _ _ _ _ _ Hadd) by other_key.
    by rewrite lookup_fmap.
Qed.

Lemma power_state_raises (props : pyval) (e : exn) :
  power_state props = Raise e → e = AttributeError.
Proof.
  unfold power_state, py_get. intros Hraise.
  repeat (match goal with
          | H : context [match ?v with PDict _ => _ | _ => _ end] |- _ => destruct v
          end; simpl in *; simplify_eq; try done).
Qed.

Lemma power_state_display (props v : pyval) :
  display_status props v → power_state props = Ok v.
Proof.
  intros (top & extended & instance_view & state & -> & Hext & Hview & Hstate & Hv).
  unfold power_state, py_get. rewrite Hext. simpl. rewrite Hview. simpl.
  rewrite Hstate. simpl. by rewrite Hv.
Qed.

Lemma power_state_truthy (props state : pyval) :
  power_state props = Ok state → py_truthy num_truthy state = true →
  display_status props state.
Proof.
  unfold power_state. intros Hstate Htruthy.
  destruct props as [| | | | |top]; try done. simpl in Hstate.
  destruct (dict_get "extended" top) as [[| | | | |extended]|] eqn:Hext;
    simpl in Hstate; try done.
  2:{ by injection Hstate as <-. }
  destruct (dict_get "instanceView" extended) as [[| | | | |instance_view]|] eqn:Hview;
    simpl in Hstate; try done.
  2:{ by injection Hstate as <-. }
  destruct (dict_get "powerState" instance_view) as [[| | | | |st]|] eqn:Hst;
    simpl in Hstate; try done.
  2:{ by injection Hstate as <-. }
  destruct (dict_get "displayStatus" st) as [v|] eqn:Hv; simpl in Hstate.
  2:{ by injection Hstate as <-. }
  injection Hstate as <-. by exists top, extended, instance_view, st.
Qed.

(** X14: the key powerState of an exported node.  When the node's type
    lower-cases to "microsoft.compute/virtualmachines" and its properties
    parse to an object in which extended, instanceView and powerState are
    nested objects and displayStatus is a truthy value, the key holds that
    value.  When there is no such truthy value (another type, properties
    that do not parse, a level that is missing or not an object, a falsy
    status), the key is the node's own attribute powerState as a string, if
    it has one, and is absent otherwise. *)
Theorem exported_power_state (colors : list (attr * string)) (name name' : string)
    (data : gmap string attr) (attrs : gmap string pyval) :
  export_node net_data_url num_truthy colors (name, data) = Ok (name', attrs) →
  (∀ v, vm_display_status data v → py_truthy num_truthy v = true →
        attrs !! "powerState" = Some v) ∧
  ((∀ v, vm_display_status data v → py_truthy num_truthy v = false) →
   attrs !! "powerState" = (λ a, PStr (attr_str a)) <$> data !! "powerState").
Proof.
  intros (lowered & node_attrs & Hlow & Hadd & -> & ->)%export_node_lookup.
  rewrite lookup_union_r by (by apply style_lookup_None).
  rewrite lookup_union_r by (by apply ui_fields_lookup_None).
  unfold node_type_of in Hlow.
  destruct (default (AStr "unknown") (data !! "type")) as [t|] eqn:Htype; [|done].
  injection Hlow as <-.
  unfold add_power_state in Hadd.
  destruct (decide (str_lower t = "microsoft.compute/virtualmachines")) as [Hvm|Hvm].
  2:{ injection Hadd as <-. rewrite lookup_fmap. split; [|done].
      intros v (t' & s' & props & Ht' & Hvm' & _).
      rewrite Htype in Ht'. injection Ht' as <-. done. }
  destruct (default (AStr "{}") (data !! "properties")) as [s|] eqn:Hprops; simpl in Hadd.
  2:{ done. }
  assert (∀ v, vm_display_status data v ↔
               ∃ props, json_loads s = Ok props ∧ display_status props v) as Hstatus.
  { intros v. split.
    - intros (t' & s' & props & _ & _ & Hs & Hloads & Hv).
      rewrite Hprops in Hs. injection Hs as <-. by exists props.
    - intros (props & Hloads & Hv). by exists t, s, props. }
  destruct (json_loads s) as [props|e] eqn:Hloads; simpl in Hadd.
  2:{ assert (node_attrs = (λ v, PStr (attr_str v)) <$> data) as ->
        by (destruct e; by simplify_eq).
      rewrite lookup_fmap. split; [|done].
      intros v (props & ? & _)%Hstatus. done. }
  destruct (power_state props) as [state|e] eqn:Hstate; simpl in Hadd.
  2:{ assert (node_attrs = (λ v, PStr (attr_str v)) <$> data) as ->
        by (destruct e; by simplify_eq).
      rewrite lookup_fmap. split; [|done].
      intros v (props' & [= <-] & Hv%power_state_display)%Hstatus. congruence. }
  injection Hadd as <-.
  destruct (py_truthy num_truthy state) eqn:Htruthy.
  - rewrite lookup_insert_eq. split.
    + intros v (props' & [= <-] & Hv%power_state_display)%Hstatus _. congruence.
    + intros Hfalsy. rewrite Hfalsy in Htruthy; [done|].
      apply Hstatus. exists props. split; [done|]. by apply power_state_truthy.
  - rewrite lookup_fmap. split; [|done].
    intros v (props' & [= <-] & Hv%power_state_display)%Hstatus Hv'. congruence.
Qed.

Lemma export_nodes_Forall2 (colors : list (attr * string))
    (nodes_data : list (string * gmap string attr))
    (exported : list (string * gmap string pyval)) :
  export_nodes net_data_url num_truthy colors nodes_data = Ok exported ↔
  Forall2 (λ n node, export_node net_data_url num_truthy colors n = Ok node)
    nodes_data exported.
Proof.
  revert exported. induction nodes_data as [|n nodes_data IH]; intros exported; simpl.
  - split; [by intros [= <-]; constructor | by intros ->%Forall2_nil_inv_l].
  - destruct (export_node net_data_url num_truthy colors n) as [node|e] eqn:Hn; simpl.
    + destruct (export_nodes net_data_url num_truthy colors nodes_data)
        as [rest|e] eqn:Hrest; simpl.
      * split.
        -- intros [= <-]. constructor; [done|]. by apply IH.
        -- intros (node' & rest' & Hnode & Hall & ->)%Forall2_cons_inv_l.
           apply IH in Hall. rewrite Hn in Hnode. by simplify_eq.
      * split; [done|].
        intros (node' & rest' & Hnode & Hall & ->)%Forall2_cons_inv_l.
        by apply IH in Hall.
    + split; [done|].
      intros (node' & rest' & Hnode & Hall & ->)%Forall2_cons_inv_l.
      by rewrite Hn in Hnode.
Qed.

(** X15: with pyvis present, the export hands every node, in order and
    under its name, and every edge to pyvis; the colour of a node is the
    palette colour of its type, so that the fall-back colour "#888" of line
    260 is never used. *)
Theorem exported_nodes_coloured
    (nodes_data : list (string * gmap string attr)) (edges_data : list (string * string))
    (exported : list (string * gmap string pyval)) (links : list (string * string)) :
  export_interactive net_data_url num_truthy true nodes_data edges_data
    = Ok (Some (exported, links)) →
  links = edges_data ∧
  Forall2 (λ n node,
             node.1 = n.1 ∧
             ∃ c, c ∈ palette ∧
                  color_get (node_type_of n.2) (type_to_color nodes_data) = Some c ∧
                  node.2 !! "color" = Some (PStr c))
    nodes_data exported.
Proof.
  unfold export_interactive. intros Hexp.
  destruct (export_nodes _ _ _ nodes_data) as [exported'|] eqn:Hnodes; [|done].
  simpl in Hexp. injection Hexp as -> ->. split; [done|].
  apply export_nodes_Forall2 in Hnodes.
  destruct (type_to_color_colored nodes_data []) as (_ & Helem & Hcol & _).
  apply Forall2_same_length_lookup. split; [by eapply Forall2_length|].
  intros i [name data] [name' attrs] Hn Hnode.
  pose proof (Forall2_lookup_lr _ _ _ _ _ _ Hnodes Hn Hnode) as Hexp. simpl in Hexp.
  assert (is_Some (color_get (node_type_of data) (type_to_color nodes_data))) as [c Hc].
  { apply color_get_elem, Helem. exists (name, data).
    split; [by eapply list_elem_of_lookup_2|done]. }
  apply export_node_lookup in Hexp as (lowered & node_attrs & _ & _ & -> & ->).
  split; [done|]. exists c. split_and!; [|done|].
  - destruct (color_get_lookup _ _ _ Hc) as (k & Hk).
    destruct (Hcol _ _ _ Hk) as [-> _].
    apply list_elem_of_lookup_total_2. by apply Nat.mod_upper_bound.
  - simpl. rewrite lookup_union_r by (by apply style_lookup_None).
    apply lookup_union_Some_l. rewrite Hc. unfold ui_fields.
    by rewrite lookup_insert_ne, lookup_insert_ne, lookup_insert_eq.
Qed.
(** ** When the export completes *)

Lemma export_nodes_completes (colors : list (attr * string))
    (nodes_data : list (string * gmap string attr)) :
  completes (export_nodes net_data_url num_truthy colors nodes_data) ↔
  Forall (λ n, completes (export_node net_data_url num_truthy colors n)) nodes_data.
Proof.
  induction nodes_data as [|n nodes_data IH]; simpl.
  - split; [constructor | by eexists].
  - rewrite Forall_cons, <-IH.
    destruct (export_node net_data_url num_truthy colors n) as [node|e]; simpl.
    + destruct (export_nodes net_data_url num_truthy colors nodes_data) as [rest|e]; simpl.
      * split; [intros _; split; by eexists | by eexists].
      * split; [by intros [? ?] | by intros [_ [? ?]]].
    + split; [by intros [? ?] | by intros [[? ?] _]].
Qed.

Lemma export_nodes_raises (colors : list (attr * string))
    (nodes_data : list (string * gmap string attr)) (e : exn) :
  export_nodes net_data_url num_truthy colors nodes_data = Raise e →
  ∃ n, n ∈ nodes_data ∧ export_node net_data_url num_truthy colors n = Raise e.
Proof.
  induction nodes_data as [|n nodes_data IH]; simpl; [done|].
  destruct (export_node net_data_url num_truthy colors n) as [node|e'] eqn:Hn; simpl.
  - destruct (export_nodes net_data_url num_truthy colors nodes_data) as [rest|e'];
      simpl; [done|].
    intros [= ->]. destruct IH as (n' & Hin & Hn'); [done|].
    exists n'. split; [by right|done].
  - intros [= ->]. exists n. split; [by left|done].
Qed.

(** The export of a node whose type is a string: only what [json.loads]
    raises and the [except] clause does not catch leaves the loop body. *)
Lemma export_node_text (colors : list (attr * string)) (name t : string)
    (data : gmap string attr) :
  node_type_of data = AStr t →
  (∃ node, export_node net_data_url num_truthy colors (name, data) = Ok node ∧
           (str_lower t = "microsoft.compute/virtualmachines" →
            ∀ e, loads_attr (default (AStr "{}") (data !! "properties")) = Raise e →
                 caught e)) ∨
  (∃ e, export_node net_data_url num_truthy colors (name, data) = Raise e ∧
        str_lower t = "microsoft.compute/virtualmachines" ∧
        loads_attr (default (AStr "{}") (data !! "properties")) = Raise e ∧
        ¬ caught e).
Proof.
  intros Htype. unfold export_node, add_power_state. rewrite Htype. simpl.
  case_decide as Hvm; simpl.
  2:{ left. eexists. split; [done|]. by intros ?. }
  destruct (loads_attr (default (AStr "{}") (data !! "properties")))
    as [props|e] eqn:Hloads; simpl.
  - left. destruct (power_state props) as [state|e] eqn:Hstate; simpl.
    + eexists. split; [done|]. by intros _ e.
    + apply power_state_raises in Hstate as ->. simpl.
      eexists. split; [done|]. by intros _ e.
  - destruct e; simpl;
      try (left; eexists; split; [done|]; intros _ e [= <-]; unfold caught; by auto);
      right; eexists; (split_and!; [done|done|done|]); by intros [?|?].
Qed.

(** The attributes [type] and [properties] of a node of a built graph are
    strings. *)
Lemma built_node_text (df : DataFrame) (G : DiGraph) (n : string) (a : gmap string attr) :
  build_graph_from_csv df = Ok G →
  nodes G !! n = Some a →
  (∃ t, node_type_of a = AStr t) ∧
  loads_attr (default (AStr "{}") (a !! "properties"))
    = json_loads (from_option attr_str "{}" (a !! "properties")).
Proof.
  intros Hbuild Hnode. split.
  - unfold node_type_of. destruct (a !! "type") as [v|] eqn:Hv; [|by eexists].
    destruct (built_attribute_source df G n a "type" v Hbuild Hnode Hv)
      as [(_ & s & _ & _ & _ & _ & _ & ->)|[_ Hint]]; [by eexists|].
    unfold internet_attrs in Hint. rewrite lookup_insert_eq in Hint.
    injection Hint as <-. by eexists.
  - destruct (a !! "properties") as [v|] eqn:Hv; [|done].
    destruct (built_attribute_source df G n a "properties" v Hbuild Hnode Hv)
      as [(_ & s & _ & _ & _ & _ & _ & ->)|[_ Hint]]; [done|].
    unfold internet_attrs in Hint. by rewrite !lookup_insert_ne, lookup_empty in Hint.
Qed.

(** X16: the loops of the export over a built graph (the calls into pyvis
    apart, which are not modelled) complete unless [json.loads] raises, on
    the properties of a virtual machine, an exception other than
    JSONDecodeError and AttributeError; nothing else in the loop body can
    abort it (a properties text whose levels are not objects is passed
    over). *)
Theorem export_of_built_graph (df : DataFrame) (G : DiGraph) (has_pyvis : bool)
    (nodes_data : list (string * gmap string attr)) (edges_data : list (string * string)) :
  build_graph_from_csv df = Ok G →
  (∀ n a, (n, a) ∈ nodes_data → nodes G !! n = Some a) →
  (completes (export_interactive net_data_url num_truthy has_pyvis nodes_data edges_data) ↔
   has_pyvis = false ∨
   ∀ n a t e, (n, a) ∈ nodes_data → node_type_of a = AStr t →
              str_lower t = "microsoft.compute/virtualmachines" →
              json_loads (from_option attr_str "{}" (a !! "properties")) = Raise e →
              caught e) ∧
  (∀ e, export_interactive net_data_url num_truthy has_pyvis nodes_data edges_data = Raise e →
        ¬ caught e ∧ ∃ s, json_loads s = Raise e).
Proof.
  intros Hbuild Hnodes. unfold export_interactive.
  destruct has_pyvis; [|split; [split; [by left|by eexists]|done]].
  split.
  - transitivity (completes (export_nodes net_data_url num_truthy
                               (type_to_color nodes_data) nodes_data)).
    { destruct (export_nodes _ _ _ nodes_data); simpl.
      - split; intros _; by eexists.
      - split; by intros [? ?]. }
    rewrite export_nodes_completes, Forall_forall. split.
    + intros Hall. right. intros n a t e Hin Htype Hvm Hloads.
      destruct (built_node_text df G n a Hbuild (Hnodes _ _ Hin)) as [_ Heq].
      destruct (export_node_text (type_to_color nodes_data) n t a Htype)
        as [(_ & _ & Hcaught)|(e' & Hraise & _)].
      * apply Hcaught; [done|]. by rewrite Heq.
      * destruct (Hall _ Hin) as [node Hnode]. by rewrite Hraise in Hnode.
    + intros [?|Hall]; [done|]. intros [n a] Hin.
      destruct (built_node_text df G n a Hbuild (Hnodes _ _ Hin)) as [[t Htype] Heq].
      destruct (export_node_text (type_to_color nodes_data) n t a Htype)
        as [(node & Hnode & _)|(e & _ & Hvm & Hloads & Hnot)]; [by eexists|].
      destruct Hnot. apply (Hall n a t e); [done..|]. by rewrite <-Heq.
  - intros e Hraise.
    destruct (export_nodes _ _ _ nodes_data) as [|e'] eqn:Hexp; [done|].
    simpl in Hraise. injection Hraise as ->.
    apply export_nodes_raises in Hexp as ([n a] & Hin & Hraise).
    destruct (built_node_text df G n a Hbuild (Hnodes _ _ Hin)) as [[t Htype] Heq].
    destruct (export_node_text (type_to_color nodes_data) n t a Htype)
      as [(node & Hnode & _)|(e' & Hraise' & _ & Hloads & Hnot)].
    + by rewrite Hraise in Hnode.
    + rewrite Hraise in Hraise'. injection Hraise' as <-.
      split; [done|]. rewrite Heq in Hloads. by eexists.
Qed.
End export_facts.

(** ** Injection of the controls *)

Lemma replace_go_absent (old new s : string) :
  contains old s = false → replace_go old new 0 s = s.
Proof.
  induction s as [|c s IH]; [done|].
  intros [Hstart Hrest]%orb_false_iff. cbn [replace_go].
  rewrite Hstart. by rewrite IH.
Qed.

Lemma replace_go_contains (old new s x : string) :
  old ≠ "" → contains old s = true → contains x new = true →
  contains x (replace_go old new 0 s) = true.
Proof.
  intros Hold Hin Hx. induction s as [|c s IH].
  - by destruct old.
  - cbn [replace_go]. destruct (startswith old (String c s)) eqn:Hstart.
    + by apply contains_app_l.
    + cbn [contains] in Hin. rewrite Hstart in Hin. simpl in Hin.
      cbn [contains]. apply orb_true_iff. right. by apply IH.
Qed.

Lemma contains_refl (x : string) : contains x x = true.
Proof.
  assert (startswith x x = true) as Hstart.
  { induction x as [|a x IH]; [done|]. simpl. by rewrite decide_True. }
  destruct x; [done|]. cbn [contains]. by rewrite Hstart.
Qed.

(** X17: the injection writes the page back only when both files were read
    and the page has a closing body tag; the text written then contains the
    template and still a closing body tag.  A page without the tag is left
    as it is. *)
Theorem injected_controls (html inject_html : option string) :
  match _inject_interactive_controls html inject_html with
  | Some written =>
      ∃ page template,
        html = Some page ∧ inject_html = Some template ∧
        contains "</body>" page = true ∧
        contains template written = true ∧ contains "</body>" written = true
  | None =>
      html = None ∨ inject_html = None ∨
      ∃ page, html = Some page ∧ contains "</body>" page = false ∧
              py_replace "</body>" (default "" inject_html +:+ newline +:+ "</body>") page
                = page
  end.
Proof.
  unfold _inject_interactive_controls.
  destruct html as [page|]; [|by left].
  destruct inject_html as [template|]; [|by right; left].
  destruct (contains "</body>" page) eqn:Hin.
  - exists page, template. split_and!; [done..| |].
    + apply replace_go_contains; [done|done|]. apply contains_app_l, contains_refl.
    + apply replace_go_contains; [done|done|].
      apply contains_app_r, contains_app_r, contains_refl.
  - right; right. exists page. split_and!; [done|done|]. by apply replace_go_absent.
Qed.

(** ** The input file of [main] *)

(** X18: [main] loads the file named by the first argument, or without an
    argument the first CSV file of the data directory, and only if that file
    exists; it looks for the default first, so that it exits when the data
    directory holds no CSV file even if the argument names a file that
    exists.  It exits with SystemExit only. *)
Theorem main_input_file (csvs : list string) (file_exists : string → bool)
    (argv : list string) :
  (∀ path, main_csv_path csvs file_exists argv = Ok path ↔
           ∃ default_csv, head csvs = Some default_csv ∧
                          path = default default_csv (argv !! 1) ∧
                          file_exists path = true) ∧
  (∀ e, main_csv_path csvs file_exists argv = Raise e → e = SystemExit) ∧
  main_csv_path [] file_exists argv = Raise SystemExit.
Proof.
  unfold main_csv_path. split_and!; [|by intros e; repeat case_match; intros [= <-]|done].
  intros path. destruct csvs as [|default_csv csvs]; simpl.
  { split; [done | by intros (? & ? & _)]. }
  assert (match argv with
          | _ :: arg :: _ => arg
          | _ => default_csv
          end = default default_csv (argv !! 1)) as ->.
  { by destruct argv as [|? [|? ?]]. }
  destruct (file_exists (default default_csv (argv !! 1))) eqn:Hex.
  - split.
    + intros [= <-]. by exists default_csv.
    + by intros (? & [= <-] & -> & _).
  - split; [done|]. intros (? & [= <-] & -> & Hex'). by rewrite Hex in Hex'.
Qed.

(** ** The size of the graph and the Internet node *)

Lemma size_list_to_set_le (l : list string) :
  size (list_to_set l : gset string) ≤ length l.
Proof.
  induction l as [|x l IH].
  { change (size (∅ : gset string) ≤ 0). by rewrite size_empty. }
  change (size ({[x]} ∪ list_to_set l : gset string) ≤ S (length l)).
  rewrite size_union_alt, size_singleton.
  assert (size (list_to_set l ∖ {[x]} : gset string) ≤ size (list_to_set l : gset string))
    as Hle; [|lia].
  apply subseteq_size. intros y [Hy _]%elem_of_difference. done.
Qed.

Section graph_size.
Context `{PyLib}.

(** X19: the number of nodes that [main] prints is at most the number of
    rows of the CSV plus one, the one being the Internet node. *)
Theorem node_number_bound (df : DataFrame) (G : DiGraph) :
  build_graph_from_csv df = Ok G →
  size (nodes G) ≤ length (rows df) + 1.
Proof.
  intros Hbuild. rewrite <-size_dom.
  assert (dom (nodes G) ⊆
          list_to_set ((λ r, row_item r "name") <$> rows df) ∪ {[ internet_node_name ]})
    as Hsub.
  { intros n Hn%elem_of_dom. apply elem_of_union.
    apply (built_nodes_iff df G n Hbuild) in Hn
      as [(_ & r & Hr & <-)|(r & Hr & _ & [->|<-])].
    - left. apply elem_of_list_to_set, list_elem_of_fmap. by exists r.
    - right. by apply elem_of_singleton.
    - left. apply elem_of_list_to_set, list_elem_of_fmap. by exists r. }
  apply subseteq_size in Hsub. rewrite size_union_alt in Hsub.
  pose proof (size_list_to_set_le ((λ r, row_item r "name") <$> rows df)) as Hnames.
  rewrite length_fmap in Hnames.
  assert (size ({[internet_node_name]} ∖
                list_to_set ((λ r, row_item r "name") <$> rows df) : gset string) ≤ 1)
    as Hone; [|lia].
  rewrite <-(size_singleton (C := gset string) internet_node_name).
  apply subseteq_size. intros y [Hy _]%elem_of_difference. done.
Qed.

(** X20: when no row is named "Internet", the node Internet of a built
    graph is a source: no edge points to it, its edges go exactly to the
    names of the exposed rows, and its attributes are the three that the
    exposure pass sets. *)
Theorem internet_node_is_a_source (df : DataFrame) (G : DiGraph) :
  build_graph_from_csv df = Ok G →
  (∀ r, r ∈ rows df → row_item r "name" ≠ internet_node_name) →
  (∀ u, (u, internet_node_name) ∉ edges G) ∧
  (∀ v, (internet_node_name, v) ∈ edges G ↔
        ∃ r, r ∈ rows df ∧ row_exposed r = Ok true ∧ row_item r "name" = v) ∧
  (∀ attrs, nodes G !! internet_node_name = Some attrs → attrs = internet_attrs).
Proof.
  intros Hbuild Hnone. split_and!.
  - intros u [(row & Hrow & _ & _ & cid & _ & _ & _ & Hget & _)
             |(_ & r & Hr & _ & Hname)]%(build_edges df G _ _ Hbuild).
    + unfold id_to_name in Hget. rewrite id_to_name_of_index in Hget.
      apply index_of_source in Hget as [?|(r & Hr & _ & _ & Hname)]; [done|].
      by apply (Hnone r Hr).
    + by apply (Hnone r Hr).
  - intros v. rewrite (build_edges df G _ _ Hbuild). split; [|by right].
    intros [(row & Hrow & Hname & _)|[_ ?]]; [|done]. by destruct (Hnone row Hrow).
  - intros attrs. rewrite (built_graph_lookup df G _ Hbuild). cbv zeta.
    destruct (decide (internet_node_name ≠ "" ∧
                      Exists (λ r, row_item r "name" = internet_node_name) (rows df)))
      as [[_ (r & Hr & Hname)%Exists_exists]|_].
    { by destruct (Hnone r Hr). }
    case_decide; [done|]. rewrite decide_True by done.
    change (default ∅ None) with (∅ : gmap string attr).
    rewrite (right_id_L ∅ (∪)). by intros [= <-].
Qed.
End graph_size.

(** ** The further properties on the sample data *)

Import Samples.

Lemma value_of_ok {A : Type} (dflt : A) (r : result A) :
  is_ok r = true → r = Ok (value_of dflt r).
Proof. by destruct r. Qed.

Lemma reference_pass_adds_no_node_witness :
  node_loop (columns plain_frame) (rows plain_frame) empty_graph
    = Ok (node_pass plain_frame) ∧
  nodes (graph_of plain_frame) = nodes (node_pass plain_frame).
Proof.
  assert (node_loop (columns plain_frame) (rows plain_frame) empty_graph
          = Ok (node_pass plain_frame)) as Hloop by evaluate.
  split; [exact Hloop|].
  destruct (reference_pass_adds_no_node plain_frame _ Hloop) as [<- _]. evaluate.
Defined.

Lemma built_graph_nodes_witness :
  run exposed_frame = Ok (graph_of exposed_frame) ∧
  is_Some (nodes (graph_of exposed_frame) !! "Internet").
Proof.
  assert (run exposed_frame = Ok (graph_of exposed_frame)) as Hrun by evaluate.
  split; [exact Hrun|].
  apply (built_graph_nodes (H := ascii_json) _ _ "Internet" Hrun).
  right. exists nsg_open. split_and!; [evaluate|evaluate|by left].
Defined.

Lemma built_graph_edges_join_nodes_witness :
  run exposed_frame = Ok (graph_of exposed_frame) ∧
  ("Internet", "store1") ∈ edges (graph_of exposed_frame) ∧
  is_Some (nodes (graph_of exposed_frame) !! "Internet") ∧
  is_Some (nodes (graph_of exposed_frame) !! "store1").
Proof.
  assert (run exposed_frame = Ok (graph_of exposed_frame)) as Hrun by evaluate.
  assert (("Internet", "store1") ∈ edges (graph_of exposed_frame)) as Hedge by evaluate.
  split_and!; [exact Hrun|exact Hedge|..];
    apply (built_graph_edges_join_nodes (H := ascii_json) _ _ _ _ Hrun Hedge).
Defined.

Lemma built_attribute_provenance_witness :
  run exposed_frame = Ok (graph_of exposed_frame) ∧
  nodes (graph_of exposed_frame) !! "store1" = Some (row_attrs header storage_allow) ∧
  row_attrs header storage_allow !! "type" = Some (AStr storage_type) ∧
  ((∃ r s, r ∈ rows exposed_frame ∧ row_item r "name" = "store1" ∧
           "type" ∈ columns exposed_frame ∧ r !! "type" = Some s ∧ s ≠ "" ∧
           AStr storage_type = AStr s) ∨
   ("store1" = internet_node_name ∧ internet_attrs !! "type" = Some (AStr storage_type))).
Proof.
  assert (run exposed_frame = Ok (graph_of exposed_frame)) as Hrun by evaluate.
  assert (nodes (graph_of exposed_frame) !! "store1"
          = Some (row_attrs header storage_allow)) as Hnode by evaluate.
  assert (row_attrs header storage_allow !! "type" = Some (AStr storage_type))
    as Hattr by evaluate.
  split_and!; [exact Hrun|exact Hnode|exact Hattr|].
  exact (built_attribute_provenance (H := ascii_json) _ _ _ _ _ _ Hrun Hnode Hattr).
Defined.

Lemma nsg_row_aborts_iff_witness :
  lower (row_get nsg_null_rules "type" "") = "microsoft.network/networksecuritygroups" ∧
  loads (row_get nsg_null_rules "properties" "{}") = Ok (PDict [("securityRules", PNone)]) ∧
  ∃ e, @exposure_step ascii_json (empty_graph, false) nsg_null_rules = Raise e.
Proof.
  assert (lower (row_get nsg_null_rules "type" "")
          = "microsoft.network/networksecuritygroups") as Htype by evaluate.
  assert (loads (row_get nsg_null_rules "properties" "{}")
          = Ok (PDict [("securityRules", PNone)])) as Hprops by (vm_compute; reflexivity).
  split_and!; [exact Htype|exact Hprops|].
  apply (nsg_row_aborts_iff (H := ascii_json) nsg_null_rules _ (empty_graph, false)
           Htype Hprops).
  exists [("securityRules", PNone)], PNone. split_and!; [done|by vm_compute|exact I].
Defined.

Lemma only_two_types_are_exposed_witness :
  Forall (λ r, lower (row_get r "type" "") ≠ "microsoft.network/networksecuritygroups" ∧
               lower (row_get r "type" "") ≠ "microsoft.storage/storageaccounts")
    (rows plain_frame) ∧
  run plain_frame = Ok (graph_of plain_frame) ∧
  reference_graph plain_frame = Ok (graph_of plain_frame).
Proof.
  assert (Forall (λ r, lower (row_get r "type" "")
                         ≠ "microsoft.network/networksecuritygroups" ∧
                       lower (row_get r "type" "") ≠ "microsoft.storage/storageaccounts")
            (rows plain_frame)) as Htypes by evaluate.
  assert (run plain_frame = Ok (graph_of plain_frame)) as Hrun by evaluate.
  split_and!; [exact Htypes|exact Hrun|].
  exact (proj1 (only_two_types_are_exposed (H := ascii_json) _ _ Htypes Hrun)).
Defined.

Lemma exposure_pass_order_independent_witness :
  [nsg_open; storage_allow] ≡ₚ [storage_allow; nsg_open] ∧
  @exposure_loop ascii_json [nsg_open; storage_allow] (empty_graph, false)
    = Ok (exposure_of [nsg_open; storage_allow]) ∧
  @exposure_loop ascii_json [storage_allow; nsg_open] (empty_graph, false)
    = Ok (exposure_of [nsg_open; storage_allow]).
Proof.
  assert ([nsg_open; storage_allow] ≡ₚ [storage_allow; nsg_open]) as Hperm
    by apply perm_swap.
  assert (@exposure_loop ascii_json [nsg_open; storage_allow] (empty_graph, false)
          = Ok (exposure_of [nsg_open; storage_allow])) as Hloop by evaluate.
  split_and!; [exact Hperm|exact Hloop|].
  exact (exposure_pass_order_independent (H := ascii_json) _ _ _ _ _ Hperm Hloop).
Defined.

(** Without a recognised column the search falls back on the columns of
    dtype [object]: all of them, and the reference is found in the notes,
    or none, and nothing is searched. *)
Lemma search_fallback_examples :
  search_columns (df_notes ["id"; "name"; "notes"]) = ["id"; "name"; "notes"] ∧
  edges (graph_of (df_notes ["id"; "name"; "notes"])) = {[ ("A", "B") ]} ∧
  search_columns (df_notes []) = [] ∧
  run (df_notes []) = Ok (graph_of (df_notes [])) ∧
  edges (graph_of (df_notes [])) = ∅.
Proof. split_and!; evaluate. Qed.

Lemma reference_edge_from_one_cell_witness :
  reference_graph (df_notes ["id"; "name"; "notes"])
    = Ok (graph_of (df_notes ["id"; "name"; "notes"])) ∧
  Forall (λ cid, contains " " cid = false)
    (candidate_ids (df_notes ["id"; "name"; "notes"])) ∧
  ∃ row, row ∈ rows (df_notes ["id"; "name"; "notes"]) ∧
         cell_refers (df_notes ["id"; "name"; "notes"]) row "A" "B".
Proof.
  assert (reference_graph (df_notes ["id"; "name"; "notes"])
          = Ok (graph_of (df_notes ["id"; "name"; "notes"]))) as Href by evaluate.
  assert (Forall (λ cid, contains " " cid = false)
            (candidate_ids (df_notes ["id"; "name"; "notes"]))) as Hspace by evaluate.
  split_and!; [exact Href|exact Hspace|].
  apply (reference_edge_from_one_cell _ _ "A" "B" Href Hspace).
  evaluate.
Defined.

Lemma colors_distinct_up_to_six_types_witness :
  length palette < length (type_to_color seven_types) ∧
  ∃ t1 t7 c, (type_to_color seven_types).*1 !! 0 = Some t1 ∧
             (type_to_color seven_types).*1 !! 6 = Some t7 ∧ t1 ≠ t7 ∧
             color_get t1 (type_to_color seven_types) = Some c ∧
             color_get t7 (type_to_color seven_types) = Some c.
Proof.
  assert (length palette < length (type_to_color seven_types)) as Hlen by evaluate.
  split; [exact Hlen|].
  exact (proj2 (colors_distinct_up_to_six_types seven_types) Hlen).
Defined.

Lemma exported_node_fields_witness :
  @export_node ascii_json sample_url any_number (type_to_color [vm_node]) vm_node
    = Ok exported_vm ∧
  exported_vm.2 !! "label" = Some (PStr "vm9") ∧
  exported_vm.2 !! "id" = Some (PStr "/vm/9").
Proof.
  assert (@export_node ascii_json sample_url any_number (type_to_color [vm_node])
            ("vm9", row_attrs header vm_running) = Ok (exported_vm.1, exported_vm.2))
    as Hexp.
  { rewrite <-surjective_pairing. apply value_of_ok. by vm_compute. }
  destruct (exported_node_fields (H := ascii_json) _ _ _ _ _ _ _ Hexp)
    as (_ & Hlabel & _ & _ & _ & _ & _ & Hother).
  split_and!; [by rewrite (surjective_pairing exported_vm)|exact Hlabel|].
  rewrite Hother; [by vm_compute|]. evaluate.
Defined.

Lemma exported_power_state_witness :
  @export_node ascii_json sample_url any_number (type_to_color [vm_node]) vm_node
    = Ok exported_vm ∧
  @vm_display_status ascii_json vm_node.2 (PStr "VM running") ∧
  exported_vm.2 !! "powerState" = Some (PStr "VM running").
Proof.
  assert (@export_node ascii_json sample_url any_number (type_to_color [vm_node])
            ("vm9", row_attrs header vm_running) = Ok (exported_vm.1, exported_vm.2))
    as Hexp.
  { rewrite <-surjective_pairing. apply value_of_ok. by vm_compute. }
  assert (@vm_display_status ascii_json vm_node.2 (PStr "VM running")) as Hstatus.
  { exists vm_type, (row_item vm_running "properties"),
      (PDict [("extended",
               PDict [("instanceView",
                       PDict [("powerState",
                               PDict [("displayStatus", PStr "VM running")])])])]).
    split_and!; [by vm_compute..|].
    eexists _, _, _, _. split_and!; by vm_compute. }
  split_and!; [by rewrite (surjective_pairing exported_vm)|exact Hstatus|].
  by apply (proj1 (exported_power_state (H := ascii_json) _ _ _ _ _ _ _ Hexp)).
Defined.

Lemma value_of_ok_some {A : Type} (dflt : A) (r : result (option A)) :
  match r with Ok (Some _) => true | _ => false end = true →
  r = Ok (Some (default dflt (value_of None r))).
Proof. by destruct r as [[?|]|]. Qed.

Lemma exported_nodes_coloured_witness :
  @export_interactive ascii_json sample_url any_number true
    (nodes_of (graph_of vm_frame)) (edges_of (graph_of vm_frame))
    = Ok (Some exported_graph) ∧
  exported_graph.2 = edges_of (graph_of vm_frame).
Proof.
  assert (@export_interactive ascii_json sample_url any_number true
            (nodes_of (graph_of vm_frame)) (edges_of (graph_of vm_frame))
          = Ok (Some (exported_graph.1, exported_graph.2))) as Hexp.
  { rewrite <-surjective_pairing. apply value_of_ok_some. by vm_compute. }
  split; [by rewrite (surjective_pairing exported_graph)|].
  exact (proj1 (exported_nodes_coloured (H := ascii_json) _ _ _ _ _ _ Hexp)).
Defined.

Lemma export_of_built_graph_witness :
  run vm_frame = Ok (graph_of vm_frame) ∧
  (∀ n a, (n, a) ∈ nodes_of (graph_of vm_frame) →
          nodes (graph_of vm_frame) !! n = Some a) ∧
  ∀ e, @export_interactive ascii_json sample_url any_number true
         (nodes_of (graph_of vm_frame)) (edges_of (graph_of vm_frame)) = Raise e →
       ¬ caught e ∧ ∃ s, loads s = Raise e.
Proof.
  assert (run vm_frame = Ok (graph_of vm_frame)) as Hrun by evaluate.
  assert (∀ n a, (n, a) ∈ nodes_of (graph_of vm_frame) →
                 nodes (graph_of vm_frame) !! n = Some a) as Hnodes.
  { intros n a Hin. by apply elem_of_map_to_list in Hin. }
  split_and!; [exact Hrun|exact Hnodes|].
  exact (proj2 (export_of_built_graph (H := ascii_json) sample_url any_number
                  _ _ true _ (edges_of (graph_of vm_frame)) Hrun Hnodes)).
Defined.

Lemma node_number_bound_witness :
  run exposed_frame = Ok (graph_of exposed_frame) ∧
  size (nodes (graph_of exposed_frame)) ≤ length (rows exposed_frame) + 1.
Proof.
  assert (run exposed_frame = Ok (graph_of exposed_frame)) as Hrun by evaluate.
  split; [exact Hrun|].
  exact (node_number_bound (H := ascii_json) _ _ Hrun).
Defined.

Lemma internet_node_is_a_source_witness :
  run exposed_frame = Ok (graph_of exposed_frame) ∧
  (∀ r, r ∈ rows exposed_frame → row_item r "name" ≠ internet_node_name) ∧
  ∀ u, (u, internet_node_name) ∉ edges (graph_of exposed_frame).
Proof.
  assert (run exposed_frame = Ok (graph_of exposed_frame)) as Hrun by evaluate.
  assert (∀ r, r ∈ rows exposed_frame → row_item r "name" ≠ internet_node_name)
    as Hnone.
  { apply Forall_forall. evaluate. }
  split_and!; [exact Hrun|exact Hnone|].
  exact (proj1 (internet_node_is_a_source (H := ascii_json) _ _ Hrun Hnone)).
Defined.

Lemma C2_node_attributes_merge_witness :
  run df_shared_name = Ok (graph_of df_shared_name) ∧
  shared_last ∈ rows df_shared_name ∧
  row_item shared_last "name" ≠ "" ∧
  node_count (graph_of df_shared_name) "A" = 1 ∧
  ∃ attrs, nodes (graph_of df_shared_name) !! "A" = Some attrs ∧
           attrs !! "id" = Some (AStr "/b") ∧ attrs !! "type" = Some (AStr "vm").
Proof.
  assert (run df_shared_name = Ok (graph_of df_shared_name)) as Hrun by evaluate.
  assert (shared_last ∈ rows df_shared_name) as Hrow by evaluate.
  assert (row_item shared_last "name" ≠ "") as Hname by evaluate.
  destruct (C2_node_attributes_merge (H := ascii_json) df_shared_name
              (graph_of df_shared_name) shared_last Hrun Hrow Hname)
    as (Hcount & attrs & Hnode & Hplain & _).
  destruct Hplain as [Hmerge _]; [by left|].
  split_and!; [exact Hrun|exact Hrow|exact Hname|exact Hcount|].
  exists attrs. split_and!; [exact Hnode| |]; apply Hmerge; eexists; (split; [done|]).
  - exists [shared_first], shared_last, []. split_and!; [done|done| |constructor].
    split_and!; evaluate.
  - exists [], shared_first, [shared_last]. split_and!; [done|done| |].
    + split_and!; evaluate.
    + apply Forall_singleton. intros _ s' (_ & Hs & Hne).
      vm_compute in Hs. by injection Hs as <-.
Defined.
